(** * String-similarity record linkage: a shallow embedding

    The development follows the Python sources module by module:

    - [Text]            the fragment of Python [str] the sources use,
    - [Translations]    [config/translations.py],
    - [Preprocessing]   [scripts/preprocessing.py],
    - [Config]          [config/config.py] (thresholds),
    - [Numpy], [Sklearn], [Rapidfuzz], [Re]  the library calls the
                        algorithm modules make, with their documented
                        behaviour,
    - [Executor]        the thread-pool loop every [perform_matching] shares,
    - [Levenshtein], [Jaccard], [Dice], [Ngram], [Regex]
                        [scripts/algorithms/*.py],
    - [Tfidf]           the sixth module [main.py] imports, which is not
                        among the sources and is modelled from the
                        specification,
    - [Main]            the pipeline of [main.py].

    The definitions come first; the properties follow, grouped by the part
    of the program they are about.

    Characters are code points of the Latin-1 block (U+0000..U+00FF), held in
    Rocq's 8-bit [ascii]; every character table below is Python's table
    restricted to that block, and the block is closed under [str.lower].
    Scores of the five modules among the sources are exact rationals:
    every score is a quotient of two small integers, and rounding such
    quotients to float64 keeps their order, 0 and 1.  The non-finite values
    of IEEE division are kept as separate constructors (see
    [Numpy.npfloat]).  The vectors of [Tfidf] and their cosine are real
    numbers; the score is the cosine rounded to a float by a parameter. *)

From Stdlib Require Import List Ascii String ZArith QArith Qreduction Bool Lia Lqa
  Permutation Arith PeanoNat.
From Stdlib Require Reals Lra.
Import ListNotations.

Set Implicit Arguments.

(* ================================================================== *)
(** ** Python text *)

Module Text.

Definition char := ascii.
Definition text := list char.

Definition text_eq_dec : forall a b : text, {a = b} + {a <> b} :=
  list_eq_dec ascii_dec.

Definition text_eqb (a b : text) : bool :=
  if text_eq_dec a b then true else false.

(** ASCII literals, written as Rocq strings. *)
Definition lit (s : string) : text := list_ascii_of_string s.

(** The non-ASCII letters the sources name, by code point. *)
Definition A_uml : char := "196"%char.   (* U+00C4 *)
Definition sz    : char := "223"%char.   (* U+00DF *)
Definition a_uml : char := "228"%char.   (* U+00E4 *)
Definition o_uml : char := "246"%char.   (* U+00F6 *)
Definition u_uml : char := "252"%char.   (* U+00FC *)

Definition code (c : char) : N := N_of_ascii c.

Definition between (lo hi : N) (c : char) : bool :=
  ((lo <=? code c) && (code c <=? hi))%N.

(** [str.isspace] / the class [\s]: TAB..CR, FS..US, SPACE, NEL, NBSP. *)
Definition isspace (c : char) : bool :=
  between 9 13 c || between 28 32 c
  || (code c =? 133)%N || (code c =? 160)%N.

(** [str.isalnum] on this block: ASCII letters and digits, the
    superscripts, fractions and ordinal indicators, the micro sign, and the
    accented letters (the block's letters without the two operators
    U+00D7 and U+00F7). *)
Definition isalnum (c : char) : bool :=
  between 48 57 c || between 65 90 c || between 97 122 c
  || (code c =? 170)%N || between 178 179 c || (code c =? 181)%N
  || between 185 186 c || between 188 190 c
  || between 192 214 c || between 216 246 c || between 248 255 c.

(** The class [\w] of a [str] pattern: alphanumerics and the underscore. *)
Definition isword (c : char) : bool := isalnum c || (code c =? 95)%N.

(** [str.lower], one character: A..Z and U+00C0..U+00DE (without the
    multiplication sign) move up by 32. *)
Definition lower_char (c : char) : char :=
  if between 65 90 c || (between 192 222 c && negb (code c =? 215)%N)
  then ascii_of_N (code c + 32) else c.

Definition lower (s : text) : text := map lower_char s.

Fixpoint lstrip (s : text) : text :=
  match s with
  | c :: s' => if isspace c then lstrip s' else s
  | [] => []
  end.

Definition rstrip (s : text) : text := rev (lstrip (rev s)).

(** [str.strip()] with no argument. *)
Definition strip (s : text) : text := rstrip (lstrip s).

Fixpoint startswith (s p : text) : bool :=
  match p, s with
  | [], _ => true
  | a :: p', b :: s' => Ascii.eqb a b && startswith s' p'
  | _ :: _, [] => false
  end.

(** [sub in s]: some suffix of [s] starts with [sub]. *)
Fixpoint contains (s sub : text) : bool :=
  startswith s sub ||
  match s with
  | [] => false
  | _ :: s' => contains s' sub
  end.

(** [re.sub(pat, rep, s)] for a pattern made of ordinary characters and a
    replacement without backslashes (all the entries of the translation
    tables are such): the non-overlapping occurrences of [pat], leftmost
    first, are replaced.  [skip] counts the characters of an occurrence
    still to be dropped. *)
Fixpoint sub_from (pat rep s : text) (skip : nat) : text :=
  match s with
  | [] => []
  | c :: s' =>
      match skip with
      | S k => sub_from pat rep s' k
      | O =>
          if startswith s pat
          then rep ++ sub_from pat rep s' (List.length pat - 1)
          else c :: sub_from pat rep s' 0
      end
  end.

Definition re_sub_literal (pat rep s : text) : text :=
  match pat with
  | [] => s
  | _ => sub_from pat rep s 0
  end.

End Text.

Import Text.

(* ================================================================== *)
(** ** config/translations.py *)

Module Translations.

Definition MUTATION_TRANSLATION : list (text * text) :=
  [ ([a_uml], lit "ae"); ([o_uml], lit "oe");
    ([u_uml], lit "ue"); ([sz], lit "ss") ].

Definition ABBREVIATION_TRANSLATION : list (text * text) :=
  [ (lit "stra" ++ [sz] ++ lit "e", lit "str.");
    (lit "Stra" ++ [sz] ++ lit "e", lit "Str.") ].

End Translations.

(* ================================================================== *)
(** ** scripts/preprocessing.py *)

Module Preprocessing.
Import Translations.

(** [ABBREVIATION_TRANSLATION | MUTATION_TRANSLATION]: the keys of the two
    dictionaries are distinct, so the union lists the abbreviations first
    and the mutations after them. *)
Definition replacements : list (text * text) :=
  ABBREVIATION_TRANSLATION ++ MUTATION_TRANSLATION.

(** The class [[^\w\s]] removed by the last substitution. *)
Definition kept (c : char) : bool := isword c || isspace c.

Definition normalize_text (s1 : text) : text :=
  let s2 :=
    fold_left (fun s kv => re_sub_literal (fst kv) (snd kv) s)
              replacements s1 in
  filter kept (strip (lower s2)).

(** A column after [fillna("")]: a missing cell is the empty text.
    [preprocess] returns the normalized and the original series (the
    frame's index is reset, so positions are the row labels). *)
Definition fillna (col : list (option text)) : list text :=
  map (fun cell => match cell with Some t => t | None => [] end) col.

Definition preprocess (col : list (option text)) : list text * list text :=
  let original_series := fillna col in
  (map normalize_text original_series, original_series).

End Preprocessing.

Import Preprocessing.

(* ================================================================== *)
(** ** Python values shared by the algorithm modules *)

Module Py.

(** The exceptions the modelled calls raise. *)
Inductive exn :=
| IndexError            (* positional indexer out of bounds *)
| ValueError (msg : string)
| TypeError
| KeyError
| ReError (msg : string)
| Unmodelled_construct. (* a call outside the modelled library fragment *)

Inductive outcome (A : Type) :=
| Returned (a : A)
| Raised (e : exn).
Arguments Returned {A} a.
Arguments Raised {A} e.

Definition bind {A B} (x : outcome A) (k : A -> outcome B) : outcome B :=
  match x with
  | Returned a => k a
  | Raised e => Raised e
  end.

Definition returned {A} (x : outcome A) : bool :=
  match x with Returned _ => true | Raised _ => false end.

(** [series.iloc[idx]] *)
Definition iloc {A} (series : list A) (idx : nat) : outcome A :=
  match nth_error series idx with
  | Some a => Returned a
  | None => Raised IndexError
  end.

(** The value stored under ["BEST_MATCH"]: [None], a float or a bool. *)
Inductive cell :=
| PyNone
| PyFloat (q : Q)
| PyBool (b : bool).

(** The dictionary every [__calculate_best_match] returns. *)
Record MatchResult := {
  MATCH : text;
  BEST_FOUND_MATCH : option text;
  TRUE_MATCH : option text;
  BEST_MATCH : cell
}.

(** One cell of [df["BEST_MATCH"] >= threshold]: a missing score compares
    false, [True] and [False] compare as 1 and 0. *)
Definition ge_threshold (threshold : Q) (c : cell) : bool :=
  match c with
  | PyNone => false
  | PyFloat q => Qle_bool threshold q
  | PyBool b => Qle_bool threshold (if b then 1 else 0)
  end.

(** A row of the exported table: the result and ["BEST_MATCH_BINARY"]. *)
Definition row := (MatchResult * bool)%type.

End Py.

Import Py.

Notation "x <- c1 ;; c2" := (bind c1 (fun x => c2))
  (at level 61, c1 at next level, right associativity).

(* ================================================================== *)
(** ** config/config.py *)

Module Config.

Definition THRESHOLDS : list (string * Q) :=
  [ ("regex"%string, 1 # 2);
    ("levenshtein"%string, 4 # 5);
    ("jaccard"%string, 1 # 2);
    ("tfidf"%string, 1 # 2);
    ("ngram"%string, 1 # 2);
    ("dice"%string, 1 # 2) ].

(** [DotDict.__getattr__ = dict.get] *)
Fixpoint get (d : list (string * Q)) (name : string) : option Q :=
  match d with
  | [] => None
  | (k, v) :: d' => if String.eqb k name then Some v else get d' name
  end.

Definition METRICS : list string :=
  [ "Accuracy"; "Precision"; "Recall"; "F1-Score"; "ROC-AUC" ]%string.

End Config.

(* ================================================================== *)
(** ** numpy: true division, [nan_to_num], [max] and [argmax] *)

Module Numpy.

(** A float64 produced by dividing two integers: a finite quotient, or
    one of the three non-finite results of a division by zero. *)
Inductive npfloat :=
| Fin (q : Q)
| PosInf
| NegInf
| NaN.

(** [a / b] under [np.errstate(divide="ignore", invalid="ignore")]. *)
Definition true_divide (a b : Z) : npfloat :=
  if (b =? 0)%Z then
    if (a =? 0)%Z then NaN
    else if (0 <? a)%Z then PosInf else NegInf
  else Fin (Qred (inject_Z a / inject_Z b)).

(** The largest finite float64, [(2 - 2^-52) * 2^1023]. *)
Definition DBL_MAX : Q := inject_Z (2 ^ 1024 - 2 ^ 971).

(** [np.nan_to_num] with its defaults: NaN becomes 0, the infinities the
    largest and the smallest finite float. *)
Definition nan_to_num (x : npfloat) : Q :=
  match x with
  | Fin q => q
  | NaN => 0
  | PosInf => DBL_MAX
  | NegInf => - DBL_MAX
  end.

Fixpoint argmax_from (best : Q) (besti i : nat) (l : list Q) : nat :=
  match l with
  | [] => besti
  | x :: l' =>
      if Qle_bool x best then argmax_from best besti (S i) l'
      else argmax_from x i (S i) l'
  end.

(** [a.argmax()]: the first position of the maximum; an empty array
    raises. *)
Definition argmax (a : list Q) : outcome nat :=
  match a with
  | [] => Raised (ValueError "attempt to get argmax of an empty sequence")
  | x :: l => Returned (argmax_from x 0%nat 1%nat l)
  end.

Fixpoint max_from (best : Q) (l : list Q) : Q :=
  match l with
  | [] => best
  | x :: l' => if Qle_bool x best then max_from best l' else max_from x l'
  end.

(** [a.max()] *)
Definition max (a : list Q) : outcome Q :=
  match a with
  | [] => Raised (ValueError "zero-size array to reduction operation maximum which has no identity")
  | x :: l => Returned (max_from x l)
  end.

(** Integer row vectors and matrices (the sparse matrices of scipy, kept
    dense): [sum()], [sum(axis=1)], [multiply] and [nnz]. *)
Definition vector := list Z.
Definition matrix := list vector.

Definition sum (v : vector) : Z := fold_right Z.add 0%Z v.

Fixpoint multiply_row (u v : vector) : vector :=
  match u, v with
  | a :: u', b :: v' => (a * b)%Z :: multiply_row u' v'
  | _, _ => []
  end.

Definition multiply (m : matrix) (v : vector) : matrix :=
  map (fun u => multiply_row u v) m.

Definition sum_axis1 (m : matrix) : list Z := map sum m.

Definition nnz (v : vector) : nat :=
  List.length (filter (fun x => negb (x =? 0)%Z) v).

End Numpy.

(* ================================================================== *)
(** ** sklearn.feature_extraction.text.CountVectorizer *)

Module Sklearn.
Import Numpy.

Definition emit (cur : text) : list text :=
  if (2 <=? List.length cur)%nat then [rev cur] else [].

(** The default [token_pattern], [(?u)\b\w\w+\b], under [findall]: the
    maximal runs of word characters that are at least two long.  [cur]
    holds the run being read, last character first. *)
Fixpoint word_runs (s cur : text) : list text :=
  match s with
  | [] => emit cur
  | c :: s' =>
      if isword c then word_runs s' (c :: cur)
      else emit cur ++ word_runs s' []
  end.

(** [analyzer="word"]: lowercase, then tokenize. *)
Definition word_analyzer (doc : text) : list text :=
  word_runs (lower doc) [].

(** [_white_spaces.sub(" ", text)] with [_white_spaces = \s\s+]: a run of
    two or more whitespace characters becomes one space; a lone
    whitespace character stays.  [in_run] says the previous character was
    part of a run already replaced. *)
Fixpoint collapse_ws (s : text) (in_run : bool) : text :=
  match s with
  | [] => []
  | c :: s' =>
      if isspace c then
        if in_run then collapse_ws s' true
        else
          match s' with
          | d :: _ =>
              if isspace d then " "%char :: collapse_ws s' true
              else c :: collapse_ws s' false
          | [] => [c]
          end
      else c :: collapse_ws s' false
  end.

(** [text[i : i + n]] for [i] in [range(len(text) - n + 1)] *)
Definition char_ngrams (n : nat) (s : text) : list text :=
  if (n <=? List.length s)%nat
  then map (fun i => firstn n (skipn i s)) (seq 0 (List.length s - n + 1))
  else [].

(** [analyzer="char", ngram_range=(n, n)] *)
Definition char_analyzer (n : nat) (doc : text) : list text :=
  char_ngrams n (collapse_ws (lower doc) false).

Record CountVectorizer := {
  analyzer : text -> list text;
  binary : bool;
  vocabulary_ : list text
}.

(** The distinct terms of the documents.  (sklearn sorts them; the order
    of the columns changes no row sum and no row position.) *)
Definition build_vocabulary (an : text -> list text) (docs : list text)
  : list text :=
  nodup text_eq_dec (List.concat (map an docs)).

(** [vectorizer.fit(raw_documents)] *)
Definition fit (an : text -> list text) (bin : bool) (docs : list text)
  : outcome CountVectorizer :=
  match build_vocabulary an docs with
  | [] =>
      Raised (ValueError
        "empty vocabulary; perhaps the documents only contain stop words")
  | v => Returned {| analyzer := an; binary := bin; vocabulary_ := v |}
  end.

Definition count (t : text) (terms : list text) : Z :=
  Z.of_nat (count_occ text_eq_dec terms t).

Definition transform_one (v : CountVectorizer) (doc : text) : vector :=
  let terms := analyzer v doc in
  map (fun t =>
         let k := count t terms in
         if binary v then Z.min k 1 else k)
      (vocabulary_ v).

(** [vectorizer.transform(raw_documents)]: one row per document. *)
Definition transform (v : CountVectorizer) (docs : list text) : matrix :=
  map (transform_one v) docs.

End Sklearn.

(* ================================================================== *)
(** ** rapidfuzz: [Levenshtein.normalized_similarity], [process.extractOne] *)

Module Rapidfuzz.

Definition min3 (a b c : nat) : nat := Nat.min a (Nat.min b c).

(** One row of the Wagner-Fischer table.  [prev] is the suffix of the
    previous row starting at the diagonal neighbour, [left] the entry just
    written. *)
Fixpoint next_row (a : char) (t : text) (prev : list nat) (left : nat)
  : list nat :=
  match t, prev with
  | b :: t', diag :: ((up :: _) as prev') =>
      let v := min3 (S up) (S left)
                    (diag + if Ascii.eqb a b then 0 else 1) in
      v :: next_row a t' prev' v
  | _, _ => []
  end.

Definition step_row (t : text) (row : list nat) (a : char) : list nat :=
  let h := S (hd 0%nat row) in h :: next_row a t row h.

(** [Levenshtein.distance(s, t)] with unit weights. *)
Definition distance (s t : text) : nat :=
  last (fold_left (step_row t) s (seq 0 (S (List.length t)))) 0%nat.

(** [Levenshtein.normalized_similarity(s, t)]:
    [1 - distance / max(len(s), len(t))], and 1 for two empty texts. *)
Definition normalized_similarity (s t : text) : Q :=
  let maximum := Nat.max (List.length s) (List.length t) in
  match maximum with
  | O => 1
  | S _ =>
      Qred (1 - inject_Z (Z.of_nat (distance s t))
                / inject_Z (Z.of_nat maximum))
  end.

Fixpoint extractOne_from (scorer : text -> text -> Q) (query : text)
    (choices : list text) (key : nat) (best : option (text * Q * nat))
  : option (text * Q * nat) :=
  match choices with
  | [] => best
  | choice :: rest =>
      let score := scorer query choice in
      let best' :=
        match best with
        | None => Some (choice, score, key)
        | Some (_, result_score, _) =>
            if Qle_bool score result_score then best
            else Some (choice, score, key)
        end in
      extractOne_from scorer query rest (S key) best'
  end.

(** [process.extractOne(query, choices, scorer=..., processor=None)] with
    no cutoff: the first choice of the highest score with its score and
    key, [None] when there is no choice. *)
Definition extractOne (scorer : text -> text -> Q) (query : text)
    (choices : list text) : option (text * Q * nat) :=
  extractOne_from scorer query choices 0%nat None.

End Rapidfuzz.

(* ================================================================== *)
(** ** re: [escape], [compile], [search]

    The pattern language is modelled for literals, escapes, [.], [^], [$],
    character sets, groups, alternation and the quantifiers [*], [+], [?].
    A pattern that needs anything else ([{m,n}], [(?...)], back references,
    lazy quantifiers, [\b]) is answered with [Unmodelled]. *)

Module Re.

Inductive category := Digit | Word | Space.

Inductive item :=
| Single (c : char)
| Range (lo hi : char)
| Category (negate : bool) (k : category).

Inductive regex :=
| Eps
| Lit (c : char)
| Any
| CharSet (negate : bool) (items : list item)
| Bol
| Eol
| Cat (r1 r2 : regex)
| Alt (r1 r2 : regex)
| Star (r : regex)
| Plus (r : regex)
| Opt (r : regex)
| Grp (r : regex).

Inductive parsed :=
| Parsed (r : regex)
| Error (msg : string)      (* [re.error] *)
| Unmodelled.

(** [re.escape]: the characters of [_special_chars_map],
    [()[]{}?*+-|^$\.&~# \t\n\r\v\f], get a backslash in front. *)
Definition special_chars : text :=
  lit "()[]{}?*+-|^$\.&~# "
  ++ ["009"; "010"; "013"; "011"; "012"]%char.

Definition is_special (c : char) : bool :=
  existsb (Ascii.eqb c) special_chars.

Definition escape (pattern : text) : text :=
  flat_map (fun c => if is_special c then ["\"%char; c] else [c]) pattern.

(** *** Parsing *)

(** An open group: the alternatives already closed and the sequence
    being read, both latest first. *)
Record frame := { alts : list regex; cur : list regex }.

Definition empty_frame : frame := {| alts := []; cur := [] |}.

Definition push (r : regex) (f : frame) : frame :=
  {| alts := alts f; cur := r :: cur f |}.

Definition seq_of (items : list regex) : regex :=
  fold_left (fun acc r => Cat r acc) items Eps.

Definition close (f : frame) : regex :=
  fold_left (fun acc a => Alt a acc) (alts f) (seq_of (cur f)).

Definition is_ascii_alnum (c : char) : bool :=
  between 48 57 c || between 65 90 c || between 97 122 c.

Definition class_of (e : char) : option item :=
  if Ascii.eqb e "d" then Some (Category false Digit)
  else if Ascii.eqb e "D" then Some (Category true Digit)
  else if Ascii.eqb e "w" then Some (Category false Word)
  else if Ascii.eqb e "W" then Some (Category true Word)
  else if Ascii.eqb e "s" then Some (Category false Space)
  else if Ascii.eqb e "S" then Some (Category true Space)
  else None.

Definition control_of (e : char) : option char :=
  if Ascii.eqb e "n" then Some "010"%char
  else if Ascii.eqb e "t" then Some "009"%char
  else if Ascii.eqb e "r" then Some "013"%char
  else if Ascii.eqb e "f" then Some "012"%char
  else if Ascii.eqb e "v" then Some "011"%char
  else if Ascii.eqb e "a" then Some "007"%char
  else None.

Inductive escaped := EItem (i : item) | EError (msg : string) | EUnmodelled.

(** The character after a backslash: a class, a control character, a
    construct left out, a bad escape (an ASCII letter with no meaning), or
    the character itself. *)
Definition escape_item (e : char) : escaped :=
  match class_of e, control_of e with
  | Some i, _ => EItem i
  | None, Some c => EItem (Single c)
  | None, None =>
      if between 48 57 e
         || existsb (Ascii.eqb e) (lit "xuUNbBAZ") then EUnmodelled
      else if is_ascii_alnum e then EError "bad escape"
      else EItem (Single e)
  end.

Definition atom_of (i : item) : regex :=
  match i with
  | Single c => Lit c
  | _ => CharSet false [i]
  end.

Definition is_repeat (r : regex) : bool :=
  match r with
  | Star _ | Plus _ | Opt _ => true
  | _ => false
  end.

Definition is_anchor (r : regex) : bool :=
  match r with
  | Bol | Eol => true
  | _ => false
  end.

(** A quantifier applies to the item read last.  Directly after another
    quantifier, [?] and [+] are modifiers (lazy, possessive), left out
    here, and [*] is an error. *)
Definition quantify (q : regex -> regex) (modifier : bool) (f : frame)
  : frame + parsed :=
  match cur f with
  | [] => inr (Error "nothing to repeat")
  | a :: rest =>
      if is_anchor a then inr (Error "nothing to repeat")
      else if is_repeat a then
        inr (if modifier then Unmodelled else Error "multiple repeat")
      else inl {| alts := alts f; cur := q a :: rest |}
  end.

Inductive mode :=
| Top
| InSet (negate : bool) (items : list item).   (* latest first *)

Fixpoint parse (stack : list frame) (f : frame) (m : mode) (p : text)
  : parsed :=
  match m with
  | Top =>
      match p with
      | [] =>
          match stack with
          | [] => Parsed (close f)
          | _ :: _ => Error "missing ), unterminated subpattern"
          end
      | c :: p' =>
          if Ascii.eqb c "\" then
            match p' with
            | [] => Error "bad escape (end of pattern)"
            | e :: p'' =>
                match escape_item e with
                | EItem i => parse stack (push (atom_of i) f) Top p''
                | EError msg => Error msg
                | EUnmodelled => Unmodelled
                end
            end
          else if Ascii.eqb c "(" then
            match p' with
            | "?"%char :: _ => Unmodelled
            | _ => parse (f :: stack) empty_frame Top p'
            end
          else if Ascii.eqb c ")" then
            match stack with
            | [] => Error "unbalanced parenthesis"
            | g :: stack' => parse stack' (push (Grp (close f)) g) Top p'
            end
          else if Ascii.eqb c "|" then
            parse stack {| alts := seq_of (cur f) :: alts f; cur := [] |}
                  Top p'
          else if Ascii.eqb c "*" then
            match quantify Star false f with
            | inl f' => parse stack f' Top p'
            | inr e => e
            end
          else if Ascii.eqb c "+" then
            match quantify Plus true f with
            | inl f' => parse stack f' Top p'
            | inr e => e
            end
          else if Ascii.eqb c "?" then
            match quantify Opt true f with
            | inl f' => parse stack f' Top p'
            | inr e => e
            end
          else if Ascii.eqb c "{" then
            match p' with
            | d :: _ =>
                if between 48 57 d || Ascii.eqb d ","
                then Unmodelled
                else parse stack (push (Lit c) f) Top p'
            | [] => parse stack (push (Lit c) f) Top p'
            end
          else if Ascii.eqb c "." then parse stack (push Any f) Top p'
          else if Ascii.eqb c "^" then parse stack (push Bol f) Top p'
          else if Ascii.eqb c "$" then parse stack (push Eol f) Top p'
          else if Ascii.eqb c "[" then
            match p' with
            | "^"%char :: p'' => parse stack f (InSet true []) p''
            | _ => parse stack f (InSet false []) p'
            end
          else parse stack (push (Lit c) f) Top p'
      end
  | InSet negate items =>
      match p with
      | [] => Error "unterminated character set"
      | c :: p' =>
          if Ascii.eqb c "]" && negb (match items with [] => true | _ => false end)
          then parse stack (push (CharSet negate (rev items)) f) Top p'
          else if Ascii.eqb c "\" then
            match p' with
            | [] => Error "unterminated character set"
            | e :: p'' =>
                match escape_item e with
                | EItem i => parse stack f (InSet negate (i :: items)) p''
                | EError msg => Error msg
                | EUnmodelled => Unmodelled
                end
            end
          else
            match p' with
            | "-"%char :: d :: p'' =>
                if Ascii.eqb d "]"
                then parse stack f (InSet negate (Single c :: items)) p'
                else if Ascii.eqb d "\" then Unmodelled
                else if (code d <? code c)%N
                then Error "bad character range"
                else parse stack f (InSet negate (Range c d :: items)) p''
            | _ => parse stack f (InSet negate (Single c :: items)) p'
            end
      end
  end.

(** *** Matching *)

Definition upper_char (c : char) : char :=
  if between 97 122 c || (between 224 254 c && negb (code c =? 247)%N)
  then ascii_of_N (code c - 32) else c.

Definition in_category (k : category) (d : char) : bool :=
  match k with
  | Digit => between 48 57 d || between 178 179 d || (code d =? 185)%N
  | Word => isword d
  | Space => isspace d
  end.

Definition item_has (i : item) (d : char) : bool :=
  match i with
  | Single c => Ascii.eqb c d
  | Range lo hi => ((code lo <=? code d) && (code d <=? code hi))%N
  | Category negate k => xorb negate (in_category k d)
  end.

(** Under [IGNORECASE] a literal matches a character of the same
    lowercase form, a set matches a character whose lowercase or
    uppercase form it holds. *)
Definition lit_matches (ignorecase : bool) (c d : char) : bool :=
  if ignorecase then Ascii.eqb (lower_char c) (lower_char d)
  else Ascii.eqb c d.

Definition set_matches (ignorecase negate : bool) (items : list item)
    (d : char) : bool :=
  xorb negate
    (existsb (fun i =>
                item_has i d
                || (ignorecase
                    && (item_has i (lower_char d)
                        || item_has i (upper_char d))))
             items).

(** A position of the subject: the number of characters before it and
    the text after it. *)
Definition position := (nat * text)%type.

Definition one (ok : char -> bool) (at_ : position) : list position :=
  match snd at_ with
  | d :: s' => if ok d then [(S (fst at_), s')] else []
  | [] => []
  end.

(** [ends bound ignorecase r at_]: the positions where a match of [r]
    that starts at [at_] can end.  A starred item is repeated while it
    consumes something, at most [bound] times. *)
Fixpoint ends (bound : nat) (ignorecase : bool) (r : regex)
  : position -> list position :=
  let star (body : position -> list position) :=
    fix star (k : nat) (at_ : position) : list position :=
      at_ ::
      match k with
      | O => []
      | S k' =>
          flat_map (fun q => if (fst at_ <? fst q)%nat then star k' q else [])
                   (body at_)
      end in
  match r with
  | Eps => fun at_ => [at_]
  | Lit c => one (lit_matches ignorecase c)
  | Any => one (fun d => negb (Ascii.eqb d "010"))
  | CharSet negate items => one (set_matches ignorecase negate items)
  | Bol => fun at_ => if (fst at_ =? 0)%nat then [at_] else []
  | Eol => fun at_ =>
      match snd at_ with
      | [] => [at_]
      | [d] => if Ascii.eqb d "010" then [at_] else []
      | _ => []
      end
  | Cat r1 r2 => fun at_ =>
      flat_map (ends bound ignorecase r2) (ends bound ignorecase r1 at_)
  | Alt r1 r2 => fun at_ =>
      ends bound ignorecase r1 at_ ++ ends bound ignorecase r2 at_
  | Star r1 => star (ends bound ignorecase r1) bound
  | Plus r1 => fun at_ =>
      flat_map (star (ends bound ignorecase r1) bound)
               (ends bound ignorecase r1 at_)
  | Opt r1 => fun at_ => at_ :: ends bound ignorecase r1 at_
  | Grp r1 => ends bound ignorecase r1
  end.

Record Pattern := { expr : regex; IGNORECASE : bool }.

(** [re.compile(pattern, flags)] *)
Definition compile (pattern : text) (ignorecase : bool) : outcome Pattern :=
  match parse [] empty_frame Top pattern with
  | Parsed r => Returned {| expr := r; IGNORECASE := ignorecase |}
  | Error msg => Raised (ReError msg)
  | Unmodelled => Raised Unmodelled_construct
  end.

Fixpoint search_from (bound : nat) (p : Pattern) (n : nat) (s : text)
  : bool :=
  match ends bound (IGNORECASE p) (expr p) (n, s) with
  | _ :: _ => true
  | [] =>
      match s with
      | [] => false
      | _ :: s' => search_from bound p (S n) s'
      end
  end.

(** [pattern.search(s) is not None] *)
Definition search (p : Pattern) (s : text) : bool :=
  search_from (S (List.length s)) p 0 s.

End Re.

(* ================================================================== *)
(** ** The thread-pool loop of [perform_matching]

    All five modules share it verbatim:
<<
    futures = {executor.submit(__calculate_best_match, idx): idx for idx in indices}
    for future in as_completed(futures):
        try:
            results.append(future.result())
        except Exception as e:
            print(f"Exception occurred for index {futures[future]}: {e}")
>>
    [as_completed] yields every future once, in the order in which the
    tasks finish; that order is the scheduler's choice and is the parameter
    [completion], a permutation of [indices]. *)

Module Executor.

Section Loop.
Variable result : Type.
Variable calculate_best_match : nat -> outcome result.

(** What has been collected so far: the results appended and the lines
    printed (index and exception). *)
Record collected := {
  results : list result;
  printed : list (nat * exn)
}.

Definition iteration (acc : collected) (idx : nat) : collected :=
  match calculate_best_match idx with
  | Returned r =>
      {| results := results acc ++ [r]; printed := printed acc |}
  | Raised e =>
      {| results := results acc; printed := printed acc ++ [(idx, e)] |}
  end.

Definition perform_matching (completion : list nat) : collected :=
  fold_left iteration completion {| results := []; printed := [] |}.

End Loop.

End Executor.

(** The triple [preprocess] hands to [prep_]: the frame's index, the
    normalized series and the original series. *)
Definition prepared := (list nat * list text * list text)%type.

Definition preprocessed (col : list (option text)) : prepared :=
  let '(normalized_series, original_series) := preprocess col in
  (seq 0 (List.length original_series), normalized_series, original_series).

Definition is_empty (s : text) : bool :=
  match s with [] => true | _ :: _ => false end.

Definition no_match (match_original : text) : MatchResult :=
  {| MATCH := match_original; BEST_FOUND_MATCH := None;
     TRUE_MATCH := None; BEST_MATCH := PyNone |}.

(** [df["BEST_MATCH_BINARY"] = df["BEST_MATCH"] >= THRESHOLDS.<name>] on the
    frame [pd.DataFrame(results)], row by row.  The frame of an empty result
    list has no column, so the lookup of ["BEST_MATCH"] raises. *)
Definition classify (name : string) (df : list MatchResult)
  : outcome (list row) :=
  match df with
  | [] => Raised KeyError
  | _ :: _ =>
      match Config.get Config.THRESHOLDS name with
      | Some threshold =>
          Returned (map (fun r => (r, ge_threshold threshold (BEST_MATCH r))) df)
      | None => Raised TypeError
      end
  end.

(* ================================================================== *)
(** ** scripts/algorithms/levenshtein.py *)

Module Levenshtein.

Definition NAME : string := "levenshtein".

(** The module's globals after [prep_]. *)
Record state := {
  match_norm_series : list text;
  match_original_series : list text;
  data_norm_series : list text;
  data_original_series : list text;
  indices : list nat
}.

Definition calculate_best_match (st : state) (idx : nat)
  : outcome MatchResult :=
  match_original <- iloc (match_original_series st) idx ;;
  match_norm <- iloc (match_norm_series st) idx ;;
  let s1_clean := strip match_norm in
  if is_empty s1_clean then Returned (no_match match_original)
  else
    match Rapidfuzz.extractOne Rapidfuzz.normalized_similarity
                               s1_clean (data_norm_series st) with
    | Some (_, best_match_score, best_match_idx) =>
        best_match_original <- iloc (data_original_series st) best_match_idx ;;
        Returned {| MATCH := match_original;
                    BEST_FOUND_MATCH := Some best_match_original;
                    TRUE_MATCH := None;
                    BEST_MATCH := PyFloat best_match_score |}
    | None => Returned (no_match match_original)
    end.

Definition perform_matching (st : state) (completion : list nat) :=
  Executor.perform_matching (calculate_best_match st) completion.

Definition prep_ (data match_ : prepared) : outcome state :=
  let '(_, data_norm, data_original) := data in
  let '(match_index, match_norm, match_original) := match_ in
  Returned {| match_norm_series := match_norm;
              match_original_series := match_original;
              data_norm_series := data_norm;
              data_original_series := data_original;
              indices := match_index |}.

Definition export_results (df : list MatchResult) : outcome (list row) :=
  classify NAME df.

End Levenshtein.

(* ================================================================== *)
(** ** scripts/algorithms/jaccard.py *)

Module Jaccard.
Import Numpy Sklearn.

Definition NAME : string := "jaccard".

Record state := {
  match_norm_series : list text;
  match_original_series : list text;
  data_original_series : list text;
  data_vectors : matrix;
  vectorizer : CountVectorizer;
  indices : list nat
}.

(** The array [jaccard_similarities] of one query vector. *)
Definition jaccard_similarities (data_vectors : matrix)
    (match_vector : vector) : list Q :=
  let intersection := sum_axis1 (multiply data_vectors match_vector) in
  let union :=
    map (fun '(data_size, inter) => (data_size + sum match_vector - inter)%Z)
        (combine (sum_axis1 data_vectors) intersection) in
  map (fun '(inter, u) => nan_to_num (true_divide inter u))
      (combine intersection union).

Definition calculate_best_match (st : state) (idx : nat)
  : outcome MatchResult :=
  match_original <- iloc (match_original_series st) idx ;;
  match_norm <- iloc (match_norm_series st) idx ;;
  let s1_clean := strip match_norm in
  if is_empty s1_clean then Returned (no_match match_original)
  else
    let match_vector := transform_one (vectorizer st) s1_clean in
    let similarities := jaccard_similarities (data_vectors st) match_vector in
    max_similarity <- Numpy.max similarities ;;
    best_match_idx <- argmax similarities ;;
    best_match_original <- iloc (data_original_series st) best_match_idx ;;
    Returned {| MATCH := match_original;
                BEST_FOUND_MATCH := Some best_match_original;
                TRUE_MATCH := None;
                BEST_MATCH := PyFloat max_similarity |}.

Definition perform_matching (st : state) (completion : list nat) :=
  Executor.perform_matching (calculate_best_match st) completion.

Definition prep_ (data match_ : prepared) : outcome state :=
  let '(_, data_norm, data_original) := data in
  let '(match_index, match_norm, match_original) := match_ in
  v <- fit word_analyzer true data_norm ;;
  Returned {| match_norm_series := match_norm;
              match_original_series := match_original;
              data_original_series := data_original;
              data_vectors := transform v data_norm;
              vectorizer := v;
              indices := match_index |}.

Definition export_results (df : list MatchResult) : outcome (list row) :=
  classify NAME df.

End Jaccard.

(* ================================================================== *)
(** ** scripts/algorithms/dice.py *)

Module Dice.
Import Numpy Sklearn.

Definition NAME : string := "dice".
Definition n : nat := 2.

Record state := {
  match_ngrams_matrix : matrix;
  match_original_series : list text;
  data_ngrams_matrix : matrix;
  data_original_series : list text;
  indices : list nat
}.

Definition dice_coefficient (match_vector : vector) (data_vectors : matrix)
  : list Q :=
  let intersection := sum_axis1 (multiply data_vectors match_vector) in
  let match_size := sum match_vector in
  let data_sizes := sum_axis1 data_vectors in
  let numerator := map (Z.mul 2) intersection in
  let denominator := map (Z.add match_size) data_sizes in
  map (fun '(num, den) => nan_to_num (true_divide num den))
      (combine numerator denominator).

Definition calculate_best_match (st : state) (idx : nat)
  : outcome MatchResult :=
  match_original <- iloc (match_original_series st) idx ;;
  match_vector <- iloc (match_ngrams_matrix st) idx ;;
  if (nnz match_vector =? 0)%nat then Returned (no_match match_original)
  else
    let dice_coefficients :=
      dice_coefficient match_vector (data_ngrams_matrix st) in
    max_similarity_idx <- argmax dice_coefficients ;;
    max_similarity <- iloc dice_coefficients max_similarity_idx ;;
    best_match_original <-
      iloc (data_original_series st) max_similarity_idx ;;
    Returned {| MATCH := match_original;
                BEST_FOUND_MATCH := Some best_match_original;
                TRUE_MATCH := None;
                BEST_MATCH := PyFloat max_similarity |}.

Definition perform_matching (st : state) (completion : list nat) :=
  Executor.perform_matching (calculate_best_match st) completion.

Definition prep_ (data match_ : prepared) : outcome state :=
  let '(_, data_norm, data_original) := data in
  let '(match_index, match_norm, match_original) := match_ in
  let all_texts := data_norm ++ match_norm in
  v <- fit (char_analyzer n) false all_texts ;;
  Returned {| match_ngrams_matrix := transform v match_norm;
              match_original_series := match_original;
              data_ngrams_matrix := transform v data_norm;
              data_original_series := data_original;
              indices := match_index |}.

Definition export_results (df : list MatchResult) : outcome (list row) :=
  classify NAME df.

End Dice.

(* ================================================================== *)
(** ** scripts/algorithms/ngram.py *)

Module Ngram.
Import Numpy Sklearn.

Definition NAME : string := "ngram".
Definition n : nat := 2.

Record state := {
  match_ngrams_matrix : matrix;
  match_original_series : list text;
  data_ngrams_matrix : matrix;
  data_original_series : list text;
  indices : list nat
}.

Definition ngram_similarity (match_vector : vector) (data_vectors : matrix)
  : list Q :=
  let intersection := sum_axis1 (multiply data_vectors match_vector) in
  let match_size := sum match_vector in
  let data_sizes := sum_axis1 data_vectors in
  let union :=
    map (fun '(data_size, inter) => (match_size + data_size - inter)%Z)
        (combine data_sizes intersection) in
  map (fun '(inter, u) => nan_to_num (true_divide inter u))
      (combine intersection union).

(** The [try ... except: print(...); raise] around the body hands the
    exception on unchanged. *)
Definition calculate_best_match (st : state) (idx : nat)
  : outcome MatchResult :=
  match_original <- iloc (match_original_series st) idx ;;
  match_vector <- iloc (match_ngrams_matrix st) idx ;;
  if (nnz match_vector =? 0)%nat then Returned (no_match match_original)
  else
    let similarities :=
      ngram_similarity match_vector (data_ngrams_matrix st) in
    max_similarity_idx <- argmax similarities ;;
    max_similarity <- iloc similarities max_similarity_idx ;;
    best_match_original <-
      iloc (data_original_series st) max_similarity_idx ;;
    Returned {| MATCH := match_original;
                BEST_FOUND_MATCH := Some best_match_original;
                TRUE_MATCH := None;
                BEST_MATCH := PyFloat max_similarity |}.

Definition perform_matching (st : state) (completion : list nat) :=
  Executor.perform_matching (calculate_best_match st) completion.

Definition prep_ (data match_ : prepared) : outcome state :=
  let '(_, data_norm, data_original) := data in
  let '(match_index, match_norm, match_original) := match_ in
  let all_texts := data_norm ++ match_norm in
  v <- fit (char_analyzer n) false all_texts ;;
  Returned {| match_ngrams_matrix := transform v match_norm;
              match_original_series := match_original;
              data_ngrams_matrix := transform v data_norm;
              data_original_series := data_original;
              indices := match_index |}.

Definition export_results (df : list MatchResult) : outcome (list row) :=
  classify NAME df.

End Ngram.

(* ================================================================== *)
(** ** scripts/algorithms/regex.py *)

Module Regex.

Definition NAME : string := "regex".

Record state := {
  match_norm_series : list text;
  match_original_series : list text;
  data_norm_series : list text;
  data_original_series : list text;
  data_norm_array_lower : list text;
  indices : list nat
}.

(** [s2_series.str.contains(pattern, regex=True)] with the compiled
    pattern: [pattern.search] on every element. *)
Definition regex_matching (s1_clean : text) (s2_series : list text)
  : outcome (list bool) :=
  pattern <- Re.compile (Re.escape s1_clean) true ;;
  Returned (map (Re.search pattern) s2_series).

(** [np.char.find(s1_lower, data_norm_array_lower) >= 0] *)
Definition reverse_regex_matching (st : state) (s1_clean : text)
  : list bool :=
  let s1_lower := lower s1_clean in
  map (fun d => contains s1_lower d) (data_norm_array_lower st).

(** [series[mask]] *)
Fixpoint select {A} (series : list A) (mask : list bool) : list A :=
  match series, mask with
  | a :: series', b :: mask' =>
      if b then a :: select series' mask' else select series' mask'
  | _, _ => []
  end.

Fixpoint or_mask (a b : list bool) : list bool :=
  match a, b with
  | x :: a', y :: b' => (x || y) :: or_mask a' b'
  | _, _ => []
  end.

Definition calculate_best_match (st : state) (idx : nat)
  : outcome MatchResult :=
  match_original <- iloc (match_original_series st) idx ;;
  match_norm <- iloc (match_norm_series st) idx ;;
  let s1_clean := match_norm in
  s1_in_s2 <- regex_matching s1_clean (data_norm_series st) ;;
  let s2_in_s1 := reverse_regex_matching st s1_clean in
  let mask := or_mask s1_in_s2 s2_in_s1 in
  let matches := select (data_original_series st) mask in
  match matches with
  | best_match :: _ =>
      Returned {| MATCH := match_original;
                  BEST_FOUND_MATCH := Some best_match;
                  TRUE_MATCH := None;
                  BEST_MATCH := PyBool true |}
  | [] =>
      Returned {| MATCH := match_original;
                  BEST_FOUND_MATCH := None;
                  TRUE_MATCH := None;
                  BEST_MATCH := PyBool false |}
  end.

Definition perform_matching (st : state) (completion : list nat) :=
  Executor.perform_matching (calculate_best_match st) completion.

Definition prep_ (data match_ : prepared) : outcome state :=
  let '(_, data_norm, data_original) := data in
  let '(match_index, match_norm, match_original) := match_ in
  Returned {| match_norm_series := match_norm;
              match_original_series := match_original;
              data_norm_series := data_norm;
              data_original_series := data_original;
              data_norm_array_lower := map lower data_norm;
              indices := match_index |}.

Definition export_results (df : list MatchResult) : outcome (list row) :=
  classify NAME df.

End Regex.

(* ================================================================== *)
(** ** scripts/algorithms/tfidf.py *)

Module Tfidf.
Import Rdefinitions Raxioms RIneq R_sqrt.
Local Open Scope R_scope.

Definition NAME : string := "tfidf".

Section Weighting.
(** Modelled from the spec: the module [scripts/algorithms/tfidf.py]
    that [main.py] imports is not among the sources.  The specification
    gives it the contract of its five siblings, a TF-IDF weighted vector
    per record over a vocabulary built jointly from the corpus and the
    query set, and the cosine of two such vectors (dot product over
    product of norms, a zero denominator giving 0) as the score.  The
    vectors and their cosine are real numbers and the square root is the
    one of the reals; the score a result carries is a float, the cosine
    rounded by [fl].  The specification does not fix the term analyzer or
    the inverse-document-frequency weighting; with the rounding they are
    the parameters of this section, and the properties state what they
    assume of them. *)
Variable terms : text -> list text.
Variable idf : list text -> text -> R.
Variable fl : R -> Q.

(** Modelled from the spec: the TF-IDF weighted vector of a text, the
    count of each term of the vocabulary times its weight. *)
Definition weighted (vocabulary docs : list text) (doc : text) : list R :=
  map (fun t => IZR (Sklearn.count t (terms doc)) * idf docs t) vocabulary.

(** Modelled from the spec: the dot product and the norm. *)
Fixpoint dot (u v : list R) : R :=
  match u, v with
  | a :: u', b :: v' => a * b + dot u' v'
  | _, _ => 0
  end.

Definition norm (u : list R) : R := sqrt (dot u u).

(** Modelled from the spec: dot product over product of norms, a zero
    denominator giving 0. *)
Definition cosine (u v : list R) : R :=
  let denominator := norm u * norm v in
  if Req_dec_T denominator 0 then 0 else dot u v / denominator.

Definition cosine_similarity (u v : list R) : Q := fl (cosine u v).

Record state := {
  match_norm_series : list text;
  match_original_series : list text;
  match_vectors : list (list R);
  data_vectors : list (list R);
  data_original_series : list text;
  indices : list nat
}.

Definition similarities (st : state) (match_vector : list R) : list Q :=
  map (cosine_similarity match_vector) (data_vectors st).

(** Modelled from the spec: a query whose normalized text is empty and a
    query against an empty corpus are reported with no match; otherwise
    the first reference of the largest score. *)
Definition calculate_best_match (st : state) (idx : nat)
  : outcome MatchResult :=
  match_original <- iloc (match_original_series st) idx ;;
  match_norm <- iloc (match_norm_series st) idx ;;
  if is_empty match_norm then Returned (no_match match_original)
  else
    match_vector <- iloc (match_vectors st) idx ;;
    match similarities st match_vector with
    | [] => Returned (no_match match_original)
    | scores =>
        best_match_idx <- Numpy.argmax scores ;;
        best_match_score <- iloc scores best_match_idx ;;
        best_match_original <-
          iloc (data_original_series st) best_match_idx ;;
        Returned {| MATCH := match_original;
                    BEST_FOUND_MATCH := Some best_match_original;
                    TRUE_MATCH := None;
                    BEST_MATCH := PyFloat best_match_score |}
    end.

Definition perform_matching (st : state) (completion : list nat) :=
  Executor.perform_matching (calculate_best_match st) completion.

(** Modelled from the spec: the vocabulary is built jointly from the
    corpus and the query set. *)
Definition prep_ (data match_ : prepared) : outcome state :=
  let '(_, data_norm, data_original) := data in
  let '(match_index, match_norm, match_original) := match_ in
  let all_texts := data_norm ++ match_norm in
  let vocabulary := Sklearn.build_vocabulary terms all_texts in
  Returned {| match_norm_series := match_norm;
              match_original_series := match_original;
              match_vectors := map (weighted vocabulary all_texts) match_norm;
              data_vectors := map (weighted vocabulary all_texts) data_norm;
              data_original_series := data_original;
              indices := match_index |}.

Definition export_results (df : list MatchResult) : outcome (list row) :=
  classify NAME df.

End Weighting.

End Tfidf.

(* ================================================================== *)
(** ** main.py *)

Module Main.

(** What [main.py] uses of the module bound to [ALGORITHM]. *)
Record Algorithm := {
  NAME : string;
  state : Type;
  prep_ : prepared -> prepared -> outcome state;
  perform_matching :
    state -> list nat -> Executor.collected MatchResult;
  export_results : list MatchResult -> outcome (list row)
}.

Definition levenshtein : Algorithm :=
  {| NAME := Levenshtein.NAME;
     prep_ := Levenshtein.prep_;
     perform_matching := Levenshtein.perform_matching;
     export_results := Levenshtein.export_results |}.

Definition jaccard : Algorithm :=
  {| NAME := Jaccard.NAME;
     prep_ := Jaccard.prep_;
     perform_matching := Jaccard.perform_matching;
     export_results := Jaccard.export_results |}.

Definition dice : Algorithm :=
  {| NAME := Dice.NAME;
     prep_ := Dice.prep_;
     perform_matching := Dice.perform_matching;
     export_results := Dice.export_results |}.

Definition ngram : Algorithm :=
  {| NAME := Ngram.NAME;
     prep_ := Ngram.prep_;
     perform_matching := Ngram.perform_matching;
     export_results := Ngram.export_results |}.

Definition regex : Algorithm :=
  {| NAME := Regex.NAME;
     prep_ := Regex.prep_;
     perform_matching := Regex.perform_matching;
     export_results := Regex.export_results |}.



(** The body of the loop over the columns: preprocess both columns,
    prepare, match, build the frame from the result list as it is, and
    add the binary column.  [completion] is the order in which the tasks
    of this run finish. *)
Definition match_column (ALGORITHM : Algorithm)
    (data_col match_col : list (option text)) (completion : list nat)
  : outcome (list row) :=
  let prep_data := preprocessed data_col in
  let prep_match := preprocessed match_col in
  st <- prep_ ALGORITHM prep_data prep_match ;;
  let results :=
    Executor.results (perform_matching ALGORITHM st completion) in
  export_results ALGORITHM results.

End Main.

(* ================================================================== *)
(** ** config/dotdict.py *)

Module DotDict.

(** The names normal attribute lookup finds on an instance before
    [__getattr__] is asked: the attributes of [dict], of [object] and of the
    class itself ([dir()] of an instance under CPython 3.11; the instance
    [__dict__] stays empty, since [__setattr__] never writes to it). *)
Definition CLASS_ATTRIBUTES : list string :=
  [ "__class__"; "__class_getitem__"; "__contains__"; "__delattr__";
    "__delitem__"; "__dict__"; "__dir__"; "__doc__"; "__eq__"; "__format__";
    "__ge__"; "__getattr__"; "__getattribute__"; "__getitem__";
    "__getstate__"; "__gt__"; "__hash__"; "__init__"; "__init_subclass__";
    "__ior__"; "__iter__"; "__le__"; "__len__"; "__lt__"; "__module__";
    "__ne__"; "__new__"; "__or__"; "__reduce__"; "__reduce_ex__"; "__repr__";
    "__reversed__"; "__ror__"; "__setattr__"; "__setitem__"; "__sizeof__";
    "__str__"; "__subclasshook__"; "__weakref__"; "clear"; "copy";
    "fromkeys"; "get"; "items"; "keys"; "pop"; "popitem"; "setdefault";
    "update"; "values" ]%string.

Definition class_attribute (name : string) : bool :=
  existsb (String.eqb name) CLASS_ATTRIBUTES.

Section Dict.
Variable V : Type.

(** A stored value: [None] is Python's [None], which a dict can hold. *)
Definition value := option V.

(** A [dict] with string keys: its items in insertion order, every key
    once. *)
Definition dict := list (string * value).

Definition keys (d : dict) : list string := map fst d.

(** [d[name]] where the key exists. *)
Fixpoint lookup (d : dict) (name : string) : option value :=
  match d with
  | [] => None
  | (k, v) :: d' => if String.eqb k name then Some v else lookup d' name
  end.

(** [dict.get(name)]: the stored value, or [None] for a name that is no
    key. *)
Definition get (d : dict) (name : string) : value :=
  match lookup d name with
  | Some v => v
  | None => None
  end.

(** What the expression [d.name] evaluates to. *)
Inductive attribute :=
| ClassAttribute (name : string)
| Item (v : value).

(** [d.name] with [__getattr__ = dict.get]: Python calls [__getattr__]
    only when normal lookup fails, so a name of the class reads as the
    attribute of the class (the bound method [d.items], say), whatever the
    dict holds; any other name reads as [dict.get(name)]. *)
Definition getattr (d : dict) (name : string) : attribute :=
  if class_attribute name then ClassAttribute name else Item (get d name).

(** [d.name = value] with [__setattr__ = dict.__setitem__], for every
    name: an existing key keeps its place, a new one goes to the end. *)
Fixpoint setattr (d : dict) (name : string) (v : value) : dict :=
  match d with
  | [] => [(name, v)]
  | (k, w) :: d' =>
      if String.eqb k name then (k, v) :: d'
      else (k, w) :: setattr d' name v
  end.

(** [del d.name] with [__delattr__ = dict.__delitem__], for every name:
    raises [KeyError] for a name that is no key. *)
Fixpoint delattr (d : dict) (name : string) : outcome dict :=
  match d with
  | [] => Raised KeyError
  | (k, v) :: d' =>
      if String.eqb k name then Returned d'
      else d'' <- delattr d' name ;; Returned ((k, v) :: d'')
  end.

End Dict.

Arguments ClassAttribute {V} name.
Arguments Item {V} v.

End DotDict.

(* ================================================================== *)
(** ** utils/io.py and scripts/evaluation.py: the column names *)

Module Io.

(** The assignment [df.columns = ["MATCH", *[f"{algorithm}_{col}" for col in
    df.columns][1:]]] of [export_data_for_validation]: pandas raises when
    the new list and the frame differ in length. *)
Definition export_columns (algorithm : string) (columns : list string)
  : outcome (list string) :=
  let renamed :=
    "MATCH"%string
    :: tl (map (fun col => (algorithm ++ "_" ++ col)%string) columns) in
  if (List.length renamed =? List.length columns)%nat then Returned renamed
  else Raised (ValueError "Length mismatch").

(** The keys of the dictionary [__calculate_best_match] returns, in order,
    and the column [export_results] adds. *)
Definition RESULT_COLUMNS : list string :=
  [ "MATCH"; "BEST_FOUND_MATCH"; "TRUE_MATCH"; "BEST_MATCH";
    "BEST_MATCH_BINARY" ]%string.

(** The tag each module's [export_results] passes as [algorithm]. *)
Definition EXPORT_TAGS : list (string * string) :=
  [ (Levenshtein.NAME, "LEVENSHTEIN"); (Jaccard.NAME, "JACCARD");
    (Dice.NAME, "DICE"); (Ngram.NAME, "NGRAM");
    (Regex.NAME, "REGEX") ]%string.

End Io.

Module Evaluation.

(** [str.upper] on an ASCII name. *)
Definition upper_ascii (c : ascii) : ascii :=
  if between 97 122 c then ascii_of_N (code c - 32) else c.

Fixpoint upper (s : string) : string :=
  match s with
  | EmptyString => EmptyString
  | String c s' => String (upper_ascii c) (upper s')
  end.

(** [y_true_col] and [y_pred_col] of the loop over [THRESHOLDS]. *)
Definition y_true_col (algo : string) : string :=
  (upper algo ++ "_TRUE_MATCH")%string.

Definition y_pred_col (algo : string) : string :=
  (upper algo ++ "_BEST_MATCH_BINARY")%string.

End Evaluation.

(* ================================================================== *)
(** ** Predicates of the statements *)

(** The four letters [MUTATION_TRANSLATION] rewrites. *)
Definition mutated_letters : text := [a_uml; o_uml; u_uml; sz].

(** Their capital forms in the block (the sharp s has none), which
    [str.lower] turns into them. *)
Definition O_uml : char := "214"%char.   (* U+00D6 *)
Definition U_uml : char := "220"%char.   (* U+00DC *)
Definition capital_mutated_letters : text := [A_uml; O_uml; U_uml].

Definition free_of (letters s : text) : bool :=
  forallb (fun c => negb (existsb (Ascii.eqb c) letters)) s.

(** Case-insensitive containment, stated without any pattern: some suffix
    of [s] starts with [sub] up to the case of each character. *)
Fixpoint startswith_ci (s sub : text) : bool :=
  match sub, s with
  | [], _ => true
  | a :: sub', b :: s' =>
      Ascii.eqb (lower_char a) (lower_char b) && startswith_ci s' sub'
  | _ :: _, [] => false
  end.

Fixpoint contains_ci (s sub : text) : bool :=
  startswith_ci s sub ||
  match s with
  | [] => false
  | _ :: s' => contains_ci s' sub
  end.

(** The pattern a text denotes when every character stands for itself. *)
Definition literal (q : text) : Re.regex :=
  fold_right (fun c r => Re.Cat (Re.Lit c) r) Re.Eps q.

(** The results a task list yields when every task is taken in the given
    order and the raising ones are left out. *)
Definition returned_of {A} (calc : nat -> outcome A) (order : list nat)
  : list A :=
  flat_map (fun idx => match calc idx with
                       | Returned r => [r]
                       | Raised _ => []
                       end) order.

Definition task_returns {A} (calc : nat -> outcome A) (idx : nat) : bool :=
  returned (calc idx).

Definition task_raises {A} (calc : nat -> outcome A) (idx : nat) : bool :=
  negb (returned (calc idx)).

Definition raised_of {A} (calc : nat -> outcome A) (order : list nat)
  : list (nat * exn) :=
  flat_map (fun idx => match calc idx with
                       | Returned _ => []
                       | Raised e => [(idx, e)]
                       end) order.

Import Re.

(** Case analysis over the 256 characters. *)
Ltac each_char c :=
  destruct c as [[] [] [] [] [] [] [] []].

(** The frame after reading the characters of [q] as literals. *)
Definition push_literals (q : text) (f : frame) : frame :=
  fold_left (fun g c => push (Lit c) g) q f.

(** The closed interval a similarity score is meant to lie in. *)
Definition unit_interval (s : Q) : Prop := (0 <= s <= 1)%Q.

(** A row of a matrix built with [binary=True]. *)
Definition binary_vector (v : Numpy.vector) : Prop :=
  Forall (fun x => x = 0%Z \/ x = 1%Z) v.

(** An entry of row [i] of the table at column [j0 + k] is at most
    [max i (j0 + k)]. *)
Definition row_bounded (i j0 : nat) (row : list nat) : Prop :=
  forall k x, nth_error row k = Some x -> (x <= Nat.max i (j0 + k))%nat.

(** The exception of [CountVectorizer.fit] on documents without a term. *)
Definition empty_vocabulary : exn :=
  ValueError "empty vocabulary; perhaps the documents only contain stop words".

(** The state [Dice.prep_] builds from an empty reference corpus and the
    queries ["ab"] and [""]: the only bigram is ["ab"], and the matrix of
    the corpus has no row. *)
Definition dice_state_without_corpus : Dice.state :=
  {| Dice.match_ngrams_matrix := [[1%Z]; [0%Z]];
     Dice.match_original_series := [lit "ab"; []];
     Dice.data_ngrams_matrix := [];
     Dice.data_original_series := [];
     Dice.indices := [0; 1]%nat |}.

(** The texts of the scenarios. *)
Definition Schlossstrasse : text := lit "Schlossstrasse".
Definition Goethestrasse : text := lit "Goethestrasse".
Definition Schlossstr : text := lit "Schlossstr.".
Definition Hauptstrasse_1 : text := lit "Hauptstra" ++ [sz] ++ lit "e 1".
Definition Hauptstrasse_Eins : text := lit "Hauptstrasse Eins".
Definition Muellerweg : text := lit "M" ++ [u_uml] ++ lit "llerweg".

(** The edit distance by its recurrence on the first characters: drop a
    character of either text, or pair the two first characters. *)
Fixpoint edit_distance (s t : text) : nat :=
  match s with
  | [] => List.length t
  | a :: s' =>
      (fix inner (t : text) : nat :=
         match t with
         | [] => List.length s
         | b :: t' =>
             Rapidfuzz.min3 (S (edit_distance s' t)) (S (inner t'))
               (edit_distance s' t' + if Ascii.eqb a b then 0 else 1)
         end) t
  end.

(** The proper extensions of the prefix [t1] by the characters of [t2],
    shortest first. *)
Fixpoint longer_prefixes (t1 t2 : text) : list text :=
  match t2 with
  | [] => []
  | b :: t2' => (t1 ++ [b]) :: longer_prefixes (t1 ++ [b]) t2'
  end.

(** The first reference whose normalized text satisfies [hit], by its
    original text. *)
Fixpoint first_hit (hit : text -> bool) (originals : list text) : option text :=
  match originals with
  | [] => None
  | o :: originals' =>
      if hit (normalize_text o) then Some o else first_hit hit originals'
  end.

(** The containment test of the regex module between a normalized query
    and a normalized reference, stated without patterns. *)
Definition contains_either (q d : text) : bool :=
  contains_ci d q || contains_ci q d.

Definition is_some {A} (o : option A) : bool :=
  match o with Some _ => true | None => false end.

(** The result of a task, for a task known to return. *)
Definition result_of (calc : nat -> outcome MatchResult) (idx : nat)
  : MatchResult :=
  match calc idx with
  | Returned r => r
  | Raised _ => no_match []
  end.

(** The body that [__calculate_best_match] of the Dice and of the n-gram
    module share, with the similarity function as a parameter. *)
Definition bigram_task (similarity : Numpy.vector -> Numpy.matrix -> list Q)
    (match_original_series : list text)
    (match_ngrams_matrix data_ngrams_matrix : Numpy.matrix)
    (data_original_series : list text) (idx : nat) : outcome MatchResult :=
  match_original <- iloc match_original_series idx ;;
  match_vector <- iloc match_ngrams_matrix idx ;;
  if (Numpy.nnz match_vector =? 0)%nat
  then Returned (no_match match_original)
  else
    let similarities := similarity match_vector data_ngrams_matrix in
    max_similarity_idx <- Numpy.argmax similarities ;;
    max_similarity <- iloc similarities max_similarity_idx ;;
    best_match_original <- iloc data_original_series max_similarity_idx ;;
    Returned {| MATCH := match_original;
                BEST_FOUND_MATCH := Some best_match_original;
                TRUE_MATCH := None;
                BEST_MATCH := PyFloat max_similarity |}.

(** [ValueError] of [argmax()] on an empty array. *)
Definition empty_argmax : exn :=
  ValueError "attempt to get argmax of an empty sequence".

(** A vector without a negative entry. *)
Definition count_vector (v : Numpy.vector) : Prop :=
  Forall (fun x => (0 <= x)%Z) v.

(** The result of the containment module for a query, by the first
    reference it hits. *)
Definition regex_result (data_col : list (option text)) (orig : text)
  : MatchResult :=
  let hit := first_hit (contains_either (normalize_text orig)) (fillna data_col) in
  {| MATCH := orig; BEST_FOUND_MATCH := hit; TRUE_MATCH := None;
     BEST_MATCH := PyBool (is_some hit) |}.

(** The state [Jaccard.prep_] builds from the references "Goethe Weg",
    "Am Markt", "Markt" and the query "Am Markt 5". *)
Definition jaccard_markt_state : Jaccard.state :=
  {| Jaccard.match_norm_series := [lit "am markt 5"];
     Jaccard.match_original_series := [lit "Am Markt 5"];
     Jaccard.data_original_series :=
       [lit "Goethe Weg"; lit "Am Markt"; lit "Markt"];
     Jaccard.data_vectors :=
       [[1; 1; 0; 0]; [0; 0; 1; 1]; [0; 0; 0; 1]]%Z;
     Jaccard.vectorizer :=
       {| Sklearn.analyzer := Sklearn.word_analyzer;
          Sklearn.binary := true;
          Sklearn.vocabulary_ :=
            [lit "goethe"; lit "weg"; lit "am"; lit "markt"] |};
     Jaccard.indices := [0%nat] |}.

(** A [DotDict] with a key that is also a name of the class, and a stored
    [None]. *)
Definition dotdict_example : DotDict.dict Q :=
  [ ("regex", Some (1 # 2)); ("items", Some (4 # 5)); ("dice", None) ]%string.

(** What a row says of the query at position [idx]: it carries the original
    text of that query and no ground truth; its best match is the original
    text of a reference, with a score, or is absent, with no score or the
    score [False]. *)
Definition reports (match_original data_original : list text) (idx : nat)
    (r : MatchResult) : Prop :=
  nth_error match_original idx = Some (MATCH r)
  /\ TRUE_MATCH r = None
  /\ match BEST_FOUND_MATCH r with
     | Some best => In best data_original /\ BEST_MATCH r <> PyNone
     | None => BEST_MATCH r = PyNone \/ BEST_MATCH r = PyBool false
     end.

(** A module of [scripts/algorithms/] among the sources: what [main.py]
    uses of it, and the function its [perform_matching] submits for every
    index. *)
Record source_module := {
  algorithm : Main.Algorithm;
  task : Main.state algorithm -> nat -> outcome MatchResult
}.

Definition dice_module : source_module :=
  {| algorithm := Main.dice; task := Dice.calculate_best_match |}.

Definition jaccard_module : source_module :=
  {| algorithm := Main.jaccard; task := Jaccard.calculate_best_match |}.

Definition levenshtein_module : source_module :=
  {| algorithm := Main.levenshtein; task := Levenshtein.calculate_best_match |}.

Definition ngram_module : source_module :=
  {| algorithm := Main.ngram; task := Ngram.calculate_best_match |}.

Definition regex_module : source_module :=
  {| algorithm := Main.regex; task := Regex.calculate_best_match |}.

Definition SOURCE_MODULES : list source_module :=
  [ dice_module; jaccard_module; levenshtein_module; ngram_module;
    regex_module ].

(** [classify] with the threshold looked up. *)
Definition classified (threshold : Q) (df : list MatchResult) : list row :=
  map (fun r => (r, ge_threshold threshold (BEST_MATCH r))) df.









(* ================================================================== *)
(** * Properties *)

(** ** Text *)

Example distance_kitten :
  Rapidfuzz.distance (lit "kitten") (lit "sitting") = 3%nat
  /\ Rapidfuzz.distance (lit "sitting") (lit "kitten") = 3%nat
  /\ Rapidfuzz.distance (lit "flaw") (lit "lawn") = 2%nat
  /\ Rapidfuzz.distance [] (lit "abc") = 3%nat
  /\ Rapidfuzz.distance (lit "abc") [] = 3%nat.
Proof. repeat split. Qed.

(** The code points [re.escape] puts a backslash before. *)
Example special_chars_codes :
  filter Re.is_special (map ascii_of_nat (seq 0 256))
  = map ascii_of_nat
      [9; 10; 11; 12; 13; 32; 35; 36; 38; 40; 41; 42; 43; 45; 46; 63;
       91; 92; 93; 94; 123; 124; 125; 126]%nat.
Proof. vm_compute. reflexivity. Qed.

Lemma lower_char_idem (c : char) : lower_char (lower_char c) = lower_char c.
Proof. each_char c; reflexivity. Qed.

Lemma startswith_incl (p s : text) :
  startswith s p = true -> incl p s.
Proof.
  revert s; induction p as [|a p IH]; intros s H.
  - intros x [].
  - destruct s as [|b s]; simpl in H; [discriminate|].
    apply andb_true_iff in H as [Hab Hrest].
    apply Ascii.eqb_eq in Hab; subst b.
    intros x [->|Hx]; [now left|right; now apply (IH s)].
Qed.

Lemma sub_from_absent (pat rep s : text) (c : char) :
  In c pat -> ~ In c s -> sub_from pat rep s 0 = s.
Proof.
  intros Hpat; induction s as [|d s IH]; intros Hs; [reflexivity|].
  cbn [sub_from].
  destruct (startswith (d :: s) pat) eqn:E.
  - exfalso; apply Hs; exact (startswith_incl _ _ E c Hpat).
  - f_equal; apply IH; intros Hin; apply Hs; now right.
Qed.

Lemma re_sub_literal_absent (pat rep s : text) (c : char) :
  In c pat -> ~ In c s -> re_sub_literal pat rep s = s.
Proof.
  intros Hpat Hs; destruct pat; [destruct Hpat|].
  now apply (sub_from_absent _ rep _ c).
Qed.

Lemma lstrip_incl (s : text) : incl (lstrip s) s.
Proof.
  induction s as [|c s IH]; simpl; [easy|].
  destruct (isspace c); [|easy].
  intros x Hx; right; now apply IH.
Qed.

Lemma strip_incl (s : text) : incl (strip s) s.
Proof.
  unfold strip, rstrip; intros x Hx.
  apply in_rev, lstrip_incl, in_rev in Hx.
  now apply lstrip_incl.
Qed.

(** Every character of a normalized text is its own lowercase form and
    passes the last substitution. *)
Lemma normalize_text_chars (x : text) (c : char) :
  In c (normalize_text x) -> lower_char c = c /\ kept c = true.
Proof.
  unfold normalize_text; intros H.
  apply filter_In in H as [H Hk]; split; [|exact Hk].
  apply strip_incl in H.
  unfold lower in H; apply in_map_iff in H as (d & <- & _).
  apply lower_char_idem.
Qed.

Lemma free_of_spec (letters s : text) (c : char) :
  free_of letters s = true -> In c letters -> ~ In c s.
Proof.
  unfold free_of; intros H Hl Hs.
  rewrite forallb_forall in H; specialize (H c Hs).
  apply negb_true_iff in H.
  assert (existsb (Ascii.eqb c) letters = true); [|congruence].
  apply existsb_exists; exists c; split; [exact Hl|apply Ascii.eqb_refl].
Qed.

Lemma map_fixed {A} (f : A -> A) (l : list A) :
  (forall a, In a l -> f a = a) -> map f l = l.
Proof.
  induction l as [|a l IH]; intros H; simpl; [reflexivity|].
  rewrite H by now left. f_equal; apply IH; intros; apply H; now right.
Qed.

Lemma filter_all {A} (f : A -> bool) (l : list A) :
  (forall a, In a l -> f a = true) -> filter f l = l.
Proof.
  induction l as [|a l IH]; intros H; simpl; [reflexivity|].
  rewrite H by now left. f_equal; apply IH; intros; apply H; now right.
Qed.

Lemma normalize_text_settled (y : text) :
  (forall c, In c y -> lower_char c = c /\ kept c = true) ->
  strip y = y ->
  free_of mutated_letters y = true ->
  normalize_text y = y.
Proof.
  intros Hy Hstrip Hfree.
  assert (Hno : forall c, In c mutated_letters -> ~ In c y)
    by (intros c; now apply free_of_spec).
  unfold normalize_text.
  assert (Hrep : fold_left (fun s kv => re_sub_literal (fst kv) (snd kv) s)
                           replacements y = y).
  { unfold replacements, Translations.ABBREVIATION_TRANSLATION,
      Translations.MUTATION_TRANSLATION; cbn [app fold_left fst snd].
    rewrite (re_sub_literal_absent _ _ y sz); [|cbn; tauto|apply Hno; cbn; tauto].
    rewrite (re_sub_literal_absent _ _ y sz); [|cbn; tauto|apply Hno; cbn; tauto].
    rewrite (re_sub_literal_absent _ _ y a_uml); [|cbn; tauto|apply Hno; cbn; tauto].
    rewrite (re_sub_literal_absent _ _ y o_uml); [|cbn; tauto|apply Hno; cbn; tauto].
    rewrite (re_sub_literal_absent _ _ y u_uml); [|cbn; tauto|apply Hno; cbn; tauto].
    rewrite (re_sub_literal_absent _ _ y sz); [|cbn; tauto|apply Hno; cbn; tauto].
    reflexivity. }
  rewrite Hrep.
  unfold lower; rewrite (map_fixed lower_char y) by (intros c Hc; apply Hy, Hc).
  rewrite Hstrip.
  apply filter_all; intros c Hc; apply Hy, Hc.
Qed.

(** What a substitution leaves: characters of the replacement or of the
    text, and no occurrence of a one-character pattern. *)
Lemma sub_from_incl (pat rep : text) (c : char) : forall s skip,
  In c (sub_from pat rep s skip) -> In c rep \/ In c s.
Proof.
  induction s as [|d s IH]; intros skip H; cbn [sub_from] in H; [destruct H|].
  destruct skip as [|k].
  - destruct (startswith (d :: s) pat).
    + apply in_app_or in H as [H|H]; [now left|].
      apply IH in H as [H|H]; [now left|right; now right].
    + destruct H as [->|H]; [right; now left|].
      apply IH in H as [H|H]; [now left|right; now right].
  - apply IH in H as [H|H]; [now left|right; now right].
Qed.

Lemma re_sub_literal_keeps_absent (pat rep s : text) (c : char) :
  ~ In c rep -> ~ In c s -> ~ In c (re_sub_literal pat rep s).
Proof.
  intros Hrep Hs H. destruct pat; [now apply Hs|].
  apply sub_from_incl in H as [H|H]; [now apply Hrep|now apply Hs].
Qed.

Lemma re_sub_literal_removes (m : char) (rep s : text) :
  ~ In m rep -> ~ In m (re_sub_literal [m] rep s).
Proof.
  intros Hrep. cbn [re_sub_literal].
  induction s as [|d s IH]; cbn [sub_from]; [easy|].
  cbn [startswith List.length Nat.sub].
  destruct (Ascii.eqb m d) eqn:E; cbn [andb].
  - replace (startswith s []) with true by (now destruct s).
    intros H. apply in_app_or in H as [H|H]; [now apply Hrep|now apply IH].
  - intros [->|H]; [now rewrite Ascii.eqb_refl in E|now apply IH].
Qed.

Lemma lower_char_mutated (c : char) :
  existsb (Ascii.eqb (lower_char c)) mutated_letters = true ->
  existsb (Ascii.eqb c) (mutated_letters ++ capital_mutated_letters) = true.
Proof. each_char c; intros H; try discriminate H; reflexivity. Qed.

Lemma lower_fixed_not_capital (c : char) :
  lower_char c = c -> ~ In c capital_mutated_letters.
Proof.
  intros H [<-|[<-|[<-|[]]]]; vm_compute in H; discriminate H.
Qed.

(** The replacement step leaves none of the four letters, and none of
    their capitals when the text had none. *)
Lemma replacements_clear (y : text) (c : char) :
  (forall d, In d capital_mutated_letters -> ~ In d y) ->
  In c (mutated_letters ++ capital_mutated_letters) ->
  ~ In c (fold_left (fun s kv => re_sub_literal (fst kv) (snd kv) s)
                    replacements y).
Proof.
  intros Hcap Hc.
  unfold replacements, Translations.ABBREVIATION_TRANSLATION,
    Translations.MUTATION_TRANSLATION; cbn [app fold_left fst snd].
  assert (Ha : forall s, ~ In a_uml (re_sub_literal [a_uml] (lit "ae") s))
    by (intros s; apply re_sub_literal_removes; vm_compute; intuition discriminate).
  assert (Ho : forall s, ~ In o_uml (re_sub_literal [o_uml] (lit "oe") s))
    by (intros s; apply re_sub_literal_removes; vm_compute; intuition discriminate).
  assert (Hu : forall s, ~ In u_uml (re_sub_literal [u_uml] (lit "ue") s))
    by (intros s; apply re_sub_literal_removes; vm_compute; intuition discriminate).
  assert (Hs : forall s, ~ In sz (re_sub_literal [sz] (lit "ss") s))
    by (intros s; apply re_sub_literal_removes; vm_compute; intuition discriminate).
  cbn [mutated_letters capital_mutated_letters app In] in Hc.
  destruct Hc as [<-|[<-|[<-|[<-|Hc]]]].
  - repeat (first [apply Ha
                  |apply re_sub_literal_keeps_absent;
                   [vm_compute; intuition discriminate|]]).
  - repeat (first [apply Ho
                  |apply re_sub_literal_keeps_absent;
                   [vm_compute; intuition discriminate|]]).
  - repeat (first [apply Hu
                  |apply re_sub_literal_keeps_absent;
                   [vm_compute; intuition discriminate|]]).
  - apply Hs.
  - assert (Hy : ~ In c y) by (apply Hcap; cbn; tauto).
    destruct Hc as [<-|[<-|[<-|[]]]];
      repeat (apply re_sub_literal_keeps_absent;
              [vm_compute; intuition discriminate|]); exact Hy.
Qed.

Lemma normalize_text_clear (y : text) :
  (forall c, In c y -> lower_char c = c) ->
  free_of mutated_letters (normalize_text y) = true.
Proof.
  intros Hy. unfold free_of. apply forallb_forall. intros c Hc.
  apply negb_true_iff. destruct (existsb _ _) eqn:E; [exfalso|reflexivity].
  unfold normalize_text in Hc. apply filter_In in Hc as [Hc _].
  apply strip_incl in Hc. unfold lower in Hc.
  apply in_map_iff in Hc as (d & <- & Hd).
  rewrite existsb_exists in E. destruct E as (m & Hm & Em).
  apply Ascii.eqb_eq in Em. 
  assert (Hb : existsb (Ascii.eqb d)
                 (mutated_letters ++ capital_mutated_letters) = true).
  { apply lower_char_mutated. apply existsb_exists. exists m.
    split; [exact Hm|]. rewrite Em. apply Ascii.eqb_refl. }
  apply existsb_exists in Hb as (b & Hb & Eb).
  apply Ascii.eqb_eq in Eb; subst b.
  revert Hd. apply replacements_clear; [|exact Hb].
  intros e He Hin. apply (lower_fixed_not_capital (Hy e Hin) He).
Qed.

Lemma lstrip_length (s : text) : (List.length (lstrip s) <= List.length s)%nat.
Proof.
  induction s as [|c s IH]; cbn [lstrip]; [lia|].
  destruct (isspace c); cbn [List.length]; lia.
Qed.

Lemma lstrip_same_length (s : text) :
  List.length (lstrip s) = List.length s -> lstrip s = s.
Proof.
  destruct s as [|c s]; [reflexivity|]. cbn [lstrip].
  destruct (isspace c); [|reflexivity].
  intros H. pose proof (lstrip_length s). cbn [List.length] in H. lia.
Qed.

Lemma strip_same_length (s : text) :
  (List.length s <= List.length (strip s))%nat -> strip s = s.
Proof.
  unfold strip, rstrip. rewrite length_rev. intros H.
  pose proof (lstrip_length (rev (lstrip s))) as H1.
  pose proof (lstrip_length s) as H2. rewrite length_rev in H1.
  assert (Hl : lstrip s = s) by (apply lstrip_same_length; lia).
  rewrite Hl in *. rewrite lstrip_same_length by (rewrite length_rev in *; lia).
  apply rev_involutive.
Qed.

Lemma filter_length_le {A} (f : A -> bool) (l : list A) :
  (List.length (filter f l) <= List.length l)%nat.
Proof.
  induction l as [|a l IH]; cbn [filter]; [lia|].
  destruct (f a); cbn [List.length]; lia.
Qed.

(** A text that normalization leaves unchanged is settled. *)
Lemma normalize_text_fixed_settled (y : text) :
  normalize_text y = y ->
  strip y = y /\ free_of mutated_letters y = true.
Proof.
  intros H.
  assert (Hy : forall c, In c y -> lower_char c = c /\ kept c = true)
    by (intros c Hc; apply (normalize_text_chars y); now rewrite H).
  assert (Hfree : free_of mutated_letters y = true).
  { rewrite <- H. apply normalize_text_clear. intros c Hc. now apply Hy. }
  split; [|exact Hfree].
  assert (Hno : forall c, In c mutated_letters -> ~ In c y)
    by (intros c; now apply free_of_spec).
  assert (Hrep : fold_left (fun s kv => re_sub_literal (fst kv) (snd kv) s)
                           replacements y = y).
  { unfold replacements, Translations.ABBREVIATION_TRANSLATION,
      Translations.MUTATION_TRANSLATION; cbn [app fold_left fst snd].
    rewrite (re_sub_literal_absent _ _ y sz); [|cbn; tauto|apply Hno; cbn; tauto].
    rewrite (re_sub_literal_absent _ _ y sz); [|cbn; tauto|apply Hno; cbn; tauto].
    rewrite (re_sub_literal_absent _ _ y a_uml); [|cbn; tauto|apply Hno; cbn; tauto].
    rewrite (re_sub_literal_absent _ _ y o_uml); [|cbn; tauto|apply Hno; cbn; tauto].
    rewrite (re_sub_literal_absent _ _ y u_uml); [|cbn; tauto|apply Hno; cbn; tauto].
    rewrite (re_sub_literal_absent _ _ y sz); [|cbn; tauto|apply Hno; cbn; tauto].
    reflexivity. }
  unfold normalize_text in H. rewrite Hrep in H.
  unfold lower in H. rewrite (map_fixed lower_char y) in H
    by (intros c Hc; apply Hy, Hc).
  apply strip_same_length.
  pose proof (filter_length_le kept (strip y)) as Hlen.
  rewrite H in Hlen. exact Hlen.
Qed.

(** C5, as the code has it: a second normalization changes nothing exactly
    when the first one left no leading or trailing whitespace and none of
    the letters a-umlaut, o-umlaut, u-umlaut and sharp s. *)
Theorem normalize_text_idempotent_on_settled (x : text) :
  normalize_text (normalize_text x) = normalize_text x
  <-> strip (normalize_text x) = normalize_text x
      /\ free_of mutated_letters (normalize_text x) = true.
Proof.
  split.
  - apply normalize_text_fixed_settled.
  - intros [Hstrip Hfree]. apply normalize_text_settled; trivial.
    intros c. apply normalize_text_chars.
Qed.

Lemma normalize_text_idempotent_on_settled_witness :
  let x := lit "Dr. M" ++ [u_uml] ++ lit "ller-Stra" ++ [sz] ++ lit "e 123" in
  normalize_text x = lit "dr muellerstr 123"
  /\ normalize_text (normalize_text x) = normalize_text x.
Proof.
  split; [vm_compute; reflexivity|].
  apply normalize_text_idempotent_on_settled; split; vm_compute; reflexivity.
Defined.

(** C5, as stated, fails: the capital A-umlaut is lowercased after the
    replacement step, so the first pass leaves an a-umlaut for the second
    pass to rewrite. *)
Lemma normalize_text_not_idempotent :
  normalize_text [A_uml] = [a_uml]
  /\ normalize_text (normalize_text [A_uml]) = lit "ae"
  /\ ~ (forall x : text, normalize_text (normalize_text x) = normalize_text x).
Proof.
  split; [vm_compute; reflexivity|].
  split; [vm_compute; reflexivity|].
  intros H; specialize (H [A_uml]); vm_compute in H; discriminate H.
Qed.

(** The same failure from the order of [strip] and the removal of
    punctuation: the space after a leading full stop survives the first
    pass. *)
Example normalize_text_leading_punctuation :
  normalize_text (lit ". a") = lit " a"
  /\ normalize_text (lit " a") = lit "a".
Proof. split; vm_compute; reflexivity. Qed.

(** ** The containment algorithm's pattern *)

(** The model's pattern language is not the literal one: a dot matches any
    character and an open parenthesis alone does not compile. *)
Example unescaped_metacharacters :
  (exists p, compile (lit "a.c") true = Returned p
             /\ search p (lit "xABCx") = true)
  /\ compile (lit "(") true
     = Raised (ReError "missing ), unterminated subpattern")
  /\ compile (lit "*a") true = Raised (ReError "nothing to repeat").
Proof.
  split; [eexists; split; reflexivity|].
  split; reflexivity.
Qed.

Lemma parse_ordinary (c : char) stack f p :
  is_special c = false ->
  parse stack f Top (c :: p) = parse stack (push (Lit c) f) Top p.
Proof. each_char c; intros H; try discriminate H; reflexivity. Qed.

Lemma parse_escaped (c : char) stack f p :
  is_special c = true ->
  parse stack f Top ("\"%char :: c :: p) = parse stack (push (Lit c) f) Top p.
Proof. each_char c; intros H; try discriminate H; reflexivity. Qed.

Lemma parse_escape (q : text) : forall stack f p,
  parse stack f Top (escape q ++ p) = parse stack (push_literals q f) Top p.
Proof.
  induction q as [|c q IH]; intros stack f p; [reflexivity|].
  unfold escape; cbn [flat_map]; fold (escape q).
  destruct (is_special c) eqn:E; cbn [app].
  - rewrite parse_escaped by exact E. apply IH.
  - rewrite parse_ordinary by exact E. apply IH.
Qed.

Lemma push_literals_frame (q : text) : forall f,
  alts (push_literals q f) = alts f
  /\ cur (push_literals q f) = rev (map Lit q) ++ cur f.
Proof.
  induction q as [|c q IH]; intros f; [split; reflexivity|].
  cbn [push_literals fold_left]; fold (push_literals q (push (Lit c) f)).
  destruct (IH (push (Lit c) f)) as [Ha Hc]; split.
  - rewrite Ha; reflexivity.
  - rewrite Hc; cbn [map rev push cur]. now rewrite <- app_assoc.
Qed.

Lemma seq_of_rev_literals (q : text) : seq_of (rev (map Lit q)) = literal q.
Proof.
  induction q as [|c q IH]; [reflexivity|].
  cbn [map rev]; unfold seq_of in *.
  rewrite fold_left_app; cbn [fold_left]. now rewrite IH.
Qed.

Lemma parse_escape_literal (q : text) :
  parse [] empty_frame Top (escape q) = Parsed (literal q).
Proof.
  rewrite <- (app_nil_r (escape q)), parse_escape.
  cbn [parse]; unfold close.
  destruct (push_literals_frame q empty_frame) as [Ha Hc].
  rewrite Ha, Hc; cbn [empty_frame alts cur fold_left].
  now rewrite app_nil_r, seq_of_rev_literals.
Qed.

Lemma ends_literal (bound : nat) (q : text) : forall n s,
  ends bound true (literal q) (n, s)
  = if startswith_ci s q
    then [((n + List.length q)%nat, skipn (List.length q) s)]
    else [].
Proof.
  induction q as [|c q IH]; intros n s.
  - destruct s; cbn; now rewrite Nat.add_0_r.
  - cbn [literal fold_right]; fold (literal q).
    cbn [ends]; unfold one; cbn [fst snd].
    destruct s as [|d s]; [reflexivity|].
    cbn [startswith_ci lit_matches List.length skipn].
    destruct (Ascii.eqb (lower_char c) (lower_char d)); [|reflexivity].
    cbn [flat_map andb]. rewrite app_nil_r, IH.
    now rewrite Nat.add_succ_r.
Qed.

Lemma search_from_literal (bound : nat) (q : text) : forall n s,
  search_from bound {| expr := literal q; IGNORECASE := true |} n s
  = contains_ci s q.
Proof.
  intros n s; revert n; induction s as [|d s IH]; intros n;
    cbn [search_from expr IGNORECASE]; rewrite ends_literal.
  - cbn [contains_ci]; destruct (startswith_ci [] q); reflexivity.
  - cbn [contains_ci]. destruct (startswith_ci (d :: s) q); [reflexivity|].
    cbn [orb]. apply IH.
Qed.

Lemma startswith_ci_spec (q : text) : forall s,
  startswith_ci s q = true <->
  exists mid post, s = mid ++ post /\ lower mid = lower q.
Proof.
  induction q as [|c q IH]; intros s.
  - split; [intros _; exists [], s; split; reflexivity|].
    intros _; destruct s; reflexivity.
  - destruct s as [|d s]; cbn [startswith_ci].
    + split; [discriminate|].
      intros (mid & post & Hs & Hl).
      destruct mid; [discriminate Hl|discriminate Hs].
    + rewrite andb_true_iff, Ascii.eqb_eq, IH. split.
      * intros (Hc & mid & post & -> & Hl).
        exists (d :: mid), post; split; [reflexivity|].
        cbn [lower map] in *. unfold lower in Hl. now rewrite Hl, Hc.
      * intros (mid & post & Hs & Hl).
        destruct mid as [|d' mid]; [discriminate Hl|].
        injection Hs as <- ->. cbn [lower map] in Hl.
        injection Hl as Hc Hl. split; [now symmetry|].
        exists mid, post; split; [reflexivity|exact Hl].
Qed.

(** [contains_ci s q] says that [s] has a piece equal to [q] up to case. *)
Lemma contains_ci_spec (q s : text) :
  contains_ci s q = true <->
  exists pre mid post, s = pre ++ mid ++ post /\ lower mid = lower q.
Proof.
  induction s as [|d s IH]; cbn [contains_ci].
  - rewrite orb_false_r, startswith_ci_spec. split.
    + intros (mid & post & Hs & Hl). exists [], mid, post. now split.
    + intros (pre & mid & post & Hs & Hl).
      destruct pre; [|discriminate Hs]. now exists mid, post.
  - rewrite orb_true_iff, startswith_ci_spec, IH. split.
    + intros [(mid & post & Hs & Hl)|(pre & mid & post & Hs & Hl)].
      * exists [], mid, post. now split.
      * exists (d :: pre), mid, post. split; [now rewrite Hs|exact Hl].
    + intros (pre & mid & post & Hs & Hl).
      destruct pre as [|d' pre].
      * left. now exists mid, post.
      * right. injection Hs as <- ->. now exists pre, mid, post.
Qed.

Lemma compile_escape (q : text) :
  compile (escape q) true
  = Returned {| expr := literal q; IGNORECASE := true |}.
Proof. unfold compile. now rewrite parse_escape_literal. Qed.

Lemma regex_matching_contains_ci (s1_clean : text) (s2_series : list text) :
  Regex.regex_matching s1_clean s2_series
  = Returned (map (fun s2 => contains_ci s2 s1_clean) s2_series).
Proof.
  unfold Regex.regex_matching. rewrite compile_escape; cbn [bind].
  f_equal. apply map_ext; intros s2. apply search_from_literal.
Qed.

(** The reverse test is the same containment with the roles exchanged. *)
Lemma startswith_lower (sub : text) : forall s,
  startswith (lower s) (lower sub) = startswith_ci s sub.
Proof.
  induction sub as [|a sub IH]; intros s; destruct s as [|b s];
    cbn [lower map startswith startswith_ci]; try reflexivity.
  fold (lower s); fold (lower sub). now rewrite IH.
Qed.

Lemma contains_lower (sub s : text) :
  contains (lower s) (lower sub) = contains_ci s sub.
Proof.
  induction s as [|b s IH]; cbn [contains contains_ci].
  - now rewrite <- (startswith_lower sub []).
  - rewrite <- IH, <- startswith_lower. reflexivity.
Qed.

(** C10: the escaped query always compiles, to the pattern in which every
    character of the query stands for itself, and the forward match of the
    containment algorithm is the case-insensitive substring test: a
    reference text matches exactly when a piece of it equals the query up to
    case. *)
Theorem regex_matching_is_literal_containment (s1_clean : text) :
  compile (escape s1_clean) true
  = Returned {| expr := literal s1_clean; IGNORECASE := true |}
  /\ (forall s2_series,
        Regex.regex_matching s1_clean s2_series
        = Returned (map (fun s2 => contains_ci s2 s1_clean) s2_series))
  /\ (forall s2,
        search {| expr := literal s1_clean; IGNORECASE := true |} s2 = true
        <-> exists pre mid post,
              s2 = pre ++ mid ++ post /\ lower mid = lower s1_clean).
Proof.
  split; [apply compile_escape|split].
  - apply regex_matching_contains_ci.
  - intros s2. unfold search. rewrite search_from_literal.
    apply contains_ci_spec.
Qed.

(** ** The thread-pool loop *)

Section LoopFacts.
Variable result : Type.
Variable calc : nat -> outcome result.

Let succeeds : nat -> bool := task_returns calc.
Let fails : nat -> bool := task_raises calc.

Lemma fold_iteration (order : list nat) : forall acc,
  fold_left (Executor.iteration calc) order acc
  = {| Executor.results := Executor.results acc ++ returned_of calc order;
       Executor.printed := Executor.printed acc ++ raised_of calc order |}.
Proof.
  induction order as [|idx order IH]; intros acc; cbn [fold_left].
  - cbn. rewrite !app_nil_r. now destruct acc.
  - rewrite IH. unfold Executor.iteration, returned_of, raised_of.
    cbn [flat_map]. destruct (calc idx); cbn [Executor.results Executor.printed];
      now rewrite <- ?app_assoc.
Qed.

Lemma perform_matching_unfold (order : list nat) :
  Executor.perform_matching calc order
  = {| Executor.results := returned_of calc order;
       Executor.printed := raised_of calc order |}.
Proof. unfold Executor.perform_matching. now rewrite fold_iteration. Qed.

Lemma returned_of_filter (order : list nat) :
  map calc (filter succeeds order) = map Returned (returned_of calc order).
Proof.
  induction order as [|idx order IH]; [reflexivity|].
  unfold returned_of, succeeds, task_returns in *; cbn [filter flat_map].
  destruct (calc idx) eqn:E; cbn [returned app map]; [|exact IH].
  now rewrite E, IH.
Qed.

Lemma raised_of_filter (order : list nat) :
  map fst (raised_of calc order) = filter fails order.
Proof.
  induction order as [|idx order IH]; [reflexivity|].
  unfold raised_of, fails, task_raises in *; cbn [filter flat_map].
  destruct (calc idx); cbn [returned negb app map fst]; now rewrite IH.
Qed.

Lemma raised_of_sound (order : list nat) (idx : nat) (e : exn) :
  In (idx, e) (raised_of calc order) -> In idx order /\ calc idx = Raised e.
Proof.
  unfold raised_of; intros H. apply in_flat_map in H as (i & Hi & H).
  destruct (calc i) eqn:E; [destruct H|].
  destruct H as [H|[]]. injection H as -> ->. now split.
Qed.

Lemma filter_permutation {A} (f : A -> bool) (l l' : list A) :
  Permutation l l' -> Permutation (filter f l) (filter f l').
Proof.
  induction 1 as [|x l l' _ IH|x y l|l l' l'' _ IH1 _ IH2]; cbn [filter].
  - constructor.
  - destruct (f x); [now constructor|exact IH].
  - destruct (f x), (f y); try reflexivity. apply perm_swap.
  - now transitivity (filter f l').
Qed.

Lemma length_returned_raised (order : list nat) :
  (List.length (returned_of calc order)
   + List.length (raised_of calc order) = List.length order)%nat.
Proof.
  induction order as [|idx order IH]; [reflexivity|].
  unfold returned_of, raised_of in *; cbn [flat_map].
  destruct (calc idx); rewrite !length_app; cbn [List.length]; lia.
Qed.

(** Whatever the order in which the tasks finish, a task that raises is
    printed with its index and left out, and the loop goes on: the printed
    indices are the failing queries, the number of results is the number
    of queries minus the number of failures, and the results are those of
    the succeeding queries, each exactly once. *)
Lemma loop_isolates_failures (indices completion : list nat) :
  NoDup indices ->
  Permutation completion indices ->
  let run := Executor.perform_matching calc completion in
  Permutation (map fst (Executor.printed run)) (filter (task_raises calc) indices)
  /\ (forall idx e, In (idx, e) (Executor.printed run) -> calc idx = Raised e)
  /\ List.length (Executor.results run)
     = (List.length indices - List.length (filter (task_raises calc) indices))%nat
  /\ exists rows : list nat,
       NoDup rows
       /\ (forall idx, In idx rows <-> In idx indices /\ task_returns calc idx = true)
       /\ map calc rows = map Returned (Executor.results run).
Proof.
  intros Hnd Hperm run. subst run. rewrite perform_matching_unfold.
  cbn [Executor.results Executor.printed].
  fold fails; fold succeeds.
  split; [|split; [|split]].
  - rewrite raised_of_filter. now apply filter_permutation.
  - intros idx e H. now apply raised_of_sound in H.
  - pose proof (length_returned_raised completion) as Hlen.
    rewrite <- (Permutation_length (filter_permutation fails Hperm)).
    rewrite <- raised_of_filter, length_map.
    rewrite <- (Permutation_length Hperm). lia.
  - exists (filter succeeds completion). split; [|split].
    + apply NoDup_filter. apply (Permutation_NoDup (Permutation_sym Hperm) Hnd).
    + intros idx. rewrite filter_In. split; intros [Hin Hok]; split; trivial.
      * now apply (Permutation_in _ Hperm).
      * now apply (Permutation_in _ (Permutation_sym Hperm)).
    + apply returned_of_filter.
Qed.

(** The result list is in the order in which the tasks finish; it is a
    rearrangement of the list an in-order run gives.  This holds for the
    loop of every module. *)
Lemma results_follow_completion (indices completion : list nat) :
  Permutation completion indices ->
  Executor.results (Executor.perform_matching calc completion)
  = returned_of calc completion
  /\ Permutation (Executor.results (Executor.perform_matching calc completion))
                 (Executor.results (Executor.perform_matching calc indices)).
Proof.
  intros Hperm. rewrite !perform_matching_unfold. cbn [Executor.results].
  split; [reflexivity|]. unfold returned_of. now apply Permutation_flat_map.
Qed.

End LoopFacts.

Example dice_prep_without_corpus :
  Dice.prep_ (preprocessed []) (preprocessed [Some (lit "ab"); Some []])
  = Returned dice_state_without_corpus.
Proof. vm_compute. reflexivity. Qed.

(** ** The order of the result table *)

Lemma map_fst_pair {A B} (g : A -> B) (l : list A) :
  map fst (map (fun a => (a, g a)) l) = l.
Proof. rewrite map_map; cbn [fst]. apply map_id. Qed.

Lemma classify_rows (name : string) (df : list MatchResult) (rows : list row) :
  classify name df = Returned rows -> map fst rows = df.
Proof.
  unfold classify. destruct df as [|r df]; [discriminate|].
  destruct (Config.get Config.THRESHOLDS name) as [q|]; [|discriminate].
  intros H; injection H as <-.
  apply (map_fst_pair (fun r0 => ge_threshold q (BEST_MATCH r0)) (r :: df)).
Qed.

Lemma length_fillna (col : list (option text)) :
  List.length (fillna col) = List.length col.
Proof. unfold fillna. apply length_map. Qed.

(** C3, as stated, fails: when the task of the second query finishes
    first, the table lists the second query first. *)
Lemma table_not_in_query_order :
  Permutation [1; 0]%nat [0; 1]%nat
  /\ exists rows,
       Main.match_column Main.levenshtein [Some (lit "a")]
         [Some (lit "a"); Some (lit "b")] [1; 0]%nat
       = Returned rows
       /\ map (fun r : row => MATCH (fst r)) rows = [lit "b"; lit "a"]
       /\ map (fun r : row => MATCH (fst r)) rows
          <> fillna [Some (lit "a"); Some (lit "b")].
Proof.
  split; [apply perm_swap|].
  eexists; split; [vm_compute; reflexivity|].
  split; [reflexivity|]. vm_compute. discriminate.
Qed.

(** ** The scenarios of the specification, run on the code *)

(** C6, as the code has it: the query normalizes to ["schlossstr"], four
    insertions away from ["schlossstrasse"] (14 characters), so the best
    match is "Schlossstrasse" with score 1 - 4/14 = 5/7, below the
    threshold 0.8, and the decision is "not accepted". *)
Theorem schlossstr_scores_five_sevenths :
  normalize_text Schlossstr = lit "schlossstr"
  /\ Rapidfuzz.distance (lit "schlossstr") (lit "schlossstrasse") = 4%nat
  /\ Main.match_column Main.levenshtein
       [Some Schlossstrasse; Some Goethestrasse] [Some Schlossstr] [0%nat]
     = Returned [({| MATCH := Schlossstr;
                     BEST_FOUND_MATCH := Some Schlossstrasse;
                     TRUE_MATCH := None;
                     BEST_MATCH := PyFloat (5 # 7) |}, false)]
  /\ (5 # 7 < 4 # 5)%Q.
Proof.
  split; [vm_compute; reflexivity|].
  split; [vm_compute; reflexivity|].
  split; [vm_compute; reflexivity|].
  reflexivity.
Qed.

(** C6, as stated, fails: the run yields no row with a score of at least
    0.8 and an accepted decision. *)
Lemma schlossstr_not_accepted :
  ~ exists (r : MatchResult) (score : Q),
      Main.match_column Main.levenshtein
        [Some Schlossstrasse; Some Goethestrasse] [Some Schlossstr] [0%nat]
      = Returned [(r, true)]
      /\ BEST_FOUND_MATCH r = Some Schlossstrasse
      /\ BEST_MATCH r = PyFloat score
      /\ (4 # 5 <= score)%Q.
Proof.
  intros (r & score & Hrun & _).
  vm_compute in Hrun. discriminate Hrun.
Qed.

(** C7 on the code: the reference normalizes to ["hauptstr 1"] (the
    abbreviation table rewrites "strasse" written with a sharp s to "str."
    before the sharp s is folded), although the docstring of
    [__normalize_text] promises ['dr muellerstrasse 123'] for a street
    written with a sharp s, where the code gives ["dr muellerstr 123"]; the
    query normalizes to ["hauptstrasse eins"]; the vocabulary is fitted on
    the corpus alone, where the Dice and the n-gram module fit theirs on
    corpus and queries, and keeps tokens of two characters or more, so it
    is ["hauptstr"]; the query has no token in it and the score is 0, with
    the only reference reported as best match.  On the two normalized
    texts the specification names, the same computation gives 1. *)
Theorem hauptstrasse_jaccard_scores_zero :
  normalize_text (lit "Dr. M" ++ [u_uml] ++ lit "ller-Stra" ++ [sz]
                  ++ lit "e 123")
  = lit "dr muellerstr 123"
  /\ normalize_text Hauptstrasse_1 = lit "hauptstr 1"
  /\ normalize_text Hauptstrasse_Eins = lit "hauptstrasse eins"
  /\ Sklearn.build_vocabulary Sklearn.word_analyzer [lit "hauptstr 1"]
     = [lit "hauptstr"]
  /\ Main.match_column Main.jaccard
       [Some Hauptstrasse_1] [Some Hauptstrasse_Eins] [0%nat]
     = Returned [({| MATCH := Hauptstrasse_Eins;
                     BEST_FOUND_MATCH := Some Hauptstrasse_1;
                     TRUE_MATCH := None;
                     BEST_MATCH := PyFloat 0 |}, false)]
  /\ (st <- Jaccard.prep_ ([0%nat], [lit "hauptstrasse 1"], [Hauptstrasse_1])
                          ([0%nat], [lit "hauptstrasse eins"],
                           [Hauptstrasse_Eins]) ;;
      Jaccard.calculate_best_match st 0)
     = Returned {| MATCH := Hauptstrasse_Eins;
                   BEST_FOUND_MATCH := Some Hauptstrasse_1;
                   TRUE_MATCH := None;
                   BEST_MATCH := PyFloat 1 |}.
Proof. repeat split; vm_compute; reflexivity. Qed.

(** On the code the reference of that scenario does not normalize to
    ["hauptstrasse 1"], and the run yields no row of score 1/3. *)
Lemma hauptstrasse_jaccard_not_one_third :
  normalize_text Hauptstrasse_1 <> lit "hauptstrasse 1"
  /\ ~ exists (r : MatchResult) (accepted : bool) (score : Q),
         Main.match_column Main.jaccard
           [Some Hauptstrasse_1] [Some Hauptstrasse_Eins] [0%nat]
         = Returned [(r, accepted)]
         /\ BEST_MATCH r = PyFloat score
         /\ (score == 1 # 3)%Q.
Proof.
  split; [vm_compute; discriminate|].
  intros (r & accepted & score & Hrun & Hscore & Heq).
  vm_compute in Hrun. injection Hrun as <- _.
  cbn in Hscore. injection Hscore as <-.
  vm_compute in Heq. discriminate Heq.
Qed.

(** C1 on the code: the bigram counts are multiplied, not intersected.  For
    the query "aaaa" against the reference "aaaa" (bigram "aa" three times
    on each side) the Dice score is 2*9/(3+3) = 3 and the n-gram score is
    9/(3+3-9) = -3; for "aaa" against "aaa" the n-gram denominator is
    2+2-4 = 0, the quotient is +inf, and [nan_to_num] turns it into the
    largest float. *)
Theorem dice_and_ngram_scores_leave_unit_interval :
  Main.match_column Main.dice [Some (lit "aaaa")] [Some (lit "aaaa")] [0%nat]
  = Returned [({| MATCH := lit "aaaa";
                  BEST_FOUND_MATCH := Some (lit "aaaa");
                  TRUE_MATCH := None;
                  BEST_MATCH := PyFloat 3 |}, true)]
  /\ Main.match_column Main.ngram [Some (lit "aaaa")] [Some (lit "aaaa")] [0%nat]
     = Returned [({| MATCH := lit "aaaa";
                     BEST_FOUND_MATCH := Some (lit "aaaa");
                     TRUE_MATCH := None;
                     BEST_MATCH := PyFloat (-3) |}, false)]
  /\ Numpy.true_divide 4 0 = Numpy.PosInf
  /\ Main.match_column Main.ngram [Some (lit "aaa")] [Some (lit "aaa")] [0%nat]
     = Returned [({| MATCH := lit "aaa";
                     BEST_FOUND_MATCH := Some (lit "aaa");
                     TRUE_MATCH := None;
                     BEST_MATCH := PyFloat Numpy.DBL_MAX |}, true)]
  /\ (1 < Numpy.DBL_MAX)%Q.
Proof. repeat split; vm_compute; reflexivity. Qed.

(** C2 on the code: for the corpus ["Muellerweg" with u-umlaut] and the
    empty query, the four scoring modules return no best match and no
    score; the containment module has no guard for the empty query, its
    empty pattern is found in every reference, and it reports the first
    reference as an accepted match. *)
Theorem regex_matches_empty_query :
  Main.match_column Main.levenshtein [Some Muellerweg] [Some []] [0%nat]
  = Returned [(no_match [], false)]
  /\ Main.match_column Main.jaccard [Some Muellerweg] [Some []] [0%nat]
     = Returned [(no_match [], false)]
  /\ Main.match_column Main.dice [Some Muellerweg] [Some []] [0%nat]
     = Returned [(no_match [], false)]
  /\ Main.match_column Main.ngram [Some Muellerweg] [Some []] [0%nat]
     = Returned [(no_match [], false)]
  /\ Main.match_column Main.regex [Some Muellerweg] [Some []] [0%nat]
     = Returned [({| MATCH := [];
                     BEST_FOUND_MATCH := Some Muellerweg;
                     TRUE_MATCH := None;
                     BEST_MATCH := PyBool true |}, true)].
Proof. repeat split; vm_compute; reflexivity. Qed.

(** ** A query that is empty after normalization *)

Lemma iloc_nth_error {A} (series : list A) (idx : nat) (a : A) :
  nth_error series idx = Some a -> iloc series idx = Returned a.
Proof. unfold iloc. now intros ->. Qed.

(** The edit-distance and the token-overlap module test the stripped
    query before any scoring. *)
Lemma levenshtein_empty_query (st : Levenshtein.state) idx orig norm :
  nth_error (Levenshtein.match_original_series st) idx = Some orig ->
  nth_error (Levenshtein.match_norm_series st) idx = Some norm ->
  strip norm = [] ->
  Levenshtein.calculate_best_match st idx = Returned (no_match orig).
Proof.
  intros Ho Hn Hs. unfold Levenshtein.calculate_best_match.
  rewrite (iloc_nth_error _ _ Ho), (iloc_nth_error _ _ Hn); cbn [bind].
  now rewrite Hs.
Qed.

Lemma jaccard_empty_query (st : Jaccard.state) idx orig norm :
  nth_error (Jaccard.match_original_series st) idx = Some orig ->
  nth_error (Jaccard.match_norm_series st) idx = Some norm ->
  strip norm = [] ->
  Jaccard.calculate_best_match st idx = Returned (no_match orig).
Proof.
  intros Ho Hn Hs. unfold Jaccard.calculate_best_match.
  rewrite (iloc_nth_error _ _ Ho), (iloc_nth_error _ _ Hn); cbn [bind].
  now rewrite Hs.
Qed.

Lemma nnz_zeros {A} (l : list A) : Numpy.nnz (map (fun _ => 0%Z) l) = 0%nat.
Proof. unfold Numpy.nnz. induction l; [reflexivity|exact IHl]. Qed.

Lemma fit_fields an bin docs v :
  Sklearn.fit an bin docs = Returned v ->
  Sklearn.analyzer v = an /\ Sklearn.binary v = bin.
Proof.
  unfold Sklearn.fit. destruct (Sklearn.build_vocabulary an docs);
    [discriminate|]. intros H; injection H as <-. now split.
Qed.

Lemma transform_empty_text v n :
  Sklearn.analyzer v = Sklearn.char_analyzer n -> Sklearn.binary v = false ->
  (0 < n)%nat ->
  Numpy.nnz (Sklearn.transform_one v []) = 0%nat.
Proof.
  intros Ha Hb Hn. unfold Sklearn.transform_one. rewrite Ha, Hb.
  unfold Sklearn.char_analyzer, Sklearn.char_ngrams; cbn [lower map
    Sklearn.collapse_ws List.length].
  destruct n; [lia|]. cbn [Nat.leb Sklearn.count count_occ Z.of_nat].
  apply nnz_zeros.
Qed.

(** The two bigram modules test the query's row of the count matrix: an
    empty text has no bigram. *)
Lemma dice_empty_query (data : prepared) idxs norms origs st idx orig :
  Dice.prep_ data (idxs, norms, origs) = Returned st ->
  nth_error origs idx = Some orig ->
  nth_error norms idx = Some [] ->
  Dice.calculate_best_match st idx = Returned (no_match orig).
Proof.
  destruct data as [[data_index data_norm] data_original].
  unfold Dice.prep_. intros Hprep Ho Hn.
  destruct (Sklearn.fit (Sklearn.char_analyzer Dice.n) false
              (data_norm ++ norms)) as [v|] eqn:Hfit; [|discriminate].
  cbn [bind] in Hprep. injection Hprep as <-.
  destruct (fit_fields _ _ _ Hfit) as [Ha Hb].
  unfold Dice.calculate_best_match; cbn [Dice.match_original_series
    Dice.match_ngrams_matrix].
  rewrite (iloc_nth_error _ _ Ho); cbn [bind].
  unfold Sklearn.transform.
  rewrite (iloc_nth_error _ _ (map_nth_error _ _ _ Hn)); cbn [bind].
  rewrite (transform_empty_text v Ha Hb) by (unfold Dice.n; lia).
  reflexivity.
Qed.

Lemma ngram_empty_query (data : prepared) idxs norms origs st idx orig :
  Ngram.prep_ data (idxs, norms, origs) = Returned st ->
  nth_error origs idx = Some orig ->
  nth_error norms idx = Some [] ->
  Ngram.calculate_best_match st idx = Returned (no_match orig).
Proof.
  destruct data as [[data_index data_norm] data_original].
  unfold Ngram.prep_. intros Hprep Ho Hn.
  destruct (Sklearn.fit (Sklearn.char_analyzer Ngram.n) false
              (data_norm ++ norms)) as [v|] eqn:Hfit; [|discriminate].
  cbn [bind] in Hprep. injection Hprep as <-.
  destruct (fit_fields _ _ _ Hfit) as [Ha Hb].
  unfold Ngram.calculate_best_match; cbn [Ngram.match_original_series
    Ngram.match_ngrams_matrix].
  rewrite (iloc_nth_error _ _ Ho); cbn [bind].
  unfold Sklearn.transform.
  rewrite (iloc_nth_error _ _ (map_nth_error _ _ _ Hn)); cbn [bind].
  rewrite (transform_empty_text v Ha Hb) by (unfold Ngram.n; lia).
  reflexivity.
Qed.

Lemma contains_ci_empty (s : text) : contains_ci s [] = true.
Proof. destruct s; reflexivity. Qed.

Lemma select_all_true {A} (series : list A) (a : list bool) (b : list bool) :
  List.length a = List.length series ->
  List.length b = List.length series ->
  Forall (fun x => x = true) a ->
  Regex.select series (Regex.or_mask a b) = series.
Proof.
  revert a b; induction series as [|x series IH]; intros a b Ha Hb Hall.
  - destruct a; [reflexivity|discriminate].
  - destruct a as [|y a]; [discriminate|]. destruct b as [|z b]; [discriminate|].
    inversion Hall as [|? ? Hy Hall']; subst.
    cbn [Regex.or_mask Regex.select orb]. f_equal.
    apply IH; [now injection Ha|now injection Hb|exact Hall'].
Qed.

(** The containment module has no such test: the empty query is found in
    every reference text, and the first reference is reported as the match,
    with score [True]. *)
Lemma regex_empty_query (data_index : list nat) (data_norm data_original : list text)
    idxs norms origs st idx orig first rest :
  Regex.prep_ (data_index, data_norm, data_original) (idxs, norms, origs)
  = Returned st ->
  List.length data_norm = List.length data_original ->
  data_original = first :: rest ->
  nth_error origs idx = Some orig ->
  nth_error norms idx = Some [] ->
  Regex.calculate_best_match st idx
  = Returned {| MATCH := orig;
                BEST_FOUND_MATCH := Some first;
                TRUE_MATCH := None;
                BEST_MATCH := PyBool true |}.
Proof.
  intros Hprep Hlen Hfirst Ho Hn. unfold Regex.prep_ in Hprep.
  injection Hprep as <-.
  unfold Regex.calculate_best_match; cbn [Regex.match_original_series
    Regex.match_norm_series Regex.data_norm_series
    Regex.data_original_series].
  rewrite (iloc_nth_error _ _ Ho), (iloc_nth_error _ _ Hn); cbn [bind].
  rewrite regex_matching_contains_ci; cbn [bind].
  rewrite select_all_true.
  - now rewrite Hfirst.
  - now rewrite length_map.
  - unfold Regex.reverse_regex_matching; cbn [Regex.data_norm_array_lower].
    now rewrite !length_map.
  - apply Forall_forall. intros x Hx. apply in_map_iff in Hx as (s & <- & _).
    apply contains_ci_empty.
Qed.

(** ** Empty input at prepare time *)

Lemma all_returned {A} (calc : nat -> outcome A) (f : nat -> A)
    (order : list nat) :
  (forall idx, In idx order -> calc idx = Returned (f idx)) ->
  Executor.perform_matching calc order
  = {| Executor.results := map f order; Executor.printed := [] |}.
Proof.
  intros H. rewrite perform_matching_unfold. f_equal.
  - induction order as [|idx order IH]; [reflexivity|].
    unfold returned_of in *; cbn [flat_map map].
    rewrite (H idx) by now left. cbn [app]. f_equal.
    apply IH. intros; apply H; now right.
  - induction order as [|idx order IH]; [reflexivity|].
    unfold raised_of in *; cbn [flat_map].
    rewrite (H idx) by now left. cbn [app].
    apply IH. intros; apply H; now right.
Qed.

Lemma levenshtein_empty_corpus (st : Levenshtein.state) idx orig norm :
  Levenshtein.data_norm_series st = [] ->
  nth_error (Levenshtein.match_original_series st) idx = Some orig ->
  nth_error (Levenshtein.match_norm_series st) idx = Some norm ->
  Levenshtein.calculate_best_match st idx = Returned (no_match orig).
Proof.
  intros Hd Ho Hn. unfold Levenshtein.calculate_best_match.
  rewrite (iloc_nth_error _ _ Ho), (iloc_nth_error _ _ Hn); cbn [bind].
  rewrite Hd. now destruct (is_empty (strip norm)).
Qed.

(** ** [argmax] *)

Lemma argmax_from_max (l : list Q) : forall best besti i,
  let k := Numpy.argmax_from best besti i l in
  (k = besti /\ forall y, In y l -> (y <= best)%Q)
  \/ exists m, (i <= k)%nat /\ nth_error l (k - i) = Some m
               /\ (best <= m)%Q /\ forall y, In y l -> (y <= m)%Q.
Proof.
  induction l as [|x l IH]; intros best besti i; cbn [Numpy.argmax_from].
  - left. split; [reflexivity|intros y []].
  - destruct (Qle_bool x best) eqn:E.
    + apply Qle_bool_iff in E.
      destruct (IH best besti (S i)) as [[Hk Hall]|(m & Hi & Hn & Hb & Hall)].
      * left. split; [exact Hk|]. intros y [<-|Hy]; [exact E|now apply Hall].
      * right. exists m. split; [lia|]. split; [|split; [exact Hb|]].
        -- replace (Numpy.argmax_from best besti (S i) l - i)%nat
             with (S (Numpy.argmax_from best besti (S i) l - S i)) by lia.
           exact Hn.
        -- intros y [<-|Hy]; [now apply Qle_trans with best|now apply Hall].
    + assert (Hlt : (best < x)%Q).
      { apply Qnot_le_lt. intros H. apply Qle_bool_iff in H. congruence. }
      destruct (IH x i (S i)) as [[Hk Hall]|(m & Hi & Hn & Hb & Hall)].
      * right. exists x. rewrite Hk, Nat.sub_diag. split; [lia|].
        split; [reflexivity|]. split; [now apply Qlt_le_weak|].
        intros y [<-|Hy]; [apply Qle_refl|now apply Hall].
      * right. exists m. split; [lia|]. split; [|split].
        -- replace (Numpy.argmax_from x i (S i) l - i)%nat
             with (S (Numpy.argmax_from x i (S i) l - S i)) by lia.
           exact Hn.
        -- apply Qle_trans with x; [now apply Qlt_le_weak|exact Hb].
        -- intros y [<-|Hy]; [exact Hb|now apply Hall].
Qed.

(** [argmax] returns the position of an element no other exceeds. *)
Lemma argmax_max (a : list Q) (k : nat) :
  Numpy.argmax a = Returned k ->
  exists m, nth_error a k = Some m /\ forall y, In y a -> (y <= m)%Q.
Proof.
  destruct a as [|x l]; [discriminate|]. cbn [Numpy.argmax].
  intros H; injection H as <-.
  destruct (argmax_from_max l x 0%nat 1%nat) as [[Hk Hall]|(m & Hi & Hn & Hb & Hall)].
  - exists x. rewrite Hk. split; [reflexivity|].
    intros y [<-|Hy]; [apply Qle_refl|now apply Hall].
  - exists m. split.
    + destruct (Numpy.argmax_from x 0 1 l) as [|k']; [lia|].
      cbn [nth_error]. now replace (S k' - 1)%nat with k' in Hn by lia.
    + intros y [<-|Hy]; [exact Hb|now apply Hall].
Qed.

Lemma iloc_returned {A} (series : list A) (idx : nat) (a : A) :
  iloc series idx = Returned a -> nth_error series idx = Some a.
Proof.
  unfold iloc. destruct (nth_error series idx); [|discriminate].
  now intros H; injection H as ->.
Qed.

(** ** Scores of the edit-distance and the token-overlap module *)

Lemma unit_quotient (a b : Z) :
  (0 <= a <= b)%Z -> unit_interval (Numpy.nan_to_num (Numpy.true_divide a b)).
Proof.
  intros [Ha Hab]. unfold Numpy.true_divide, unit_interval.
  destruct (b =? 0)%Z eqn:Eb.
  - apply Z.eqb_eq in Eb. assert (a = 0%Z) as -> by lia.
    cbn. split; discriminate.
  - apply Z.eqb_neq in Eb. cbn [Numpy.nan_to_num]. rewrite Qred_correct.
    assert (Hb : (0 < inject_Z b)%Q)
      by (change 0%Q with (inject_Z 0); rewrite <- Zlt_Qlt; lia).
    split.
    + apply Qle_shift_div_l; [exact Hb|]. rewrite Qmult_0_l.
      change 0%Q with (inject_Z 0). now rewrite <- Zle_Qle.
    + apply Qle_shift_div_r; [exact Hb|]. rewrite Qmult_1_l.
      now rewrite <- Zle_Qle.
Qed.

Lemma sum_binary_nonneg (v : Numpy.vector) :
  binary_vector v -> (0 <= Numpy.sum v)%Z.
Proof.
  induction 1 as [|x v Hx _ IH]; cbn [Numpy.sum fold_right]; [lia|].
  fold (Numpy.sum v). lia.
Qed.

(** The row sum of the product of two 0/1 vectors counts the common
    entries: it exceeds neither operand's sum. *)
Lemma intersection_bounds (u : Numpy.vector) : forall v,
  binary_vector u -> binary_vector v ->
  (0 <= Numpy.sum (Numpy.multiply_row u v) <= Numpy.sum u)%Z
  /\ (Numpy.sum (Numpy.multiply_row u v) <= Numpy.sum v)%Z.
Proof.
  induction u as [|a u IH]; intros v Hu Hv.
  - cbn. split; [lia|]. now apply sum_binary_nonneg.
  - destruct v as [|b v].
    + cbn [Numpy.multiply_row Numpy.sum fold_right]. fold (Numpy.sum u).
      pose proof (sum_binary_nonneg Hu) as H.
      cbn [Numpy.sum fold_right] in H. fold (Numpy.sum u) in H. lia.
    + inversion Hu as [|? ? Ha Hu']; inversion Hv as [|? ? Hb Hv']; subst.
      destruct (IH v Hu' Hv') as [[H0 H1] H2].
      cbn [Numpy.multiply_row Numpy.sum fold_right].
      fold (Numpy.sum (Numpy.multiply_row u v)) (Numpy.sum u) (Numpy.sum v).
      destruct Ha as [-> | ->], Hb as [-> | ->]; lia.
Qed.

Lemma jaccard_similarities_unit (data_vectors : Numpy.matrix)
    (match_vector : Numpy.vector) :
  Forall binary_vector data_vectors -> binary_vector match_vector ->
  Forall unit_interval (Jaccard.jaccard_similarities data_vectors match_vector).
Proof.
  intros Hd Hm. unfold Jaccard.jaccard_similarities, Numpy.sum_axis1,
    Numpy.multiply.
  induction Hd as [|u data_vectors Hu _ IH]; [constructor|].
  cbn [map combine]. constructor; [|exact IH].
  destruct (intersection_bounds Hu Hm) as [[H0 H1] H2].
  apply unit_quotient. lia.
Qed.

Lemma transform_one_binary (v : Sklearn.CountVectorizer) (doc : text) :
  Sklearn.binary v = true -> binary_vector (Sklearn.transform_one v doc).
Proof.
  intros Hb. unfold Sklearn.transform_one, binary_vector. rewrite Hb.
  apply Forall_forall. intros x Hx. apply in_map_iff in Hx as (t & <- & _).
  unfold Sklearn.count. lia.
Qed.

Lemma max_from_in (l : list Q) : forall best,
  Numpy.max_from best l = best \/ In (Numpy.max_from best l) l.
Proof.
  induction l as [|x l IH]; intros best; cbn [Numpy.max_from]; [now left|].
  destruct (Qle_bool x best).
  - destruct (IH best) as [H|H]; [now left|right; now right].
  - destruct (IH x) as [H|H]; [right; now left|right; now right].
Qed.

Lemma max_in (a : list Q) (m : Q) : Numpy.max a = Returned m -> In m a.
Proof.
  destruct a as [|x l]; [discriminate|]. cbn [Numpy.max].
  intros H; injection H as <-.
  destruct (max_from_in l x) as [->|H]; [now left|now right].
Qed.

(** Every score the token-overlap module reports after [prep_] lies in
    [0, 1]; a zero union gives 0. *)
Lemma jaccard_score_unit (data match_ : prepared) (st : Jaccard.state)
    (idx : nat) (r : MatchResult) :
  Jaccard.prep_ data match_ = Returned st ->
  Jaccard.calculate_best_match st idx = Returned r ->
  BEST_MATCH r = PyNone
  \/ exists s, BEST_MATCH r = PyFloat s /\ unit_interval s.
Proof.
  destruct data as [[data_index data_norm] data_original].
  destruct match_ as [[match_index match_norm] match_original].
  unfold Jaccard.prep_. intros Hprep.
  destruct (Sklearn.fit Sklearn.word_analyzer true data_norm) as [v|] eqn:Hfit;
    [|discriminate].
  cbn [bind] in Hprep. injection Hprep as <-.
  destruct (fit_fields _ _ _ Hfit) as [_ Hb].
  unfold Jaccard.calculate_best_match; cbn [Jaccard.match_original_series
    Jaccard.match_norm_series Jaccard.vectorizer Jaccard.data_vectors
    Jaccard.data_original_series].
  destruct (iloc match_original idx) as [mo|]; [|discriminate].
  destruct (iloc match_norm idx) as [mn|]; [|discriminate].
  cbn [bind]. destruct (is_empty (strip mn)).
  { intros H; injection H as <-. now left. }
  set (sims := Jaccard.jaccard_similarities _ _).
  destruct (Numpy.max sims) as [m|] eqn:Hmax; [|discriminate]. cbn [bind].
  destruct (Numpy.argmax sims) as [k|]; [|discriminate]. cbn [bind].
  destruct (iloc data_original k) as [orig|]; [|discriminate]. cbn [bind].
  intros H; injection H as <-. right. exists m. split; [reflexivity|].
  apply max_in in Hmax.
  assert (Hall : Forall unit_interval sims).
  { apply jaccard_similarities_unit.
    - unfold Sklearn.transform. apply Forall_forall. intros u Hu.
      apply in_map_iff in Hu as (doc & <- & _). now apply transform_one_binary.
    - now apply transform_one_binary. }
  rewrite Forall_forall in Hall. now apply Hall.
Qed.

Lemma true_divide_zero_by_zero :
  Numpy.nan_to_num (Numpy.true_divide 0 0) = 0%Q.
Proof. reflexivity. Qed.

Lemma next_row_bounded (a : char) (t : text) : forall prev left i j,
  row_bounded i j prev ->
  List.length prev = S (List.length t) ->
  row_bounded (S i) (S j) (Rapidfuzz.next_row a t prev left)
  /\ List.length (Rapidfuzz.next_row a t prev left) = List.length t.
Proof.
  induction t as [|b t IH]; intros prev left i j Hb Hlen.
  - split; [|reflexivity]. intros [|k] x H; discriminate H.
  - destruct prev as [|diag [|up rest]]; try discriminate Hlen.
    cbn [Rapidfuzz.next_row].
    set (v := Rapidfuzz.min3 _ _ _).
    assert (Hprev' : row_bounded i (S j) (up :: rest)).
    { intros k x H. specialize (Hb (S k) x H). lia. }
    destruct (IH (up :: rest) v i (S j) Hprev') as [IHb IHl];
      [cbn [List.length] in *; lia|].
    split; [|cbn [List.length]; now rewrite IHl].
    intros [|k] x H.
    + injection H as <-. pose proof (Hb 0%nat diag eq_refl) as Hd.
      subst v. unfold Rapidfuzz.min3.
      destruct (Ascii.eqb a b); lia.
    + specialize (IHb k x H). lia.
Qed.

Lemma step_row_bounded (t : text) (a : char) (row : list nat) (i : nat) :
  row_bounded i 0 row ->
  List.length row = S (List.length t) ->
  row_bounded (S i) 0 (Rapidfuzz.step_row t row a)
  /\ List.length (Rapidfuzz.step_row t row a) = S (List.length t).
Proof.
  intros Hb Hlen. unfold Rapidfuzz.step_row.
  destruct (@next_row_bounded a t row (S (hd 0%nat row)) i 0%nat Hb Hlen)
    as [Hn Hl].
  split; [|cbn [List.length]; now rewrite Hl].
  intros [|k] x H.
  - injection H as <-. destruct row as [|r0 row]; [discriminate Hlen|].
    pose proof (Hb 0%nat r0 eq_refl). cbn [hd]. lia.
  - specialize (Hn k x H). lia.
Qed.

Lemma fold_rows_bounded (t s : text) : forall row i,
  row_bounded i 0 row ->
  List.length row = S (List.length t) ->
  row_bounded (i + List.length s) 0 (fold_left (Rapidfuzz.step_row t) s row)
  /\ List.length (fold_left (Rapidfuzz.step_row t) s row) = S (List.length t).
Proof.
  induction s as [|a s IH]; intros row i Hb Hlen; cbn [fold_left List.length].
  - now rewrite Nat.add_0_r.
  - destruct (@step_row_bounded t a row i Hb Hlen) as [Hb' Hlen'].
    rewrite Nat.add_succ_r. apply (IH _ (S i) Hb' Hlen').
Qed.

Lemma nth_error_seq_value (n : nat) : forall a k x,
  nth_error (seq a n) k = Some x -> x = (a + k)%nat.
Proof.
  induction n as [|n IH]; intros a k x H.
  - destruct k; discriminate H.
  - destruct k as [|k]; cbn in H.
    + injection H as <-. lia.
    + apply IH in H. lia.
Qed.

Lemma nth_error_last {A} (l : list A) (d : A) : forall n,
  List.length l = S n -> nth_error l n = Some (last l d).
Proof.
  induction l as [|a l IH]; intros n H; [discriminate|].
  destruct l as [|b l].
  - cbn in H. injection H as <-. reflexivity.
  - destruct n as [|n]; [cbn in H; lia|]. cbn [nth_error].
    change (last (a :: b :: l) d) with (last (b :: l) d).
    apply IH. cbn [List.length] in H |- *. lia.
Qed.

(** The edit distance never exceeds the longer of the two lengths. *)
Lemma distance_le_max (s t : text) :
  (Rapidfuzz.distance s t <= Nat.max (List.length s) (List.length t))%nat.
Proof.
  unfold Rapidfuzz.distance.
  destruct (@fold_rows_bounded t s (seq 0 (S (List.length t))) 0%nat)
    as [Hb Hlen].
  - intros k x H. apply nth_error_seq_value in H. lia.
  - apply length_seq.
  - pose proof (nth_error_last _ 0%nat Hlen) as Hlast.
    specialize (Hb _ _ Hlast). lia.
Qed.

Lemma normalized_similarity_unit (s t : text) :
  unit_interval (Rapidfuzz.normalized_similarity s t).
Proof.
  unfold Rapidfuzz.normalized_similarity, unit_interval.
  pose proof (distance_le_max s t) as Hd.
  destruct (Nat.max (List.length s) (List.length t)) as [|m] eqn:Em.
  - split; discriminate.
  - rewrite Qred_correct.
    set (d := Z.of_nat (Rapidfuzz.distance s t)) in *.
    set (mx := Z.of_nat (S m)) in *.
    assert (Hq : unit_interval (Numpy.nan_to_num (Numpy.true_divide d mx)))
      by (apply unit_quotient; subst d mx; lia).
    unfold Numpy.true_divide, unit_interval in Hq.
    replace (mx =? 0)%Z with false in Hq
      by (symmetry; apply Z.eqb_neq; subst mx; lia).
    cbn [Numpy.nan_to_num] in Hq. rewrite Qred_correct in Hq.
    destruct Hq as [H0 H1]. split; lra.
Qed.

Lemma extractOne_from_score (P : Q -> Prop) scorer query (choices : list text) :
  (forall choice, P (scorer query choice)) ->
  forall key best choice score k,
    (forall c s i, best = Some (c, s, i) -> P s) ->
    Rapidfuzz.extractOne_from scorer query choices key best
    = Some (choice, score, k) ->
    P score.
Proof.
  intros HP. induction choices as [|c choices IH];
    intros key best choice score k Hbest H; cbn [Rapidfuzz.extractOne_from] in H.
  - now apply (Hbest choice score k).
  - apply (IH _ _ _ _ _) in H; [exact H|].
    intros c' s' i' Heq. destruct best as [[[bc bs] bi]|].
    + destruct (Qle_bool (scorer query c) bs).
      * now apply (Hbest c' s' i').
      * injection Heq as _ <- _. apply HP.
    + injection Heq as _ <- _. apply HP.
Qed.

(** Every score the edit-distance module reports lies in [0, 1]. *)
Lemma levenshtein_score_unit (st : Levenshtein.state) (idx : nat)
    (r : MatchResult) :
  Levenshtein.calculate_best_match st idx = Returned r ->
  BEST_MATCH r = PyNone
  \/ exists s, BEST_MATCH r = PyFloat s /\ unit_interval s.
Proof.
  unfold Levenshtein.calculate_best_match.
  destruct (iloc (Levenshtein.match_original_series st) idx) as [mo|];
    [|discriminate].
  destruct (iloc (Levenshtein.match_norm_series st) idx) as [mn|];
    [|discriminate].
  cbn [bind]. destruct (is_empty (strip mn)).
  { intros H; injection H as <-. now left. }
  destruct (Rapidfuzz.extractOne Rapidfuzz.normalized_similarity (strip mn)
              (Levenshtein.data_norm_series st)) as [[[c s] k]|] eqn:E.
  - destruct (iloc (Levenshtein.data_original_series st) k); [|discriminate].
    cbn [bind]. intros H; injection H as <-. right. exists s.
    split; [reflexivity|].
    unfold Rapidfuzz.extractOne in E.
    apply (extractOne_from_score unit_interval) in E; [exact E| |discriminate].
    intros choice. apply normalized_similarity_unit.
  - intros H; injection H as <-. now left.
Qed.

(* ================================================================== *)
(** * Further properties of the code *)

(** ** The normalizer *)

(** X1: whatever the input, the normalized text consists of word
    characters and whitespace only, and every character is its own
    lowercase form: no punctuation and no capital letter survives. *)
Theorem normalize_text_alphabet (x : text) :
  Forall (fun c => lower_char c = c /\ (isword c || isspace c) = true)
         (normalize_text x).
Proof.
  apply Forall_forall. intros c Hc.
  destruct (normalize_text_chars x c Hc) as [Hl Hk]. now split.
Qed.

(** X2: for a text of code points U+0000..U+00FF that holds none of the
    capital letters A-umlaut, O-umlaut, U-umlaut, the normalized text holds
    none of a-umlaut, o-umlaut, u-umlaut and sharp s: on that block the
    folding of the diacritics is complete.  (Outside the block the capital
    sharp s U+1E9E, which [str.lower] turns into the sharp s after the
    replacements have run, is not covered.) *)
Theorem normalize_text_folds_diacritics (x : text) :
  free_of capital_mutated_letters x = true ->
  free_of mutated_letters (normalize_text x) = true.
Proof.
  intros Hcap. unfold free_of. apply forallb_forall. intros c Hc.
  apply negb_true_iff. destruct (existsb _ _) eqn:E; [exfalso|reflexivity].
  unfold normalize_text in Hc. apply filter_In in Hc as [Hc _].
  apply strip_incl in Hc. unfold lower in Hc.
  apply in_map_iff in Hc as (d & <- & Hd).
  assert (Hb : existsb (Ascii.eqb d)
                 (mutated_letters ++ capital_mutated_letters) = true)
    by now apply lower_char_mutated.
  apply existsb_exists in Hb as (b & Hb & Eb).
  apply Ascii.eqb_eq in Eb; subst b.
  revert Hd. apply replacements_clear; [|exact Hb].
  intros e He. now apply (free_of_spec capital_mutated_letters).
Qed.

Lemma normalize_text_folds_diacritics_witness :
  let x := lit "Sch" ++ [o_uml] ++ lit "ne Stra" ++ [sz] ++ lit "e, K"
           ++ [o_uml] ++ lit "ln" in
  free_of capital_mutated_letters x = true
  /\ normalize_text x = lit "schoene str koeln"
  /\ free_of mutated_letters (normalize_text x) = true.
Proof.
  split; [reflexivity|]. split; [vm_compute; reflexivity|].
  apply normalize_text_folds_diacritics. reflexivity.
Defined.

(** ** A query that normalizes to the empty text, for every corpus *)

Lemma preprocessed_series (col : list (option text)) :
  preprocessed col
  = (seq 0 (List.length (fillna col)), map normalize_text (fillna col),
     fillna col).
Proof. reflexivity. Qed.

(** X3: for every reference corpus, a query whose normalized text is empty
    (a missing cell, an empty cell, punctuation only) is reported by the
    edit-distance, the Jaccard, the Dice and the n-gram module with no best
    match and no score. *)
Theorem empty_normalized_query_has_no_match
    (data_col match_col : list (option text)) (idx : nat) (orig : text) :
  nth_error (fillna match_col) idx = Some orig ->
  normalize_text orig = [] ->
  (forall st,
     Levenshtein.prep_ (preprocessed data_col) (preprocessed match_col)
     = Returned st ->
     Levenshtein.calculate_best_match st idx = Returned (no_match orig))
  /\ (forall st,
        Jaccard.prep_ (preprocessed data_col) (preprocessed match_col)
        = Returned st ->
        Jaccard.calculate_best_match st idx = Returned (no_match orig))
  /\ (forall st,
        Dice.prep_ (preprocessed data_col) (preprocessed match_col)
        = Returned st ->
        Dice.calculate_best_match st idx = Returned (no_match orig))
  /\ (forall st,
        Ngram.prep_ (preprocessed data_col) (preprocessed match_col)
        = Returned st ->
        Ngram.calculate_best_match st idx = Returned (no_match orig)).
Proof.
  intros Ho Hn.
  assert (Hnorm : nth_error (map normalize_text (fillna match_col)) idx
                  = Some []).
  { rewrite <- Hn. now apply map_nth_error. }
  rewrite (preprocessed_series match_col), (preprocessed_series data_col).
  split; [|split; [|split]]; intros st Hprep.
  - injection Hprep as <-.
    eapply levenshtein_empty_query; [exact Ho|exact Hnorm|reflexivity].
  - unfold Jaccard.prep_ in Hprep.
    destruct (Sklearn.fit _ _ _); [|discriminate].
    cbn [bind] in Hprep. injection Hprep as <-.
    eapply jaccard_empty_query; [exact Ho|exact Hnorm|reflexivity].
  - eapply dice_empty_query; [exact Hprep|exact Ho|exact Hnorm].
  - eapply ngram_empty_query; [exact Hprep|exact Ho|exact Hnorm].
Qed.

Lemma empty_normalized_query_has_no_match_witness :
  nth_error (fillna [Some (lit "Hauptstr. 1"); None; Some (lit "?!")]) 2
  = Some (lit "?!")
  /\ normalize_text (lit "?!") = []
  /\ exists st,
       Dice.prep_ (preprocessed [Some (lit "Hauptstr. 1")])
                  (preprocessed [Some (lit "Hauptstr. 1"); None;
                                 Some (lit "?!")])
       = Returned st
       /\ Dice.calculate_best_match st 2 = Returned (no_match (lit "?!")).
Proof.
  split; [reflexivity|]. split; [reflexivity|].
  destruct (Dice.prep_ (preprocessed [Some (lit "Hauptstr. 1")])
              (preprocessed [Some (lit "Hauptstr. 1"); None; Some (lit "?!")]))
    as [st|e] eqn:Hprep; [|vm_compute in Hprep; discriminate Hprep].
  exists st. split; [reflexivity|].
  refine (proj1 (proj2 (proj2
    (empty_normalized_query_has_no_match
       [Some (lit "Hauptstr. 1")]
       [Some (lit "Hauptstr. 1"); None; Some (lit "?!")] 2
       (orig := lit "?!") eq_refl eq_refl))) st Hprep).
Defined.

(** ** The edit distance *)

Lemma edit_distance_nil_r (s : text) : edit_distance s [] = List.length s.
Proof. now destruct s. Qed.

Lemma edit_distance_cons (a b : char) (s t : text) :
  edit_distance (a :: s) (b :: t)
  = Rapidfuzz.min3 (S (edit_distance s (b :: t))) (S (edit_distance (a :: s) t))
      (edit_distance s t + if Ascii.eqb a b then 0 else 1).
Proof. reflexivity. Qed.

Lemma next_row_recurrence (a : char) (p : text) (t2 : text) : forall t1 left,
  left = edit_distance (a :: p) (rev t1) ->
  Rapidfuzz.next_row a t2
    (map (fun q => edit_distance p (rev q)) (t1 :: longer_prefixes t1 t2)) left
  = map (fun q => edit_distance (a :: p) (rev q)) (longer_prefixes t1 t2).
Proof.
  induction t2 as [|b t2 IH]; intros t1 left Hleft; [reflexivity|].
  cbn [longer_prefixes map Rapidfuzz.next_row].
  assert (Hv : Rapidfuzz.min3 (S (edit_distance p (rev (t1 ++ [b])))) (S left)
                 (edit_distance p (rev t1) + if Ascii.eqb a b then 0 else 1)
               = edit_distance (a :: p) (rev (t1 ++ [b]))).
  { rewrite rev_unit, edit_distance_cons, Hleft. reflexivity. }
  rewrite Hv. f_equal.
  apply (IH (t1 ++ [b])). reflexivity.
Qed.

Lemma step_row_recurrence (t : text) (a : char) (p : text) :
  Rapidfuzz.step_row t
    (map (fun q => edit_distance p (rev q)) ([] :: longer_prefixes [] t)) a
  = map (fun q => edit_distance (a :: p) (rev q)) ([] :: longer_prefixes [] t).
Proof.
  unfold Rapidfuzz.step_row.
  change (hd 0%nat (map (fun q => edit_distance p (rev q))
                        ([] :: longer_prefixes [] t)))
    with (edit_distance p []).
  rewrite edit_distance_nil_r.
  change (map (fun q => edit_distance (a :: p) (rev q))
              ([] :: longer_prefixes [] t))
    with (edit_distance (a :: p) []
          :: map (fun q => edit_distance (a :: p) (rev q))
                 (longer_prefixes [] t)).
  rewrite edit_distance_nil_r. cbn [List.length]. f_equal.
  apply next_row_recurrence. cbn [rev]. now rewrite edit_distance_nil_r.
Qed.

Lemma fold_rows_recurrence (t s : text) : forall p,
  fold_left (Rapidfuzz.step_row t) s
    (map (fun q => edit_distance p (rev q)) ([] :: longer_prefixes [] t))
  = map (fun q => edit_distance (rev s ++ p) (rev q))
        ([] :: longer_prefixes [] t).
Proof.
  induction s as [|a s IH]; intros p; [reflexivity|].
  cbn [fold_left]. rewrite step_row_recurrence, IH.
  cbn [rev]. now rewrite <- app_assoc.
Qed.

Lemma length_longer_prefixes (t2 : text) : forall t1,
  map (@List.length char) (longer_prefixes t1 t2)
  = seq (S (List.length t1)) (List.length t2).
Proof.
  induction t2 as [|b t2 IH]; intros t1; [reflexivity|].
  cbn [longer_prefixes map List.length seq]. rewrite IH, length_app.
  cbn [List.length]. now rewrite Nat.add_1_r.
Qed.

Lemma last_longer_prefixes {B} (g : text -> B) (d : B) (t2 : text) :
  forall t1, last (map g (t1 :: longer_prefixes t1 t2)) d = g (t1 ++ t2).
Proof.
  induction t2 as [|b t2 IH]; intros t1.
  - cbn. now rewrite app_nil_r.
  - cbn [longer_prefixes].
    change (last (map g (t1 :: (t1 ++ [b]) :: longer_prefixes (t1 ++ [b]) t2)) d)
      with (last (map g ((t1 ++ [b]) :: longer_prefixes (t1 ++ [b]) t2)) d).
    rewrite IH. now rewrite <- app_assoc.
Qed.

(** The table computes the recurrence, read from the last characters. *)
Lemma distance_recurrence (s t : text) :
  Rapidfuzz.distance s t = edit_distance (rev s) (rev t).
Proof.
  unfold Rapidfuzz.distance.
  assert (H0 : seq 0 (S (List.length t))
               = map (fun q => edit_distance [] (rev q))
                     ([] :: longer_prefixes [] t)).
  { cbn [seq map rev edit_distance List.length]. f_equal.
    pose proof (length_longer_prefixes t []) as Hlen.
    cbn [List.length] in Hlen. rewrite <- Hlen.
    apply map_ext. intros q. now rewrite length_rev. }
  rewrite H0, fold_rows_recurrence, last_longer_prefixes.
  cbn [app]. now rewrite app_nil_r.
Qed.

Lemma edit_distance_sym (s : text) : forall t,
  edit_distance s t = edit_distance t s.
Proof.
  induction s as [|a s IHs]; intros t.
  - now rewrite edit_distance_nil_r.
  - induction t as [|b t IHt]; [now rewrite edit_distance_nil_r|].
    rewrite !edit_distance_cons, IHt, (IHs (b :: t)), (IHs t).
    unfold Rapidfuzz.min3.
    replace (Ascii.eqb b a) with (Ascii.eqb a b) by apply Ascii.eqb_sym.
    lia.
Qed.

Lemma edit_distance_zero (s : text) : forall t,
  edit_distance s t = 0%nat <-> s = t.
Proof.
  induction s as [|a s IH]; intros t.
  - cbn [edit_distance]. split; [intros H; now destruct t|now intros <-].
  - destruct t as [|b t]; [split; discriminate|].
    rewrite edit_distance_cons. unfold Rapidfuzz.min3. split.
    + intros H. destruct (Ascii.eqb a b) eqn:E; [|lia].
      apply Ascii.eqb_eq in E; subst b. f_equal. apply IH. lia.
    + intros H; injection H as <- <-. rewrite Ascii.eqb_refl.
      assert (edit_distance s s = 0%nat) by now apply IH. lia.
Qed.

Lemma distance_sym (s t : text) :
  Rapidfuzz.distance s t = Rapidfuzz.distance t s.
Proof. rewrite !distance_recurrence. apply edit_distance_sym. Qed.

Lemma distance_zero (s t : text) :
  Rapidfuzz.distance s t = 0%nat <-> s = t.
Proof.
  rewrite distance_recurrence, edit_distance_zero. split.
  - intros H. rewrite <- (rev_involutive s), <- (rev_involutive t). now f_equal.
  - now intros ->.
Qed.

Lemma normalized_similarity_sym (s t : text) :
  Rapidfuzz.normalized_similarity s t = Rapidfuzz.normalized_similarity t s.
Proof.
  unfold Rapidfuzz.normalized_similarity.
  now rewrite distance_sym, Nat.max_comm.
Qed.

Lemma normalized_similarity_one (s t : text) :
  (Rapidfuzz.normalized_similarity s t == 1)%Q <-> s = t.
Proof.
  unfold Rapidfuzz.normalized_similarity.
  pose proof (distance_zero s t) as Hz.
  destruct (Nat.max (List.length s) (List.length t)) as [|m] eqn:Em.
  - split; [intros _|reflexivity].
    destruct s, t; cbn in Em; try discriminate; reflexivity.
  - rewrite Qred_correct.
    set (d := Rapidfuzz.distance s t) in *.
    assert (Hm : (0 < inject_Z (Z.of_nat (S m)))%Q)
      by (change 0%Q with (inject_Z 0); rewrite <- Zlt_Qlt; lia).
    split.
    + intros H. apply Hz.
      assert (Hq : (inject_Z (Z.of_nat d) / inject_Z (Z.of_nat (S m)) == 0)%Q)
        by lra.
      destruct (Nat.eq_dec d 0) as [Hd|Hd]; [exact Hd|exfalso].
      assert (Hpos : (0 < inject_Z (Z.of_nat d) / inject_Z (Z.of_nat (S m)))%Q).
      { apply Qlt_shift_div_l; [exact Hm|]. rewrite Qmult_0_l.
        change 0%Q with (inject_Z 0). rewrite <- Zlt_Qlt. lia. }
      lra.
    + intros H. apply Hz in H. rewrite H. cbn [Z.of_nat].
      unfold Qdiv. rewrite Qmult_0_l. ring.
Qed.

(** ** [process.extractOne] *)

Lemma extractOne_from_spec (scorer : text -> text -> Q) (query : text)
    (choices : list text) : forall key best c s k,
  Rapidfuzz.extractOne_from scorer query choices key best = Some (c, s, k) ->
  (best = Some (c, s, k)
   /\ forall d, In d choices -> (scorer query d <= s)%Q)
  \/ ((key <= k)%nat
      /\ nth_error choices (k - key) = Some c
      /\ s = scorer query c
      /\ (forall d, In d choices -> (scorer query d <= s)%Q)
      /\ (forall j d, (j < k - key)%nat -> nth_error choices j = Some d ->
                      (scorer query d < s)%Q)
      /\ (forall bc bs bk, best = Some (bc, bs, bk) -> (bs < s)%Q)).
Proof.
  induction choices as [|c0 rest IH]; intros key best c s k H;
    cbn [Rapidfuzz.extractOne_from] in H.
  - left. split; [exact H|intros d []].
  - apply IH in H.
    destruct best as [[[bc bs] bk]|].
    + destruct (Qle_bool (scorer query c0) bs) eqn:E.
      * apply Qle_bool_iff in E.
        destruct H as [[Hb Hall]|(Hk & Hn & Hs & Hall & Hfirst & Hbest)].
        -- left. split; [exact Hb|]. injection Hb as <- <- <-.
           intros d [<-|Hd]; [exact E|now apply Hall].
        -- right. pose proof (Hbest _ _ _ eq_refl) as Hlt.
           split; [lia|]. split.
           { replace (k - key)%nat with (S (k - S key)) by lia. exact Hn. }
           split; [exact Hs|]. split; [|split].
           ++ intros d [<-|Hd]; [|now apply Hall].
              apply Qlt_le_weak. now apply Qle_lt_trans with bs.
           ++ intros j d Hj Hd. destruct j as [|j].
              ** injection Hd as <-. now apply Qle_lt_trans with bs.
              ** apply (Hfirst j); [lia|exact Hd].
           ++ intros bc' bs' bk' Heq. injection Heq as <- <- <-. exact Hlt.
      * assert (Hlt0 : (bs < scorer query c0)%Q).
        { apply Qnot_le_lt. intros Hle. apply Qle_bool_iff in Hle. congruence. }
        destruct H as [[Hb Hall]|(Hk & Hn & Hs & Hall & Hfirst & Hbest)].
        -- right. injection Hb as <- <- <-.
           split; [lia|]. rewrite Nat.sub_diag.
           split; [reflexivity|]. split; [reflexivity|]. split; [|split].
           ++ intros d [<-|Hd]; [apply Qle_refl|now apply Hall].
           ++ intros j d Hj. lia.
           ++ intros bc' bs' bk' Heq. injection Heq as <- <- <-. exact Hlt0.
        -- right. pose proof (Hbest _ _ _ eq_refl) as Hlt.
           split; [lia|]. split.
           { replace (k - key)%nat with (S (k - S key)) by lia. exact Hn. }
           split; [exact Hs|]. split; [|split].
           ++ intros d [<-|Hd]; [now apply Qlt_le_weak|now apply Hall].
           ++ intros j d Hj Hd. destruct j as [|j].
              ** injection Hd as <-. exact Hlt.
              ** apply (Hfirst j); [lia|exact Hd].
           ++ intros bc' bs' bk' Heq. injection Heq as <- <- <-.
              now apply Qlt_trans with (scorer query c0).
    + destruct H as [[Hb Hall]|(Hk & Hn & Hs & Hall & Hfirst & Hbest)].
      * right. injection Hb as <- <- <-.
        split; [lia|]. rewrite Nat.sub_diag.
        split; [reflexivity|]. split; [reflexivity|]. split; [|split].
        -- intros d [<-|Hd]; [apply Qle_refl|now apply Hall].
        -- intros j d Hj. lia.
        -- intros bc' bs' bk' Heq. discriminate Heq.
      * right. pose proof (Hbest _ _ _ eq_refl) as Hlt.
        split; [lia|]. split.
        { replace (k - key)%nat with (S (k - S key)) by lia. exact Hn. }
        split; [exact Hs|]. split; [|split].
        -- intros d [<-|Hd]; [now apply Qlt_le_weak|now apply Hall].
        -- intros j d Hj Hd. destruct j as [|j].
           ++ injection Hd as <-. exact Hlt.
           ++ apply (Hfirst j); [lia|exact Hd].
        -- intros bc' bs' bk' Heq. discriminate Heq.
Qed.

Lemma extractOne_from_none (scorer : text -> text -> Q) (query : text)
    (choices : list text) : forall key best,
  Rapidfuzz.extractOne_from scorer query choices key best = None ->
  best = None /\ choices = [].
Proof.
  induction choices as [|c0 rest IH]; intros key best H;
    cbn [Rapidfuzz.extractOne_from] in H; [now split|].
  apply IH in H as [H _]. destruct best as [[[bc bs] bk]|].
  - destruct (Qle_bool _ _); discriminate H.
  - discriminate H.
Qed.

(** [extractOne] returns the first choice of the highest score. *)
Lemma extractOne_spec (scorer : text -> text -> Q) (query : text)
    (choices : list text) (c : text) (s : Q) (k : nat) :
  Rapidfuzz.extractOne scorer query choices = Some (c, s, k) ->
  nth_error choices k = Some c
  /\ s = scorer query c
  /\ (forall d, In d choices -> (scorer query d <= s)%Q)
  /\ (forall j d, (j < k)%nat -> nth_error choices j = Some d ->
                  (scorer query d < s)%Q).
Proof.
  unfold Rapidfuzz.extractOne. intros H.
  apply extractOne_from_spec in H
    as [[Hb _]|(_ & Hn & Hs & Hall & Hfirst & _)]; [discriminate Hb|].
  rewrite Nat.sub_0_r in *. repeat split; trivial.
Qed.

(** ** The edit-distance module *)

(** What [__calculate_best_match] returns, case by case. *)
Lemma levenshtein_calculate_spec (st : Levenshtein.state) (idx : nat)
    (r : MatchResult) :
  Levenshtein.calculate_best_match st idx = Returned r ->
  exists orig norm,
    nth_error (Levenshtein.match_original_series st) idx = Some orig
    /\ nth_error (Levenshtein.match_norm_series st) idx = Some norm
    /\ (((strip norm = [] \/ Levenshtein.data_norm_series st = [])
         /\ r = no_match orig)
        \/ exists k d o,
             strip norm <> []
             /\ nth_error (Levenshtein.data_norm_series st) k = Some d
             /\ nth_error (Levenshtein.data_original_series st) k = Some o
             /\ r = {| MATCH := orig; BEST_FOUND_MATCH := Some o;
                       TRUE_MATCH := None;
                       BEST_MATCH :=
                         PyFloat (Rapidfuzz.normalized_similarity
                                    (strip norm) d) |}
             /\ (forall d', In d' (Levenshtein.data_norm_series st) ->
                   (Rapidfuzz.normalized_similarity (strip norm) d'
                    <= Rapidfuzz.normalized_similarity (strip norm) d)%Q)
             /\ (forall j d', (j < k)%nat ->
                   nth_error (Levenshtein.data_norm_series st) j = Some d' ->
                   (Rapidfuzz.normalized_similarity (strip norm) d'
                    < Rapidfuzz.normalized_similarity (strip norm) d)%Q)).
Proof.
  unfold Levenshtein.calculate_best_match.
  destruct (iloc (Levenshtein.match_original_series st) idx) as [orig|] eqn:Ho;
    [|discriminate].
  destruct (iloc (Levenshtein.match_norm_series st) idx) as [norm|] eqn:Hn;
    [|discriminate].
  cbn [bind]. apply iloc_returned in Ho, Hn.
  intros H. exists orig, norm. split; [exact Ho|split; [exact Hn|]].
  destruct (strip norm) as [|c0 q] eqn:Hq; cbn [is_empty] in H.
  { injection H as <-. left. split; [now left|reflexivity]. }
  destruct (Rapidfuzz.extractOne Rapidfuzz.normalized_similarity (c0 :: q)
              (Levenshtein.data_norm_series st)) as [[[c s] k]|] eqn:E.
  - destruct (iloc (Levenshtein.data_original_series st) k) as [o|] eqn:Hk;
      [|discriminate].
    cbn [bind] in H. injection H as <-. apply iloc_returned in Hk.
    apply extractOne_spec in E as (Hc & Hs & Hall & Hfirst).
    right. exists k, c, o. subst s. repeat split; trivial. discriminate.
  - injection H as <-. left. split; [right|reflexivity].
    unfold Rapidfuzz.extractOne in E. now apply extractOne_from_none in E.
Qed.

(** X4: the edit-distance module reports the first reference of the
    highest similarity to the stripped normalized query, with that
    similarity: no reference scores higher and every earlier one scores
    strictly lower. *)
Theorem levenshtein_best_match_is_first_maximum (st : Levenshtein.state)
    (idx : nat) (r : MatchResult) (norm o : text) :
  Levenshtein.calculate_best_match st idx = Returned r ->
  nth_error (Levenshtein.match_norm_series st) idx = Some norm ->
  BEST_FOUND_MATCH r = Some o ->
  exists k d,
    nth_error (Levenshtein.data_norm_series st) k = Some d
    /\ nth_error (Levenshtein.data_original_series st) k = Some o
    /\ BEST_MATCH r = PyFloat (Rapidfuzz.normalized_similarity (strip norm) d)
    /\ (forall d', In d' (Levenshtein.data_norm_series st) ->
          (Rapidfuzz.normalized_similarity (strip norm) d'
           <= Rapidfuzz.normalized_similarity (strip norm) d)%Q)
    /\ (forall j d', (j < k)%nat ->
          nth_error (Levenshtein.data_norm_series st) j = Some d' ->
          (Rapidfuzz.normalized_similarity (strip norm) d'
           < Rapidfuzz.normalized_similarity (strip norm) d)%Q).
Proof.
  intros Hcalc Hnorm Hbest.
  apply levenshtein_calculate_spec in Hcalc
    as (orig & norm' & _ & Hn & [[_ ->]|(k & d & o' & _ & Hd & Ho & -> & Hall & Hfirst)]).
  - discriminate Hbest.
  - rewrite Hnorm in Hn; injection Hn as <-.
    cbn [BEST_FOUND_MATCH] in Hbest; injection Hbest as ->.
    exists k, d. repeat split; trivial.
Qed.

Lemma levenshtein_best_match_is_first_maximum_witness :
  exists st r,
    Levenshtein.prep_ (preprocessed [Some Goethestrasse; Some Schlossstrasse;
                                     Some Schlossstrasse])
                      (preprocessed [Some Schlossstr])
    = Returned st
    /\ Levenshtein.calculate_best_match st 0 = Returned r
    /\ exists k d,
         nth_error (Levenshtein.data_norm_series st) k = Some d
         /\ k = 1%nat
         /\ BEST_MATCH r
            = PyFloat (Rapidfuzz.normalized_similarity
                         (strip (lit "schlossstr")) d).
Proof.
  eexists. eexists. split; [reflexivity|].
  split; [vm_compute; reflexivity|].
  destruct (@levenshtein_best_match_is_first_maximum
              {| Levenshtein.match_norm_series := [lit "schlossstr"];
                 Levenshtein.match_original_series := [Schlossstr];
                 Levenshtein.data_norm_series :=
                   [lit "goethestrasse"; lit "schlossstrasse";
                    lit "schlossstrasse"];
                 Levenshtein.data_original_series :=
                   [Goethestrasse; Schlossstrasse; Schlossstrasse];
                 Levenshtein.indices := [0%nat] |}
              0%nat
              {| MATCH := Schlossstr; BEST_FOUND_MATCH := Some Schlossstrasse;
                 TRUE_MATCH := None; BEST_MATCH := PyFloat (5 # 7) |}
              (lit "schlossstr") Schlossstrasse)
    as (k & d & Hd & Ho & Hs & Hall & Hfirst);
    [vm_compute; reflexivity|reflexivity|reflexivity|].
  exists k, d. split; [exact Hd|]. split; [|exact Hs].
  destruct k as [|[|[|k]]]; [| reflexivity | | ].
  - vm_compute in Ho. discriminate Ho.
  - exfalso. specialize (Hfirst 1%nat (lit "schlossstrasse")).
    cbn in Hd. injection Hd as <-.
    assert (H : (Rapidfuzz.normalized_similarity (strip (lit "schlossstr"))
                   (lit "schlossstrasse")
                 < Rapidfuzz.normalized_similarity (strip (lit "schlossstr"))
                     (lit "schlossstrasse"))%Q)
      by (apply Hfirst; [lia|reflexivity]).
    now apply Qlt_irrefl in H.
  - destruct k; discriminate Hd.
Defined.

(** X5: when some reference has the stripped normalized query as its
    normalized text, the edit-distance module reports the first such
    reference, with a score equal to 1; and a score equal to 1 is reported
    only in that case. *)
Theorem levenshtein_exact_match (st : Levenshtein.state) (idx : nat)
    (r : MatchResult) (norm : text) :
  Levenshtein.calculate_best_match st idx = Returned r ->
  nth_error (Levenshtein.match_norm_series st) idx = Some norm ->
  strip norm <> [] ->
  (In (strip norm) (Levenshtein.data_norm_series st) ->
   exists k o s,
     nth_error (Levenshtein.data_norm_series st) k = Some (strip norm)
     /\ (forall j, (j < k)%nat ->
           nth_error (Levenshtein.data_norm_series st) j <> Some (strip norm))
     /\ nth_error (Levenshtein.data_original_series st) k = Some o
     /\ BEST_FOUND_MATCH r = Some o
     /\ BEST_MATCH r = PyFloat s /\ (s == 1)%Q)
  /\ (forall s, BEST_MATCH r = PyFloat s -> (s == 1)%Q ->
        In (strip norm) (Levenshtein.data_norm_series st)).
Proof.
  intros Hcalc Hnorm Hq.
  apply levenshtein_calculate_spec in Hcalc
    as (orig & norm' & _ & Hn & Hcases).
  rewrite Hnorm in Hn; injection Hn as <-.
  destruct Hcases as [[[H|H] ->]|(k & d & o & _ & Hd & Ho & -> & Hall & Hfirst)].
  - contradiction.
  - split; [rewrite H; intros []|intros s Hs; discriminate Hs].
  - split.
    + intros Hin.
      assert (H1 : (Rapidfuzz.normalized_similarity (strip norm) d == 1)%Q).
      { apply Qle_antisym.
        - apply normalized_similarity_unit.
        - apply Qle_trans
            with (Rapidfuzz.normalized_similarity (strip norm) (strip norm));
            [|now apply Hall].
          assert (Rapidfuzz.normalized_similarity (strip norm) (strip norm)
                  == 1)%Q by now apply normalized_similarity_one.
          lra. }
      assert (Heq : strip norm = d) by now apply normalized_similarity_one.
      exists k, o, (Rapidfuzz.normalized_similarity (strip norm) d).
      split; [now rewrite Heq|]. split; [|repeat split; trivial].
      intros j Hj Hdj. specialize (Hfirst j (strip norm) Hj Hdj).
      assert (Rapidfuzz.normalized_similarity (strip norm) (strip norm) == 1)%Q
        by now apply normalized_similarity_one.
      lra.
    + intros s Hs H1. cbn [BEST_MATCH] in Hs. injection Hs as <-.
      apply normalized_similarity_one in H1. rewrite H1.
      eapply nth_error_In. exact Hd.
Qed.

Lemma levenshtein_exact_match_witness :
  let st := {| Levenshtein.match_norm_series := [lit "goethestrasse"];
               Levenshtein.match_original_series := [lit "Goethestrasse."];
               Levenshtein.data_norm_series :=
                 [lit "schlossstrasse"; lit "goethestrasse"];
               Levenshtein.data_original_series :=
                 [Schlossstrasse; Goethestrasse];
               Levenshtein.indices := [0%nat] |} in
  exists r,
    Levenshtein.calculate_best_match st 0 = Returned r
    /\ BEST_FOUND_MATCH r = Some Goethestrasse
    /\ exists k o s,
         nth_error (Levenshtein.data_norm_series st) k
         = Some (strip (lit "goethestrasse"))
         /\ BEST_FOUND_MATCH r = Some o
         /\ BEST_MATCH r = PyFloat s /\ (s == 1)%Q.
Proof.
  intros st.
  destruct (Levenshtein.calculate_best_match st 0) as [r|e] eqn:Hcalc;
    [|vm_compute in Hcalc; discriminate Hcalc].
  exists r. split; [reflexivity|].
  split; [vm_compute in Hcalc; injection Hcalc as <-; reflexivity|].
  assert (Hn : nth_error (Levenshtein.match_norm_series st) 0
               = Some (lit "goethestrasse")) by reflexivity.
  assert (Hq : strip (lit "goethestrasse") <> []) by (vm_compute; discriminate).
  assert (Hin : In (strip (lit "goethestrasse"))
                   (Levenshtein.data_norm_series st))
    by (vm_compute; tauto).
  destruct (proj1 (levenshtein_exact_match st 0 Hcalc Hn Hq) Hin)
    as (k & o & s & Hk & _ & _ & Hb & Hs & H1).
  exists k, o, s. repeat split; trivial.
Defined.

(** X6: the edit-distance score is symmetric: matching the stripped text
    [q] against the single reference [r] and matching [r] against the
    single reference [q] report the same score. *)
Theorem levenshtein_score_symmetric (q r q_original r_original : text) :
  strip q = q -> strip r = r -> q <> [] -> r <> [] ->
  exists s,
    (st <- Levenshtein.prep_ ([0%nat], [r], [r_original])
                             ([0%nat], [q], [q_original]) ;;
     Levenshtein.calculate_best_match st 0)
    = Returned {| MATCH := q_original; BEST_FOUND_MATCH := Some r_original;
                  TRUE_MATCH := None; BEST_MATCH := PyFloat s |}
    /\ (st <- Levenshtein.prep_ ([0%nat], [q], [q_original])
                                ([0%nat], [r], [r_original]) ;;
        Levenshtein.calculate_best_match st 0)
       = Returned {| MATCH := r_original; BEST_FOUND_MATCH := Some q_original;
                     TRUE_MATCH := None; BEST_MATCH := PyFloat s |}.
Proof.
  intros Hq Hr Hq0 Hr0.
  exists (Rapidfuzz.normalized_similarity q r).
  cbn [Levenshtein.prep_ bind]. unfold Levenshtein.calculate_best_match.
  cbn [Levenshtein.match_original_series Levenshtein.match_norm_series
       Levenshtein.data_norm_series Levenshtein.data_original_series
       iloc nth_error bind].
  rewrite Hq, Hr.
  destruct q as [|a q]; [contradiction|]. destruct r as [|b r]; [contradiction|].
  cbn [is_empty Rapidfuzz.extractOne Rapidfuzz.extractOne_from iloc nth_error
       bind].
  split; [reflexivity|]. now rewrite (normalized_similarity_sym (b :: r)).
Qed.

Lemma levenshtein_score_symmetric_witness :
  strip (lit "schlossstr") = lit "schlossstr"
  /\ strip (lit "schlossstrasse") = lit "schlossstrasse"
  /\ exists s,
       (st <- Levenshtein.prep_ ([0%nat], [lit "schlossstrasse"], [Schlossstrasse])
                                ([0%nat], [lit "schlossstr"], [Schlossstr]) ;;
        Levenshtein.calculate_best_match st 0)
       = Returned {| MATCH := Schlossstr;
                     BEST_FOUND_MATCH := Some Schlossstrasse;
                     TRUE_MATCH := None; BEST_MATCH := PyFloat s |}
       /\ (st <- Levenshtein.prep_ ([0%nat], [lit "schlossstr"], [Schlossstr])
                                   ([0%nat], [lit "schlossstrasse"],
                                    [Schlossstrasse]) ;;
           Levenshtein.calculate_best_match st 0)
          = Returned {| MATCH := Schlossstrasse;
                        BEST_FOUND_MATCH := Some Schlossstr;
                        TRUE_MATCH := None; BEST_MATCH := PyFloat s |}.
Proof.
  split; [reflexivity|]. split; [reflexivity|].
  apply levenshtein_score_symmetric;
    [reflexivity|reflexivity|discriminate|discriminate].
Defined.

(** ** Tables with one row per query *)

Lemma tasks_all_return (calc : nat -> outcome MatchResult) (order : list nat) :
  (forall idx, In idx order -> returned (calc idx) = true) ->
  Executor.perform_matching calc order
  = {| Executor.results := map (result_of calc) order;
       Executor.printed := [] |}.
Proof.
  intros H. apply all_returned. intros idx Hidx. specialize (H idx Hidx).
  unfold result_of. destruct (calc idx); [reflexivity|discriminate H].
Qed.

Lemma levenshtein_task_returns (data_col match_col : list (option text))
    (idx : nat) (st : Levenshtein.state) :
  Levenshtein.prep_ (preprocessed data_col) (preprocessed match_col)
  = Returned st ->
  (idx < List.length match_col)%nat ->
  exists r, Levenshtein.calculate_best_match st idx = Returned r
            /\ MATCH r = nth idx (fillna match_col) ([] : text).
Proof.
  rewrite !preprocessed_series. intros Hprep Hidx. injection Hprep as <-.
  assert (Hlt : (idx < List.length (fillna match_col))%nat)
    by now rewrite length_fillna.
  match goal with
  | |- exists r, ?calc = Returned r /\ _ =>
      enough (H : match calc with
                  | Returned r => MATCH r = nth idx (fillna match_col) ([] : text)
                  | Raised _ => False
                  end);
      [destruct calc as [r|]; [now exists r|contradiction]|]
  end.
  unfold Levenshtein.calculate_best_match;
    cbn [Levenshtein.match_original_series Levenshtein.match_norm_series
         Levenshtein.data_norm_series Levenshtein.data_original_series].
  rewrite (iloc_nth_error _ _ (nth_error_nth' (fillna match_col) ([] : text) Hlt)).
  rewrite (iloc_nth_error _ _
             (map_nth_error normalize_text _ _ (nth_error_nth' (fillna match_col) ([] : text) Hlt))).
  cbn [bind].
  destruct (is_empty _); [reflexivity|].
  destruct (Rapidfuzz.extractOne _ _ _) as [[[c s] k]|] eqn:E; [|reflexivity].
  apply extractOne_spec in E as (Hc & _).
  assert (Hk : (k < List.length (fillna data_col))%nat).
  { rewrite <- (length_map normalize_text). apply nth_error_Some. congruence. }
  rewrite (iloc_nth_error _ _ (nth_error_nth' (fillna data_col) ([] : text) Hk)). cbn [bind].
  reflexivity.
Qed.

(** X7: whatever the corpus and the queries, no task of the edit-distance
    module raises: nothing is printed, and the table has one row for every
    query, in completion order. *)
Theorem levenshtein_one_row_per_query
    (data_col match_col : list (option text)) (completion : list nat) :
  match_col <> [] ->
  Permutation completion (seq 0 (List.length match_col)) ->
  exists st rows,
    Levenshtein.prep_ (preprocessed data_col) (preprocessed match_col)
    = Returned st
    /\ Executor.printed (Levenshtein.perform_matching st completion) = []
    /\ Main.match_column Main.levenshtein data_col match_col completion
       = Returned rows
    /\ List.length rows = List.length match_col
    /\ map (fun row : row => MATCH (fst row)) rows
       = map (fun idx => nth idx (fillna match_col) []) completion.
Proof.
  intros Hne Hperm.
  destruct (Levenshtein.prep_ (preprocessed data_col) (preprocessed match_col))
    as [st|] eqn:Hprep; [|discriminate Hprep].
  assert (Hret : forall idx, In idx completion ->
            exists r, Levenshtein.calculate_best_match st idx = Returned r
                      /\ MATCH r = nth idx (fillna match_col) []).
  { intros idx Hidx. apply (Permutation_in _ Hperm), in_seq in Hidx.
    apply (@levenshtein_task_returns data_col match_col idx st Hprep). lia. }
  assert (Hrun : Levenshtein.perform_matching st completion
                 = {| Executor.results :=
                        map (result_of (Levenshtein.calculate_best_match st))
                            completion;
                      Executor.printed := [] |}).
  { apply tasks_all_return. intros idx Hidx.
    destruct (Hret idx Hidx) as (r & -> & _). reflexivity. }
  assert (Hlen : List.length completion = List.length match_col)
    by (rewrite (Permutation_length Hperm); apply length_seq).
  assert (Hmc : Main.match_column Main.levenshtein data_col match_col completion
                = classify Levenshtein.NAME
                    (map (result_of (Levenshtein.calculate_best_match st))
                         completion)).
  { unfold Main.match_column.
    cbn [Main.prep_ Main.levenshtein Main.perform_matching
         Main.export_results].
    rewrite Hprep; cbn [bind]. now rewrite Hrun. }
  exists st. rewrite Hmc, Hrun. cbn [Executor.printed].
  destruct completion as [|i0 completion].
  { destruct match_col; [contradiction|discriminate Hlen]. }
  eexists. split; [reflexivity|]. split; [reflexivity|].
  split; [reflexivity|]. split.
  - rewrite !length_map. exact Hlen.
  - rewrite map_map. cbn [fst]. rewrite map_map. apply map_ext_in.
    intros idx Hidx. destruct (Hret idx Hidx) as (r & Hr & Hm).
    unfold result_of. now rewrite Hr.
Qed.

Lemma levenshtein_one_row_per_query_witness :
  [Some Schlossstr; None] <> []
  /\ Permutation [1; 0]%nat (seq 0 (List.length [Some Schlossstr; None]))
  /\ exists rows,
       Main.match_column Main.levenshtein [] [Some Schlossstr; None] [1; 0]%nat
       = Returned rows
       /\ List.length rows = 2%nat.
Proof.
  assert (Hne : [Some Schlossstr; None] <> []) by discriminate.
  assert (Hperm : Permutation [1; 0]%nat
                    (seq 0 (List.length [Some Schlossstr; None])))
    by apply perm_swap.
  split; [exact Hne|]. split; [exact Hperm|].
  destruct (levenshtein_one_row_per_query [] Hne Hperm)
    as (st & rows & _ & _ & Hrows & Hlen & _).
  exists rows. split; [exact Hrows|exact Hlen].
Defined.

(** ** [max] and [argmax] together *)

Lemma argmax_max_from (l : list Q) : forall best besti i,
  (Numpy.argmax_from best besti i l = besti
   /\ Numpy.max_from best l = best
   /\ forall y, In y l -> (y <= best)%Q)
  \/ ((i <= Numpy.argmax_from best besti i l)%nat
      /\ nth_error l (Numpy.argmax_from best besti i l - i)
         = Some (Numpy.max_from best l)
      /\ (best < Numpy.max_from best l)%Q
      /\ (forall y, In y l -> (y <= Numpy.max_from best l)%Q)
      /\ (forall j y, (j < Numpy.argmax_from best besti i l - i)%nat ->
                      nth_error l j = Some y ->
                      (y < Numpy.max_from best l)%Q)).
Proof.
  induction l as [|x l IH]; intros best besti i;
    cbn [Numpy.argmax_from Numpy.max_from].
  - left. repeat split. intros y [].
  - destruct (Qle_bool x best) eqn:E.
    + apply Qle_bool_iff in E.
      destruct (IH best besti (S i))
        as [(Hk & Hm & Hall)|(Hi & Hn & Hb & Hall & Hfirst)].
      * left. repeat split; trivial.
        intros y [<-|Hy]; [exact E|now apply Hall].
      * right. split; [lia|]. split; [|split; [exact Hb|split]].
        -- replace (Numpy.argmax_from best besti (S i) l - i)%nat
             with (S (Numpy.argmax_from best besti (S i) l - S i)) by lia.
           exact Hn.
        -- intros y [<-|Hy]; [|now apply Hall].
           apply Qlt_le_weak. now apply Qle_lt_trans with best.
        -- intros j y Hj Hy. destruct j as [|j].
           ++ injection Hy as <-. now apply Qle_lt_trans with best.
           ++ apply (Hfirst j); [lia|exact Hy].
    + assert (Hlt : (best < x)%Q).
      { apply Qnot_le_lt. intros H. apply Qle_bool_iff in H. congruence. }
      destruct (IH x i (S i))
        as [(Hk & Hm & Hall)|(Hi & Hn & Hb & Hall & Hfirst)].
      * right. rewrite Hk, Hm, Nat.sub_diag. split; [lia|].
        split; [reflexivity|]. split; [exact Hlt|]. split.
        -- intros y [<-|Hy]; [apply Qle_refl|now apply Hall].
        -- intros j y Hj. lia.
      * right. split; [lia|]. split; [|split; [|split]].
        -- replace (Numpy.argmax_from x i (S i) l - i)%nat
             with (S (Numpy.argmax_from x i (S i) l - S i)) by lia.
           exact Hn.
        -- now apply Qlt_trans with x.
        -- intros y [<-|Hy]; [now apply Qlt_le_weak|now apply Hall].
        -- intros j y Hj Hy. destruct j as [|j].
           ++ injection Hy as <-. exact Hb.
           ++ apply (Hfirst j); [lia|exact Hy].
Qed.

(** The position [argmax] returns holds the value [max] returns, and it is
    the first position that does. *)
Lemma argmax_is_first_max (a : list Q) (k : nat) (m : Q) :
  Numpy.argmax a = Returned k ->
  Numpy.max a = Returned m ->
  nth_error a k = Some m
  /\ (forall y, In y a -> (y <= m)%Q)
  /\ (forall j y, (j < k)%nat -> nth_error a j = Some y -> (y < m)%Q).
Proof.
  destruct a as [|x l]; [discriminate|]. cbn [Numpy.argmax Numpy.max].
  intros Hk Hm; injection Hk as <-; injection Hm as <-.
  destruct (argmax_max_from l x 0%nat 1%nat)
    as [(Hk & Hm & Hall)|(Hi & Hn & Hb & Hall & Hfirst)].
  - rewrite Hk, Hm. split; [reflexivity|]. split.
    + intros y [<-|Hy]; [apply Qle_refl|now apply Hall].
    + intros j y Hj. lia.
  - destruct (Numpy.argmax_from x 0 1 l) as [|k'] eqn:Ek; [lia|].
    replace (S k' - 1)%nat with k' in * by lia.
    split; [exact Hn|]. split.
    + intros y [<-|Hy]; [now apply Qlt_le_weak|now apply Hall].
    + intros j y Hj Hy. destruct j as [|j].
      * injection Hy as <-. exact Hb.
      * apply (Hfirst j); [lia|exact Hy].
Qed.

Lemma argmax_returns (a : list Q) :
  a <> [] ->
  exists k m, Numpy.argmax a = Returned k /\ Numpy.max a = Returned m
              /\ (k < List.length a)%nat.
Proof.
  intros Ha. destruct a as [|x l]; [contradiction|].
  eexists; eexists. split; [reflexivity|]. split; [reflexivity|].
  destruct (@argmax_is_first_max (x :: l) _ _ eq_refl eq_refl) as (Hn & _).
  apply nth_error_Some. congruence.
Qed.

(** ** The token-overlap module *)

Lemma length_jaccard_similarities (data_vectors : Numpy.matrix)
    (match_vector : Numpy.vector) :
  List.length (Jaccard.jaccard_similarities data_vectors match_vector)
  = List.length data_vectors.
Proof.
  unfold Jaccard.jaccard_similarities, Numpy.sum_axis1, Numpy.multiply.
  induction data_vectors as [|u dv IH]; [reflexivity|].
  cbn [map combine List.length]. now rewrite IH.
Qed.

Lemma fit_nonempty an bin (docs : list text) v :
  Sklearn.fit an bin docs = Returned v -> docs <> [].
Proof. intros H ->. discriminate H. Qed.

Lemma jaccard_prep_state (data_index match_index : list nat)
    (data_norm data_original match_norm match_original : list text)
    (st : Jaccard.state) :
  Jaccard.prep_ (data_index, data_norm, data_original)
                (match_index, match_norm, match_original) = Returned st ->
  exists v,
    Sklearn.fit Sklearn.word_analyzer true data_norm = Returned v
    /\ st = {| Jaccard.match_norm_series := match_norm;
               Jaccard.match_original_series := match_original;
               Jaccard.data_original_series := data_original;
               Jaccard.data_vectors := Sklearn.transform v data_norm;
               Jaccard.vectorizer := v;
               Jaccard.indices := match_index |}.
Proof.
  unfold Jaccard.prep_. intros H.
  destruct (Sklearn.fit Sklearn.word_analyzer true data_norm) as [v|];
    [|discriminate H].
  cbn [bind] in H. injection H as <-. now exists v.
Qed.

(** What [__calculate_best_match] returns, case by case: the score comes
    from [max()], the reference from [argmax()]. *)
Lemma jaccard_calculate_spec (st : Jaccard.state) (idx : nat)
    (r : MatchResult) :
  Jaccard.calculate_best_match st idx = Returned r ->
  exists orig norm,
    nth_error (Jaccard.match_original_series st) idx = Some orig
    /\ nth_error (Jaccard.match_norm_series st) idx = Some norm
    /\ ((strip norm = [] /\ r = no_match orig)
        \/ exists k s o,
             strip norm <> []
             /\ nth_error
                  (Jaccard.jaccard_similarities (Jaccard.data_vectors st)
                     (Sklearn.transform_one (Jaccard.vectorizer st)
                                            (strip norm))) k = Some s
             /\ nth_error (Jaccard.data_original_series st) k = Some o
             /\ r = {| MATCH := orig; BEST_FOUND_MATCH := Some o;
                       TRUE_MATCH := None; BEST_MATCH := PyFloat s |}
             /\ (forall y,
                   In y (Jaccard.jaccard_similarities (Jaccard.data_vectors st)
                           (Sklearn.transform_one (Jaccard.vectorizer st)
                                                  (strip norm))) ->
                   (y <= s)%Q)
             /\ (forall j y, (j < k)%nat ->
                   nth_error
                     (Jaccard.jaccard_similarities (Jaccard.data_vectors st)
                        (Sklearn.transform_one (Jaccard.vectorizer st)
                                               (strip norm))) j = Some y ->
                   (y < s)%Q)).
Proof.
  unfold Jaccard.calculate_best_match.
  destruct (iloc (Jaccard.match_original_series st) idx) as [orig|] eqn:Ho;
    [|discriminate].
  destruct (iloc (Jaccard.match_norm_series st) idx) as [norm|] eqn:Hn;
    [|discriminate].
  cbn [bind]. apply iloc_returned in Ho, Hn.
  intros H. exists orig, norm. split; [exact Ho|split; [exact Hn|]].
  destruct (is_empty (strip norm)) eqn:Hq.
  { injection H as <-. left. split; [|reflexivity].
    now destruct (strip norm). }
  set (sims := Jaccard.jaccard_similarities _ _) in *.
  destruct (Numpy.max sims) as [m|] eqn:Hmax; [|discriminate H].
  cbn [bind] in H.
  destruct (Numpy.argmax sims) as [k|] eqn:Hk; [|discriminate H].
  cbn [bind] in H.
  destruct (iloc (Jaccard.data_original_series st) k) as [o|] eqn:Hok;
    [|discriminate H].
  cbn [bind] in H. injection H as <-. apply iloc_returned in Hok.
  destruct (argmax_is_first_max _ Hk Hmax) as (Hnth & Hall & Hfirst).
  right. exists k, m, o. repeat split; trivial.
  intros E; rewrite E in Hq; discriminate Hq.
Qed.

(** X8: the score the Jaccard module reports, taken with [max()], is the
    similarity of the reference it reports, taken with [argmax()]: the
    first reference of the highest similarity. *)
Theorem jaccard_best_match_is_first_maximum (st : Jaccard.state) (idx : nat)
    (r : MatchResult) (norm o : text) :
  Jaccard.calculate_best_match st idx = Returned r ->
  nth_error (Jaccard.match_norm_series st) idx = Some norm ->
  BEST_FOUND_MATCH r = Some o ->
  let similarities :=
    Jaccard.jaccard_similarities (Jaccard.data_vectors st)
      (Sklearn.transform_one (Jaccard.vectorizer st) (strip norm)) in
  exists k s,
    nth_error similarities k = Some s
    /\ nth_error (Jaccard.data_original_series st) k = Some o
    /\ BEST_MATCH r = PyFloat s
    /\ (forall y, In y similarities -> (y <= s)%Q)
    /\ (forall j y, (j < k)%nat -> nth_error similarities j = Some y ->
                    (y < s)%Q).
Proof.
  intros Hcalc Hnorm Hbest similarities. subst similarities.
  apply jaccard_calculate_spec in Hcalc
    as (orig & norm' & _ & Hn
        & [[_ ->]|(k & s & o' & _ & Hs & Ho & -> & Hall & Hfirst)]).
  - discriminate Hbest.
  - rewrite Hnorm in Hn; injection Hn as <-.
    cbn [BEST_FOUND_MATCH] in Hbest; injection Hbest as ->.
    exists k, s. repeat split; trivial.
Qed.

Lemma jaccard_best_match_is_first_maximum_witness :
  Jaccard.prep_ (preprocessed [Some (lit "Goethe Weg"); Some (lit "Am Markt");
                               Some (lit "Markt")])
                (preprocessed [Some (lit "Am Markt 5")])
  = Returned jaccard_markt_state
  /\ exists r k s,
       Jaccard.calculate_best_match jaccard_markt_state 0 = Returned r
       /\ BEST_FOUND_MATCH r = Some (lit "Am Markt")
       /\ nth_error (Jaccard.data_original_series jaccard_markt_state) k
          = Some (lit "Am Markt")
       /\ BEST_MATCH r = PyFloat s.
Proof.
  split; [vm_compute; reflexivity|].
  destruct (Jaccard.calculate_best_match jaccard_markt_state 0) as [r|e] eqn:Hc;
    [|vm_compute in Hc; discriminate Hc].
  assert (Hb : BEST_FOUND_MATCH r = Some (lit "Am Markt"))
    by (vm_compute in Hc; injection Hc as <-; reflexivity).
  destruct (@jaccard_best_match_is_first_maximum jaccard_markt_state 0 r
              (lit "am markt 5") (lit "Am Markt") Hc eq_refl Hb)
    as (k & s & _ & Ho & Hs & _).
  exists r, k, s. repeat split; trivial.
Defined.

Lemma jaccard_task_returns (data_col match_col : list (option text))
    (idx : nat) (st : Jaccard.state) :
  Jaccard.prep_ (preprocessed data_col) (preprocessed match_col)
  = Returned st ->
  (idx < List.length match_col)%nat ->
  exists r, Jaccard.calculate_best_match st idx = Returned r
            /\ MATCH r = nth idx (fillna match_col) ([] : text).
Proof.
  rewrite !preprocessed_series. intros Hprep Hidx.
  apply jaccard_prep_state in Hprep as (v & Hfit & ->).
  assert (Hlt : (idx < List.length (fillna match_col))%nat)
    by now rewrite length_fillna.
  match goal with
  | |- exists r, ?calc = Returned r /\ _ =>
      enough (H : match calc with
                  | Returned r => MATCH r = nth idx (fillna match_col) ([] : text)
                  | Raised _ => False
                  end);
      [destruct calc as [r|]; [now exists r|contradiction]|]
  end.
  unfold Jaccard.calculate_best_match;
    cbn [Jaccard.match_original_series Jaccard.match_norm_series
         Jaccard.data_vectors Jaccard.vectorizer Jaccard.data_original_series].
  rewrite (iloc_nth_error _ _
             (nth_error_nth' (fillna match_col) ([] : text) Hlt)).
  rewrite (iloc_nth_error _ _
             (map_nth_error normalize_text _ _
                (nth_error_nth' (fillna match_col) ([] : text) Hlt))).
  cbn [bind].
  destruct (is_empty _); [reflexivity|].
  set (sims := Jaccard.jaccard_similarities _ _).
  assert (Hlen : List.length sims = List.length (fillna data_col)).
  { subst sims. rewrite length_jaccard_similarities.
    unfold Sklearn.transform. now rewrite !length_map. }
  destruct (@argmax_returns sims) as (k & m & Hk & Hm & Hkl).
  { apply fit_nonempty in Hfit. intros E. rewrite E in Hlen.
    destruct (fillna data_col); [now apply Hfit|discriminate Hlen]. }
  rewrite Hm; cbn [bind]. rewrite Hk; cbn [bind].
  rewrite Hlen in Hkl.
  rewrite (iloc_nth_error _ _
             (nth_error_nth' (fillna data_col) ([] : text) Hkl)).
  reflexivity.
Qed.

(** X9: once the Jaccard [prep_] has returned and the query set is not
    empty, no task raises: nothing is printed, and the table has one row
    for every query, in completion order. *)
Theorem jaccard_one_row_per_query
    (data_col match_col : list (option text)) (completion : list nat)
    (st : Jaccard.state) :
  Jaccard.prep_ (preprocessed data_col) (preprocessed match_col)
  = Returned st ->
  match_col <> [] ->
  Permutation completion (seq 0 (List.length match_col)) ->
  exists rows,
    Executor.printed (Jaccard.perform_matching st completion) = []
    /\ Main.match_column Main.jaccard data_col match_col completion
       = Returned rows
    /\ List.length rows = List.length match_col
    /\ map (fun row : row => MATCH (fst row)) rows
       = map (fun idx => nth idx (fillna match_col) []) completion.
Proof.
  intros Hprep Hne Hperm.
  assert (Hret : forall idx, In idx completion ->
            exists r, Jaccard.calculate_best_match st idx = Returned r
                      /\ MATCH r = nth idx (fillna match_col) ([] : text)).
  { intros idx Hidx. apply (Permutation_in _ Hperm), in_seq in Hidx.
    apply (@jaccard_task_returns data_col match_col idx st Hprep). lia. }
  assert (Hrun : Jaccard.perform_matching st completion
                 = {| Executor.results :=
                        map (result_of (Jaccard.calculate_best_match st))
                            completion;
                      Executor.printed := [] |}).
  { apply tasks_all_return. intros idx Hidx.
    destruct (Hret idx Hidx) as (r & -> & _). reflexivity. }
  assert (Hlen : List.length completion = List.length match_col)
    by (rewrite (Permutation_length Hperm); apply length_seq).
  assert (Hmc : Main.match_column Main.jaccard data_col match_col completion
                = classify Jaccard.NAME
                    (map (result_of (Jaccard.calculate_best_match st))
                         completion)).
  { unfold Main.match_column.
    cbn [Main.prep_ Main.jaccard Main.perform_matching Main.export_results].
    rewrite Hprep; cbn [bind]. now rewrite Hrun. }
  rewrite Hmc, Hrun. cbn [Executor.printed].
  destruct completion as [|i0 completion].
  { destruct match_col; [contradiction|discriminate Hlen]. }
  eexists. split; [reflexivity|]. split; [reflexivity|]. split.
  - rewrite !length_map. exact Hlen.
  - rewrite map_map. cbn [fst]. rewrite map_map. apply map_ext_in.
    intros idx Hidx. destruct (Hret idx Hidx) as (r & Hr & Hm).
    unfold result_of. now rewrite Hr.
Qed.

Lemma jaccard_one_row_per_query_witness :
  exists rows,
    Main.match_column Main.jaccard
      [Some (lit "Goethe Weg"); Some (lit "Am Markt"); Some (lit "Markt")]
      [Some (lit "Am Markt 5")] [0%nat]
    = Returned rows
    /\ List.length rows = 1%nat.
Proof.
  assert (Hprep : Jaccard.prep_
            (preprocessed [Some (lit "Goethe Weg"); Some (lit "Am Markt");
                           Some (lit "Markt")])
            (preprocessed [Some (lit "Am Markt 5")])
          = Returned jaccard_markt_state) by (vm_compute; reflexivity).
  assert (Hne : [Some (lit "Am Markt 5")] <> []) by discriminate.
  assert (Hperm : Permutation [0%nat]
                    (seq 0 (List.length [Some (lit "Am Markt 5")])))
    by apply Permutation_refl.
  destruct (@jaccard_one_row_per_query _ _ _ _ Hprep Hne Hperm)
    as (rows & _ & Hrows & Hlen & _).
  exists rows. split; [exact Hrows|exact Hlen].
Defined.

(** The entry of a term in the 0/1 vector of a text. *)
Lemma transform_one_entry (v : Sklearn.CountVectorizer) (doc : text) :
  Sklearn.binary v = true ->
  Sklearn.transform_one v doc
  = map (fun t => if in_dec text_eq_dec t (Sklearn.analyzer v doc)
                  then 1%Z else 0%Z)
        (Sklearn.vocabulary_ v).
Proof.
  intros Hb. unfold Sklearn.transform_one. rewrite Hb.
  apply map_ext. intros t. unfold Sklearn.count.
  destruct (in_dec text_eq_dec t (Sklearn.analyzer v doc)) as [Hin|Hout].
  - apply (count_occ_In text_eq_dec) in Hin. lia.
  - apply (count_occ_not_In text_eq_dec) in Hout. now rewrite Hout.
Qed.

Lemma sum_product_maps {A} (f g : A -> Z) (l : list A) :
  Numpy.sum (Numpy.multiply_row (map f l) (map g l))
  = Numpy.sum (map (fun t => (f t * g t)%Z) l).
Proof.
  induction l as [|t l IH]; [reflexivity|].
  cbn [map Numpy.multiply_row Numpy.sum fold_right].
  fold (Numpy.sum (Numpy.multiply_row (map f l) (map g l))).
  fold (Numpy.sum (map (fun t0 => (f t0 * g t0)%Z) l)). now rewrite IH.
Qed.

Lemma sum_zeros {A} (f : A -> Z) (l : list A) :
  (forall t, In t l -> f t = 0%Z) -> Numpy.sum (map f l) = 0%Z.
Proof.
  induction l as [|t l IH]; intros H; [reflexivity|].
  cbn [map Numpy.sum fold_right]. fold (Numpy.sum (map f l)).
  rewrite (H t) by now left. rewrite IH; [reflexivity|].
  intros; apply H; now right.
Qed.

Lemma sum_at_least {A} (f : A -> Z) (l : list A) (t : A) :
  (forall u, In u l -> (0 <= f u)%Z) -> In t l -> (f t <= Numpy.sum (map f l))%Z.
Proof.
  induction l as [|u l IH]; intros Hpos Hin; [destruct Hin|].
  cbn [map Numpy.sum fold_right]. fold (Numpy.sum (map f l)).
  assert (H0 : (0 <= Numpy.sum (map f l))%Z).
  { clear IH Hin. induction l as [|w l IHl]; [cbn; lia|].
    cbn [map Numpy.sum fold_right]. fold (Numpy.sum (map f l)).
    assert (0 <= f w)%Z by (apply Hpos; right; now left).
    assert (0 <= Numpy.sum (map f l))%Z.
    { apply IHl. intros x [->|Hx]; apply Hpos; [now left|right; now right]. }
    lia. }
  assert (Hu : (0 <= f u)%Z) by (apply Hpos; now left).
  destruct Hin as [->|Hin]; [lia|].
  assert (f t <= Numpy.sum (map f l))%Z
    by (apply IH; [intros; apply Hpos; now right|exact Hin]).
  lia.
Qed.

Lemma true_divide_zero (u : Z) :
  Numpy.nan_to_num (Numpy.true_divide 0 u) = 0%Q.
Proof.
  unfold Numpy.true_divide. destruct (u =? 0)%Z; [reflexivity|].
  cbn [Numpy.nan_to_num]. change 0%Q with (Qred 0).
  apply Qred_complete. unfold Qdiv. now rewrite Qmult_0_l.
Qed.

Lemma true_divide_self (u : Z) :
  (0 < u)%Z -> (Numpy.nan_to_num (Numpy.true_divide u u) == 1)%Q.
Proof.
  intros Hu. unfold Numpy.true_divide.
  replace (u =? 0)%Z with false by (symmetry; apply Z.eqb_neq; lia).
  cbn [Numpy.nan_to_num]. rewrite Qred_correct.
  apply Qmult_inv_r. change 0%Q with (inject_Z 0).
  intros H. apply (proj1 (inject_Z_injective _ _)) in H. lia.
Qed.

Lemma jaccard_similarity_at (data_vectors : Numpy.matrix)
    (match_vector : Numpy.vector) (k : nat) (u : Numpy.vector) :
  nth_error data_vectors k = Some u ->
  nth_error (Jaccard.jaccard_similarities data_vectors match_vector) k
  = Some (Numpy.nan_to_num
            (Numpy.true_divide
               (Numpy.sum (Numpy.multiply_row u match_vector))
               (Numpy.sum u + Numpy.sum match_vector
                - Numpy.sum (Numpy.multiply_row u match_vector)))).
Proof.
  unfold Jaccard.jaccard_similarities, Numpy.sum_axis1, Numpy.multiply.
  revert k. induction data_vectors as [|w dv IH]; intros k H;
    [destruct k; discriminate H|].
  destruct k as [|k]; cbn [map combine nth_error] in *.
  - now injection H as ->.
  - now apply IH.
Qed.

Lemma all_equal_argmax (x : Q) (l : list Q) :
  (forall y, In y l -> y = x) ->
  Numpy.argmax (x :: l) = Returned 0%nat /\ Numpy.max (x :: l) = Returned x.
Proof.
  intros H. cbn [Numpy.argmax Numpy.max].
  assert (Ha : forall i, Numpy.argmax_from x 0 i l = 0%nat
                         /\ Numpy.max_from x l = x).
  { induction l as [|y l IH]; intros i; [now split|].
    cbn [Numpy.argmax_from Numpy.max_from].
    rewrite (H y) by now left.
    replace (Qle_bool x x) with true
      by (symmetry; apply Qle_bool_iff, Qle_refl).
    apply IH. intros; apply H; now right. }
  destruct (Ha 1%nat) as [-> ->]. now split.
Qed.

Lemma fit_vocabulary an bin (docs : list text) v :
  Sklearn.fit an bin docs = Returned v ->
  Sklearn.vocabulary_ v = Sklearn.build_vocabulary an docs.
Proof.
  unfold Sklearn.fit. destruct (Sklearn.build_vocabulary an docs) eqn:E;
    [discriminate|]. intros H; injection H as <-. reflexivity.
Qed.

Lemma in_build_vocabulary an (docs : list text) (d t : text) :
  In d docs -> In t (an d) -> In t (Sklearn.build_vocabulary an docs).
Proof.
  intros Hd Ht. unfold Sklearn.build_vocabulary. apply nodup_In.
  apply in_concat. exists (an d). split; [now apply in_map|exact Ht].
Qed.

Lemma jaccard_similarities_map (data_vectors : Numpy.matrix)
    (match_vector : Numpy.vector) :
  Jaccard.jaccard_similarities data_vectors match_vector
  = map (fun u =>
           Numpy.nan_to_num
             (Numpy.true_divide
                (Numpy.sum (Numpy.multiply_row u match_vector))
                (Numpy.sum u + Numpy.sum match_vector
                 - Numpy.sum (Numpy.multiply_row u match_vector))))
        data_vectors.
Proof.
  unfold Jaccard.jaccard_similarities, Numpy.sum_axis1, Numpy.multiply.
  induction data_vectors as [|w dv IH]; [reflexivity|].
  cbn [map combine]. now rewrite IH.
Qed.

(** X10: when a reference has the stripped normalized query as its
    normalized text and that text holds a token (a run of two or more word
    characters), the Jaccard module reports a score equal to 1. *)
Theorem jaccard_exact_match (data_index match_index : list nat)
    (data_norm data_original match_norm match_original : list text)
    (st : Jaccard.state) (idx : nat) (r : MatchResult) (norm : text) :
  Jaccard.prep_ (data_index, data_norm, data_original)
                (match_index, match_norm, match_original) = Returned st ->
  Jaccard.calculate_best_match st idx = Returned r ->
  nth_error match_norm idx = Some norm ->
  In (strip norm) data_norm ->
  Sklearn.word_analyzer (strip norm) <> [] ->
  exists s, BEST_MATCH r = PyFloat s /\ (s == 1)%Q.
Proof.
  intros Hprep Hcalc Hnorm Hin Htok.
  apply jaccard_prep_state in Hprep as (v & Hfit & ->).
  destruct (fit_fields _ _ _ Hfit) as [Han Hbin].
  pose proof (fit_vocabulary _ _ _ Hfit) as Hvoc.
  apply jaccard_calculate_spec in Hcalc
    as (orig & norm' & _ & Hn & Hcases).
  cbn [Jaccard.match_norm_series] in Hn.
  rewrite Hnorm in Hn; injection Hn as <-.
  cbn [Jaccard.data_vectors Jaccard.vectorizer Jaccard.data_original_series]
    in Hcases.
  destruct Hcases as [[Hq _]|(k & s & o & _ & Hs & _ & -> & Hall & _)].
  { rewrite Hq in Htok. now elim Htok. }
  exists s. split; [reflexivity|].
  set (q := strip norm) in *. set (m := Sklearn.transform_one v q) in *.
  assert (Hunit : unit_interval s).
  { assert (HF : Forall unit_interval
                   (Jaccard.jaccard_similarities (Sklearn.transform v data_norm) m)).
    { apply jaccard_similarities_unit.
      - unfold Sklearn.transform. apply Forall_forall. intros u Hu.
        apply in_map_iff in Hu as (doc & <- & _). now apply transform_one_binary.
      - now apply transform_one_binary. }
    rewrite Forall_forall in HF. apply HF. eapply nth_error_In. exact Hs. }
  apply Qle_antisym; [apply Hunit|].
  destruct (In_nth_error _ _ Hin) as (j & Hj).
  assert (Hu : nth_error (Sklearn.transform v data_norm) j = Some m)
    by (unfold Sklearn.transform; now apply map_nth_error).
  pose proof (jaccard_similarity_at _ m _ Hu) as Hsim.
  assert (Hinter : Numpy.sum (Numpy.multiply_row m m) = Numpy.sum m).
  { subst m. rewrite (transform_one_entry v q Hbin), sum_product_maps.
    f_equal. apply map_ext. intros t.
    destruct (in_dec text_eq_dec t (Sklearn.analyzer v q)); reflexivity. }
  rewrite Hinter in Hsim.
  replace (Numpy.sum m + Numpy.sum m - Numpy.sum m)%Z with (Numpy.sum m)
    in Hsim by lia.
  assert (Hpos : (0 < Numpy.sum m)%Z).
  { destruct (Sklearn.word_analyzer q) as [|t toks] eqn:Et; [now elim Htok|].
    assert (Htv : In t (Sklearn.vocabulary_ v)).
    { rewrite Hvoc. apply (in_build_vocabulary _ _ q); [exact Hin|].
      rewrite Et. now left. }
    subst m. rewrite (transform_one_entry v q Hbin).
    pose proof (@sum_at_least _
                  (fun t0 => if in_dec text_eq_dec t0 (Sklearn.analyzer v q)
                             then 1%Z else 0%Z)
                  (Sklearn.vocabulary_ v) t) as Hge.
    cbv beta in Hge.
    destruct (in_dec text_eq_dec t (Sklearn.analyzer v q)) as [_|Hout].
    - assert (1 <= Numpy.sum
                     (map (fun t0 => if in_dec text_eq_dec t0
                                          (Sklearn.analyzer v q)
                                     then 1%Z else 0%Z)
                          (Sklearn.vocabulary_ v)))%Z; [|lia].
      apply Hge; [|exact Htv].
      intros u _. destruct (in_dec text_eq_dec u (Sklearn.analyzer v q)); lia.
    - exfalso. apply Hout. rewrite Han, Et. now left. }
  apply Qle_trans
    with (Numpy.nan_to_num (Numpy.true_divide (Numpy.sum m) (Numpy.sum m))).
  - rewrite (true_divide_self Hpos). apply Qle_refl.
  - apply Hall. eapply nth_error_In. exact Hsim.
Qed.

Lemma jaccard_exact_match_witness :
  exists st r s,
    Jaccard.prep_ ([0; 1]%nat, [lit "goethe weg"; lit "am markt"],
                   [lit "Goethe Weg"; lit "Am Markt"])
                  ([0%nat], [lit " am markt "], [lit " Am Markt!"])
    = Returned st
    /\ Jaccard.calculate_best_match st 0 = Returned r
    /\ BEST_FOUND_MATCH r = Some (lit "Am Markt")
    /\ BEST_MATCH r = PyFloat s /\ (s == 1)%Q.
Proof.
  set (st := {| Jaccard.match_norm_series := [lit " am markt "];
                Jaccard.match_original_series := [lit " Am Markt!"];
                Jaccard.data_original_series :=
                  [lit "Goethe Weg"; lit "Am Markt"];
                Jaccard.data_vectors := [[1; 1; 0; 0]; [0; 0; 1; 1]]%Z;
                Jaccard.vectorizer :=
                  {| Sklearn.analyzer := Sklearn.word_analyzer;
                     Sklearn.binary := true;
                     Sklearn.vocabulary_ :=
                       [lit "goethe"; lit "weg"; lit "am"; lit "markt"] |};
                Jaccard.indices := [0%nat] |}).
  assert (Hprep : Jaccard.prep_
                    ([0; 1]%nat, [lit "goethe weg"; lit "am markt"],
                     [lit "Goethe Weg"; lit "Am Markt"])
                    ([0%nat], [lit " am markt "], [lit " Am Markt!"])
                  = Returned st) by (vm_compute; reflexivity).
  destruct (Jaccard.calculate_best_match st 0) as [r|e] eqn:Hc;
    [|vm_compute in Hc; discriminate Hc].
  assert (Hb : BEST_FOUND_MATCH r = Some (lit "Am Markt"))
    by (vm_compute in Hc; injection Hc as <-; reflexivity).
  assert (Hin : In (strip (lit " am markt "))
                   [lit "goethe weg"; lit "am markt"])
    by (vm_compute; tauto).
  assert (Htok : Sklearn.word_analyzer (strip (lit " am markt ")) <> [])
    by (vm_compute; discriminate).
  destruct (@jaccard_exact_match _ _ _ _ _ _ st 0 r (lit " am markt ")
              Hprep Hc eq_refl Hin Htok)
    as (s & Hs & H1).
  exists st, r, s. repeat split; trivial.
Defined.

(** X11: when no token of the query occurs in any reference, every
    similarity is 0 and the Jaccard module still reports a best match: the
    first reference of the corpus, with score 0. *)
Theorem jaccard_no_shared_token (data_index match_index : list nat)
    (data_norm data_original match_norm match_original : list text)
    (st : Jaccard.state) (idx : nat) (orig norm : text) :
  Jaccard.prep_ (data_index, data_norm, data_original)
                (match_index, match_norm, match_original) = Returned st ->
  List.length data_original = List.length data_norm ->
  nth_error match_original idx = Some orig ->
  nth_error match_norm idx = Some norm ->
  strip norm <> [] ->
  (forall t d, In t (Sklearn.word_analyzer (strip norm)) -> In d data_norm ->
               ~ In t (Sklearn.word_analyzer d)) ->
  exists first rest,
    data_original = first :: rest
    /\ Jaccard.calculate_best_match st idx
       = Returned {| MATCH := orig; BEST_FOUND_MATCH := Some first;
                     TRUE_MATCH := None; BEST_MATCH := PyFloat 0 |}.
Proof.
  intros Hprep Hlen Ho Hn Hq Hdisj.
  apply jaccard_prep_state in Hprep as (v & Hfit & ->).
  destruct (fit_fields _ _ _ Hfit) as [Han Hbin].
  pose proof (@fit_nonempty _ _ _ _ Hfit) as Hne.
  destruct data_norm as [|d0 data_norm]; [contradiction|].
  destruct data_original as [|first rest]; [discriminate Hlen|].
  exists first, rest. split; [reflexivity|].
  unfold Jaccard.calculate_best_match;
    cbn [Jaccard.match_original_series Jaccard.match_norm_series
         Jaccard.data_vectors Jaccard.vectorizer Jaccard.data_original_series].
  rewrite (iloc_nth_error _ _ Ho), (iloc_nth_error _ _ Hn); cbn [bind].
  destruct (strip norm) as [|c0 q] eqn:Eq; [contradiction|]. cbn [is_empty].
  rewrite <- Eq in *.
  set (m := Sklearn.transform_one v (strip norm)).
  assert (Hsims : Jaccard.jaccard_similarities
                    (Sklearn.transform v (d0 :: data_norm)) m
                  = 0%Q :: map (fun _ => 0%Q) data_norm).
  { rewrite jaccard_similarities_map. unfold Sklearn.transform.
    rewrite map_map.
    change (0%Q :: map (fun _ : text => 0%Q) data_norm)
      with (map (fun _ : text => 0%Q) (d0 :: data_norm)).
    apply map_ext_in. intros d Hd.
    assert (Hz : Numpy.sum (Numpy.multiply_row (Sklearn.transform_one v d) m)
                 = 0%Z).
    { subst m. rewrite !(transform_one_entry v _ Hbin), sum_product_maps.
      apply sum_zeros. intros t _. rewrite Han.
      destruct (in_dec text_eq_dec t (Sklearn.word_analyzer d)) as [Hd'|];
        [|reflexivity].
      destruct (in_dec text_eq_dec t (Sklearn.word_analyzer (strip norm)))
        as [Hq'|]; [|reflexivity].
      exfalso. exact (Hdisj t d Hq' Hd Hd'). }
    rewrite Hz. apply true_divide_zero. }
  rewrite Hsims.
  destruct (@all_equal_argmax 0%Q (map (fun _ : text => 0%Q) data_norm))
    as [Harg Hmax].
  { intros y Hy. apply in_map_iff in Hy as (? & <- & _). reflexivity. }
  rewrite Hmax; cbn [bind]. rewrite Harg; cbn [bind iloc nth_error].
  reflexivity.
Qed.

Lemma jaccard_no_shared_token_witness :
  exists st first rest,
    Jaccard.prep_ ([0; 1]%nat, [lit "goethe weg"; lit "am markt"],
                   [lit "Goethe Weg"; lit "Am Markt"])
                  ([0%nat], [lit "hauptstrasse 1"], [lit "Hauptstrasse 1"])
    = Returned st
    /\ [lit "Goethe Weg"; lit "Am Markt"] = first :: rest
    /\ Jaccard.calculate_best_match st 0
       = Returned {| MATCH := lit "Hauptstrasse 1";
                     BEST_FOUND_MATCH := Some first;
                     TRUE_MATCH := None; BEST_MATCH := PyFloat 0 |}.
Proof.
  set (st := {| Jaccard.match_norm_series := [lit "hauptstrasse 1"];
                Jaccard.match_original_series := [lit "Hauptstrasse 1"];
                Jaccard.data_original_series :=
                  [lit "Goethe Weg"; lit "Am Markt"];
                Jaccard.data_vectors := [[1; 1; 0; 0]; [0; 0; 1; 1]]%Z;
                Jaccard.vectorizer :=
                  {| Sklearn.analyzer := Sklearn.word_analyzer;
                     Sklearn.binary := true;
                     Sklearn.vocabulary_ :=
                       [lit "goethe"; lit "weg"; lit "am"; lit "markt"] |};
                Jaccard.indices := [0%nat] |}).
  assert (Hprep : Jaccard.prep_
                    ([0; 1]%nat, [lit "goethe weg"; lit "am markt"],
                     [lit "Goethe Weg"; lit "Am Markt"])
                    ([0%nat], [lit "hauptstrasse 1"], [lit "Hauptstrasse 1"])
                  = Returned st) by (vm_compute; reflexivity).
  assert (Hq : strip (lit "hauptstrasse 1") <> [])
    by (vm_compute; discriminate).
  assert (Hdisj : forall t d,
             In t (Sklearn.word_analyzer (strip (lit "hauptstrasse 1"))) ->
             In d [lit "goethe weg"; lit "am markt"] ->
             ~ In t (Sklearn.word_analyzer d)).
  { intros t d Ht Hd Hin. vm_compute in Ht.
    destruct Ht as [<-|[]].
    destruct Hd as [<-|[<-|[]]]; vm_compute in Hin;
      repeat (destruct Hin as [Hin|Hin]; [discriminate Hin|]); exact Hin. }
  destruct (@jaccard_no_shared_token _ _ _ _ _ _ st 0 (lit "Hauptstrasse 1")
              (lit "hauptstrasse 1") Hprep eq_refl eq_refl eq_refl Hq Hdisj)
    as (first & rest & Hd & Hcalc).
  exists st, first, rest. repeat split; trivial.
Defined.

(** ** The two bigram modules *)

Lemma dice_calculate_shared (st : Dice.state) (idx : nat) :
  Dice.calculate_best_match st idx
  = bigram_task Dice.dice_coefficient (Dice.match_original_series st)
      (Dice.match_ngrams_matrix st) (Dice.data_ngrams_matrix st)
      (Dice.data_original_series st) idx.
Proof. reflexivity. Qed.

Lemma ngram_calculate_shared (st : Ngram.state) (idx : nat) :
  Ngram.calculate_best_match st idx
  = bigram_task Ngram.ngram_similarity (Ngram.match_original_series st)
      (Ngram.match_ngrams_matrix st) (Ngram.data_ngrams_matrix st)
      (Ngram.data_original_series st) idx.
Proof. reflexivity. Qed.

Lemma dice_prep_state (data_index match_index : list nat)
    (data_norm data_original match_norm match_original : list text)
    (st : Dice.state) :
  Dice.prep_ (data_index, data_norm, data_original)
             (match_index, match_norm, match_original) = Returned st ->
  exists v,
    Sklearn.fit (Sklearn.char_analyzer Dice.n) false (data_norm ++ match_norm)
    = Returned v
    /\ st = {| Dice.match_ngrams_matrix := Sklearn.transform v match_norm;
               Dice.match_original_series := match_original;
               Dice.data_ngrams_matrix := Sklearn.transform v data_norm;
               Dice.data_original_series := data_original;
               Dice.indices := match_index |}.
Proof.
  unfold Dice.prep_. intros H.
  destruct (Sklearn.fit (Sklearn.char_analyzer Dice.n) false
              (data_norm ++ match_norm)) as [v|]; [|discriminate H].
  cbn [bind] in H. injection H as <-. now exists v.
Qed.

Lemma ngram_prep_state (data_index match_index : list nat)
    (data_norm data_original match_norm match_original : list text)
    (st : Ngram.state) :
  Ngram.prep_ (data_index, data_norm, data_original)
              (match_index, match_norm, match_original) = Returned st ->
  exists v,
    Sklearn.fit (Sklearn.char_analyzer Ngram.n) false (data_norm ++ match_norm)
    = Returned v
    /\ st = {| Ngram.match_ngrams_matrix := Sklearn.transform v match_norm;
               Ngram.match_original_series := match_original;
               Ngram.data_ngrams_matrix := Sklearn.transform v data_norm;
               Ngram.data_original_series := data_original;
               Ngram.indices := match_index |}.
Proof.
  unfold Ngram.prep_. intros H.
  destruct (Sklearn.fit (Sklearn.char_analyzer Ngram.n) false
              (data_norm ++ match_norm)) as [v|]; [|discriminate H].
  cbn [bind] in H. injection H as <-. now exists v.
Qed.

Lemma dice_coefficient_map (match_vector : Numpy.vector)
    (data_vectors : Numpy.matrix) :
  Dice.dice_coefficient match_vector data_vectors
  = map (fun u =>
           Numpy.nan_to_num
             (Numpy.true_divide
                (2 * Numpy.sum (Numpy.multiply_row u match_vector))
                (Numpy.sum match_vector + Numpy.sum u)))
        data_vectors.
Proof.
  unfold Dice.dice_coefficient, Numpy.sum_axis1, Numpy.multiply.
  induction data_vectors as [|w dv IH]; [reflexivity|].
  cbn [map combine]. now rewrite IH.
Qed.

Lemma ngram_similarity_map (match_vector : Numpy.vector)
    (data_vectors : Numpy.matrix) :
  Ngram.ngram_similarity match_vector data_vectors
  = map (fun u =>
           Numpy.nan_to_num
             (Numpy.true_divide
                (Numpy.sum (Numpy.multiply_row u match_vector))
                (Numpy.sum match_vector + Numpy.sum u
                 - Numpy.sum (Numpy.multiply_row u match_vector))))
        data_vectors.
Proof.
  unfold Ngram.ngram_similarity, Numpy.sum_axis1, Numpy.multiply.
  induction data_vectors as [|w dv IH]; [reflexivity|].
  cbn [map combine]. now rewrite IH.
Qed.

Lemma length_dice_coefficient (m : Numpy.vector) (d : Numpy.matrix) :
  List.length (Dice.dice_coefficient m d) = List.length d.
Proof. rewrite dice_coefficient_map. apply length_map. Qed.

Lemma length_ngram_similarity (m : Numpy.vector) (d : Numpy.matrix) :
  List.length (Ngram.ngram_similarity m d) = List.length d.
Proof. rewrite ngram_similarity_map. apply length_map. Qed.

(** A text without a repeated term has a 0/1 row, whatever [binary] is. *)
Lemma transform_one_no_repeat (v : Sklearn.CountVectorizer) (doc : text) :
  NoDup (Sklearn.analyzer v doc) -> binary_vector (Sklearn.transform_one v doc).
Proof.
  intros Hnd. unfold Sklearn.transform_one, binary_vector.
  apply Forall_forall. intros x Hx. apply in_map_iff in Hx as (t & <- & _).
  unfold Sklearn.count.
  pose proof (proj1 (NoDup_count_occ text_eq_dec _) Hnd t) as Hle.
  destruct (Sklearn.binary v); lia.
Qed.

Lemma transform_one_count_vector (v : Sklearn.CountVectorizer) (doc : text) :
  count_vector (Sklearn.transform_one v doc).
Proof.
  unfold Sklearn.transform_one, count_vector.
  apply Forall_forall. intros x Hx. apply in_map_iff in Hx as (t & <- & _).
  unfold Sklearn.count. destruct (Sklearn.binary v); lia.
Qed.

Lemma sum_count_vector (v : Numpy.vector) :
  count_vector v -> (0 <= Numpy.sum v)%Z.
Proof.
  induction 1 as [|x v Hx _ IH]; cbn [Numpy.sum fold_right]; [lia|].
  fold (Numpy.sum v). lia.
Qed.

Lemma multiply_row_count_vector (u : Numpy.vector) : forall v,
  count_vector u -> count_vector v -> count_vector (Numpy.multiply_row u v).
Proof.
  induction u as [|a u IH]; intros v Hu Hv; [constructor|].
  destruct v as [|b v]; [constructor|].
  inversion Hu; inversion Hv; subst. cbn [Numpy.multiply_row].
  constructor; [lia|now apply IH].
Qed.

Lemma true_divide_nonneg (a b : Z) :
  (0 <= a)%Z -> (0 <= b)%Z ->
  (0 <= Numpy.nan_to_num (Numpy.true_divide a b))%Q.
Proof.
  intros Ha Hb. unfold Numpy.true_divide.
  destruct (b =? 0)%Z eqn:Eb.
  - destruct (a =? 0)%Z eqn:Ea; [cbn; discriminate|].
    apply Z.eqb_neq in Ea.
    destruct (0 <? a)%Z eqn:Epos; [vm_compute; discriminate|].
    apply Z.ltb_ge in Epos. lia.
  - apply Z.eqb_neq in Eb. cbn [Numpy.nan_to_num]. rewrite Qred_correct.
    assert (Hb' : (0 < inject_Z b)%Q)
      by (change 0%Q with (inject_Z 0); rewrite <- Zlt_Qlt; lia).
    apply Qle_shift_div_l; [exact Hb'|]. rewrite Qmult_0_l.
    change 0%Q with (inject_Z 0). now rewrite <- Zle_Qle.
Qed.

Lemma dice_coefficient_unit (match_vector : Numpy.vector)
    (data_vectors : Numpy.matrix) :
  binary_vector match_vector -> Forall binary_vector data_vectors ->
  Forall unit_interval (Dice.dice_coefficient match_vector data_vectors).
Proof.
  intros Hm Hd. rewrite dice_coefficient_map. apply Forall_forall.
  intros x Hx. apply in_map_iff in Hx as (u & <- & Hu).
  rewrite Forall_forall in Hd.
  destruct (intersection_bounds (Hd u Hu) Hm) as [[H0 H1] H2].
  apply unit_quotient. lia.
Qed.

Lemma ngram_similarity_unit (match_vector : Numpy.vector)
    (data_vectors : Numpy.matrix) :
  binary_vector match_vector -> Forall binary_vector data_vectors ->
  Forall unit_interval (Ngram.ngram_similarity match_vector data_vectors).
Proof.
  intros Hm Hd. rewrite ngram_similarity_map. apply Forall_forall.
  intros x Hx. apply in_map_iff in Hx as (u & <- & Hu).
  rewrite Forall_forall in Hd.
  destruct (intersection_bounds (Hd u Hu) Hm) as [[H0 H1] H2].
  apply unit_quotient. lia.
Qed.

(** A score of the shared body is an entry of the similarity array of the
    query's row. *)
Lemma bigram_task_score similarity mo mm dm dor idx r :
  bigram_task similarity mo mm dm dor idx = Returned r ->
  BEST_MATCH r = PyNone
  \/ exists mv s, In mv mm /\ BEST_MATCH r = PyFloat s
                  /\ In s (similarity mv dm).
Proof.
  unfold bigram_task.
  destruct (iloc mo idx) as [orig|]; [|discriminate].
  destruct (iloc mm idx) as [mv|] eqn:Hmv; [|discriminate].
  cbn [bind]. destruct (Numpy.nnz mv =? 0)%nat.
  { intros H; injection H as <-. now left. }
  destruct (Numpy.argmax (similarity mv dm)) as [k|]; [|discriminate].
  cbn [bind].
  destruct (iloc (similarity mv dm) k) as [s|] eqn:Hs; [|discriminate].
  cbn [bind]. destruct (iloc dor k) as [o|]; [|discriminate].
  cbn [bind]. intros H; injection H as <-. right. exists mv, s.
  apply iloc_returned in Hmv, Hs.
  split; [eapply nth_error_In; exact Hmv|].
  split; [reflexivity|eapply nth_error_In; exact Hs].
Qed.

(** The three outcomes of the shared body. *)
Lemma bigram_task_cases similarity mo mm dm dor idx orig mv :
  (forall m d, List.length (similarity m d) = List.length d) ->
  List.length dor = List.length dm ->
  nth_error mo idx = Some orig ->
  nth_error mm idx = Some mv ->
  (Numpy.nnz mv = 0%nat ->
   bigram_task similarity mo mm dm dor idx = Returned (no_match orig))
  /\ (Numpy.nnz mv <> 0%nat -> dm = [] ->
      bigram_task similarity mo mm dm dor idx = Raised empty_argmax)
  /\ (Numpy.nnz mv <> 0%nat -> dm <> [] ->
      exists k s o,
        bigram_task similarity mo mm dm dor idx
        = Returned {| MATCH := orig; BEST_FOUND_MATCH := Some o;
                      TRUE_MATCH := None; BEST_MATCH := PyFloat s |}
        /\ nth_error dor k = Some o
        /\ nth_error (similarity mv dm) k = Some s
        /\ (forall y, In y (similarity mv dm) -> (y <= s)%Q)
        /\ (forall j y, (j < k)%nat ->
                        nth_error (similarity mv dm) j = Some y -> (y < s)%Q)).
Proof.
  intros Hlen Hdor Ho Hmv. unfold bigram_task.
  rewrite (iloc_nth_error _ _ Ho), (iloc_nth_error _ _ Hmv); cbn [bind].
  split; [|split].
  - intros ->. reflexivity.
  - intros Hnz ->. apply Nat.eqb_neq in Hnz. rewrite Hnz.
    specialize (Hlen mv []).
    destruct (similarity mv []); [reflexivity|discriminate Hlen].
  - intros Hnz Hdm. apply Nat.eqb_neq in Hnz. rewrite Hnz.
    destruct (@argmax_returns (similarity mv dm)) as (k & s & Hk & Hs & Hkl).
    { intros E. specialize (Hlen mv dm). rewrite E in Hlen.
      destruct dm; [now apply Hdm|discriminate Hlen]. }
    destruct (argmax_is_first_max _ Hk Hs) as (Hnth & Hmax & Hfirst).
    rewrite Hk; cbn [bind]. rewrite (iloc_nth_error _ _ Hnth); cbn [bind].
    rewrite Hlen, <- Hdor in Hkl.
    destruct (nth_error dor k) as [o|] eqn:Hok;
      [|apply nth_error_None in Hok; lia].
    rewrite (iloc_nth_error _ _ Hok); cbn [bind].
    exists k, s, o. repeat split; trivial.
Qed.

(** The row of a text is zero exactly when the text has no term, for a
    text whose terms are in the vocabulary. *)
Lemma nnz_transform_one (v : Sklearn.CountVectorizer) (doc : text) :
  (forall t, In t (Sklearn.analyzer v doc) -> In t (Sklearn.vocabulary_ v)) ->
  Numpy.nnz (Sklearn.transform_one v doc) = 0%nat
  <-> Sklearn.analyzer v doc = [].
Proof.
  intros Hsub. unfold Sklearn.transform_one. split.
  - intros Hz. destruct (Sklearn.analyzer v doc) as [|t terms] eqn:Et;
      [reflexivity|exfalso].
    assert (Ht : In t (Sklearn.vocabulary_ v)) by (apply Hsub; now left).
    clear Hsub. unfold Numpy.nnz in Hz.
    induction (Sklearn.vocabulary_ v) as [|w voc IH]; [destruct Ht|].
    cbn [map filter] in Hz.
    destruct Ht as [->|Ht].
    + unfold Sklearn.count in Hz. cbn [count_occ] in Hz.
      destruct (text_eq_dec t t) as [_|Hne]; [|now apply Hne].
      destruct (Sklearn.binary v);
        match type of Hz with
        | context [(?x =? 0)%Z] =>
            destruct (x =? 0)%Z eqn:Ex;
              [apply Z.eqb_eq in Ex; lia|discriminate Hz]
        end.
    + match type of Hz with
      | context [negb ?b] => destruct b; [|discriminate Hz]
      end.
      now apply IH.
  - intros ->. unfold Sklearn.count. cbn [count_occ Z.of_nat].
    destruct (Sklearn.binary v); apply nnz_zeros.
Qed.

Lemma fit_covers an bin (docs : list text) v (d : text) :
  Sklearn.fit an bin docs = Returned v -> In d docs ->
  forall t, In t (Sklearn.analyzer v d) -> In t (Sklearn.vocabulary_ v).
Proof.
  intros Hfit Hd t Ht. rewrite (fit_vocabulary _ _ _ Hfit).
  destruct (fit_fields _ _ _ Hfit) as [Han _]. rewrite Han in Ht.
  now apply (in_build_vocabulary an docs d).
Qed.

(** A check by computation that no text of a list has a term twice. *)
Lemma no_repeated_term_check (an : text -> list text) (docs : list text) :
  forallb (fun d => if list_eq_dec text_eq_dec (nodup text_eq_dec (an d)) (an d)
                    then true else false) docs = true ->
  Forall (fun d => NoDup (an d)) docs.
Proof.
  intros H. apply Forall_forall. intros d Hd.
  rewrite forallb_forall in H. specialize (H d Hd).
  destruct (list_eq_dec text_eq_dec (nodup text_eq_dec (an d)) (an d)) as [E|];
    [|discriminate H].
  rewrite <- E. apply NoDup_nodup.
Qed.

(** X12: when no text, reference or query, has the same bigram twice, every
    score the Dice module reports lies in [0, 1]. *)
Theorem dice_score_unit_without_repeated_bigrams
    (data_index match_index : list nat)
    (data_norm data_original match_norm match_original : list text)
    (st : Dice.state) (idx : nat) (r : MatchResult) :
  Dice.prep_ (data_index, data_norm, data_original)
             (match_index, match_norm, match_original) = Returned st ->
  Forall (fun d => NoDup (Sklearn.char_analyzer Dice.n d))
         (data_norm ++ match_norm) ->
  Dice.calculate_best_match st idx = Returned r ->
  BEST_MATCH r = PyNone
  \/ exists s, BEST_MATCH r = PyFloat s /\ unit_interval s.
Proof.
  intros Hprep Hnd Hcalc.
  apply dice_prep_state in Hprep as (v & Hfit & ->).
  destruct (fit_fields _ _ _ Hfit) as [Han _].
  rewrite dice_calculate_shared in Hcalc.
  cbn [Dice.match_original_series Dice.match_ngrams_matrix
       Dice.data_ngrams_matrix Dice.data_original_series] in Hcalc.
  apply bigram_task_score in Hcalc as [Hnone|(mv & s & Hmv & Hs & Hin)];
    [now left|right].
  exists s. split; [exact Hs|].
  rewrite Forall_forall in Hnd.
  assert (Hbin : forall d, In d (data_norm ++ match_norm) ->
                           binary_vector (Sklearn.transform_one v d)).
  { intros d Hd. apply transform_one_no_repeat. rewrite Han. now apply Hnd. }
  assert (HF : Forall unit_interval
                 (Dice.dice_coefficient mv (Sklearn.transform v data_norm))).
  { apply dice_coefficient_unit.
    - apply in_map_iff in Hmv as (d & <- & Hd). apply Hbin.
      apply in_or_app. now right.
    - apply Forall_forall. intros u Hu. apply in_map_iff in Hu as (d & <- & Hd).
      apply Hbin. apply in_or_app. now left. }
  rewrite Forall_forall in HF. now apply HF.
Qed.

Lemma dice_score_unit_without_repeated_bigrams_witness :
  exists st r s,
    Dice.prep_ ([0; 1]%nat, [lit "markt 5"; lit "am markt"],
                [lit "Markt 5"; lit "Am Markt"])
               ([0%nat], [lit "am mark"], [lit "Am Mark"]) = Returned st
    /\ Dice.calculate_best_match st 0 = Returned r
    /\ BEST_FOUND_MATCH r = Some (lit "Am Markt")
    /\ BEST_MATCH r = PyFloat s /\ unit_interval s.
Proof.
  destruct (Dice.prep_ ([0; 1]%nat, [lit "markt 5"; lit "am markt"],
                        [lit "Markt 5"; lit "Am Markt"])
                       ([0%nat], [lit "am mark"], [lit "Am Mark"]))
    as [st|e] eqn:Hprep; [|vm_compute in Hprep; discriminate Hprep].
  destruct (Dice.calculate_best_match st 0) as [r|e] eqn:Hc;
    [|vm_compute in Hprep; injection Hprep as <-; vm_compute in Hc;
      discriminate Hc].
  assert (Hnd : Forall (fun d => NoDup (Sklearn.char_analyzer Dice.n d))
                  ([lit "markt 5"; lit "am markt"] ++ [lit "am mark"])).
  { apply no_repeated_term_check. vm_compute. reflexivity. }
  assert (Hb : BEST_FOUND_MATCH r = Some (lit "Am Markt")
               /\ BEST_MATCH r <> PyNone).
  { pose proof Hprep as Hp. vm_compute in Hp. injection Hp as <-.
    vm_compute in Hc. injection Hc as <-. split; [reflexivity|discriminate]. }
  destruct (@dice_score_unit_without_repeated_bigrams _ _ _ _ _ _ st 0 r
              Hprep Hnd Hc) as [Hnone|(s & Hs & Hu)].
  - now elim (proj2 Hb).
  - exists st, r, s. repeat split; try tauto; apply Hu.
Defined.

(** X13: when no text, reference or query, has the same bigram twice, every
    score the n-gram module reports lies in [0, 1]. *)
Theorem ngram_score_unit_without_repeated_bigrams
    (data_index match_index : list nat)
    (data_norm data_original match_norm match_original : list text)
    (st : Ngram.state) (idx : nat) (r : MatchResult) :
  Ngram.prep_ (data_index, data_norm, data_original)
              (match_index, match_norm, match_original) = Returned st ->
  Forall (fun d => NoDup (Sklearn.char_analyzer Ngram.n d))
         (data_norm ++ match_norm) ->
  Ngram.calculate_best_match st idx = Returned r ->
  BEST_MATCH r = PyNone
  \/ exists s, BEST_MATCH r = PyFloat s /\ unit_interval s.
Proof.
  intros Hprep Hnd Hcalc.
  apply ngram_prep_state in Hprep as (v & Hfit & ->).
  destruct (fit_fields _ _ _ Hfit) as [Han _].
  rewrite ngram_calculate_shared in Hcalc.
  cbn [Ngram.match_original_series Ngram.match_ngrams_matrix
       Ngram.data_ngrams_matrix Ngram.data_original_series] in Hcalc.
  apply bigram_task_score in Hcalc as [Hnone|(mv & s & Hmv & Hs & Hin)];
    [now left|right].
  exists s. split; [exact Hs|].
  rewrite Forall_forall in Hnd.
  assert (Hbin : forall d, In d (data_norm ++ match_norm) ->
                           binary_vector (Sklearn.transform_one v d)).
  { intros d Hd. apply transform_one_no_repeat. rewrite Han. now apply Hnd. }
  assert (HF : Forall unit_interval
                 (Ngram.ngram_similarity mv (Sklearn.transform v data_norm))).
  { apply ngram_similarity_unit.
    - apply in_map_iff in Hmv as (d & <- & Hd). apply Hbin.
      apply in_or_app. now right.
    - apply Forall_forall. intros u Hu. apply in_map_iff in Hu as (d & <- & Hd).
      apply Hbin. apply in_or_app. now left. }
  rewrite Forall_forall in HF. now apply HF.
Qed.

Lemma ngram_score_unit_without_repeated_bigrams_witness :
  exists st r s,
    Ngram.prep_ ([0; 1]%nat, [lit "markt 5"; lit "am markt"],
                 [lit "Markt 5"; lit "Am Markt"])
                ([0%nat], [lit "am mark"], [lit "Am Mark"]) = Returned st
    /\ Ngram.calculate_best_match st 0 = Returned r
    /\ BEST_FOUND_MATCH r = Some (lit "Am Markt")
    /\ BEST_MATCH r = PyFloat s /\ unit_interval s.
Proof.
  destruct (Ngram.prep_ ([0; 1]%nat, [lit "markt 5"; lit "am markt"],
                         [lit "Markt 5"; lit "Am Markt"])
                        ([0%nat], [lit "am mark"], [lit "Am Mark"]))
    as [st|e] eqn:Hprep; [|vm_compute in Hprep; discriminate Hprep].
  destruct (Ngram.calculate_best_match st 0) as [r|e] eqn:Hc;
    [|vm_compute in Hprep; injection Hprep as <-; vm_compute in Hc;
      discriminate Hc].
  assert (Hnd : Forall (fun d => NoDup (Sklearn.char_analyzer Ngram.n d))
                  ([lit "markt 5"; lit "am markt"] ++ [lit "am mark"])).
  { apply no_repeated_term_check. vm_compute. reflexivity. }
  assert (Hb : BEST_FOUND_MATCH r = Some (lit "Am Markt")
               /\ BEST_MATCH r <> PyNone).
  { pose proof Hprep as Hp. vm_compute in Hp. injection Hp as <-.
    vm_compute in Hc. injection Hc as <-. split; [reflexivity|discriminate]. }
  destruct (@ngram_score_unit_without_repeated_bigrams _ _ _ _ _ _ st 0 r
              Hprep Hnd Hc) as [Hnone|(s & Hs & Hu)].
  - now elim (proj2 Hb).
  - exists st, r, s. repeat split; try tauto; apply Hu.
Defined.

(** X14: a score of the Dice module is never negative, whatever the texts:
    the numerator and the denominator are sums of counts. *)
Theorem dice_score_nonnegative
    (data_index match_index : list nat)
    (data_norm data_original match_norm match_original : list text)
    (st : Dice.state) (idx : nat) (r : MatchResult) (s : Q) :
  Dice.prep_ (data_index, data_norm, data_original)
             (match_index, match_norm, match_original) = Returned st ->
  Dice.calculate_best_match st idx = Returned r ->
  BEST_MATCH r = PyFloat s ->
  (0 <= s)%Q.
Proof.
  intros Hprep Hcalc Hs.
  apply dice_prep_state in Hprep as (v & Hfit & ->).
  rewrite dice_calculate_shared in Hcalc.
  cbn [Dice.match_original_series Dice.match_ngrams_matrix
       Dice.data_ngrams_matrix Dice.data_original_series] in Hcalc.
  apply bigram_task_score in Hcalc as [Hnone|(mv & s' & Hmv & Hs' & Hin)];
    [congruence|].
  rewrite Hs in Hs'. injection Hs' as <-.
  rewrite dice_coefficient_map in Hin.
  apply in_map_iff in Hin as (u & <- & Hu).
  apply in_map_iff in Hmv as (q & <- & _).
  apply in_map_iff in Hu as (d & <- & _).
  pose proof (transform_one_count_vector v q) as Hq.
  pose proof (transform_one_count_vector v d) as Hd.
  pose proof (sum_count_vector (multiply_row_count_vector Hd Hq)).
  pose proof (sum_count_vector Hq). pose proof (sum_count_vector Hd).
  apply true_divide_nonneg; lia.
Qed.

Lemma dice_score_nonnegative_witness :
  exists st,
    Dice.prep_ ([0%nat], [lit "aaaa"], [lit "aaaa"])
               ([0%nat], [lit "aaaa"], [lit "aaaa"]) = Returned st
    /\ Dice.calculate_best_match st 0
       = Returned {| MATCH := lit "aaaa"; BEST_FOUND_MATCH := Some (lit "aaaa");
                     TRUE_MATCH := None; BEST_MATCH := PyFloat 3 |}
    /\ (0 <= 3)%Q.
Proof.
  set (st := {| Dice.match_ngrams_matrix := [[3%Z]];
                Dice.match_original_series := [lit "aaaa"];
                Dice.data_ngrams_matrix := [[3%Z]];
                Dice.data_original_series := [lit "aaaa"];
                Dice.indices := [0%nat] |}).
  assert (Hprep : Dice.prep_ ([0%nat], [lit "aaaa"], [lit "aaaa"])
                             ([0%nat], [lit "aaaa"], [lit "aaaa"])
                  = Returned st) by (vm_compute; reflexivity).
  assert (Hc : Dice.calculate_best_match st 0
               = Returned {| MATCH := lit "aaaa";
                             BEST_FOUND_MATCH := Some (lit "aaaa");
                             TRUE_MATCH := None; BEST_MATCH := PyFloat 3 |})
    by (vm_compute; reflexivity).
  exists st. split; [exact Hprep|]. split; [exact Hc|].
  exact (@dice_score_nonnegative _ _ _ _ _ _ st 0 _ 3 Hprep Hc eq_refl).
Defined.

Lemma bigram_row_zero (v : Sklearn.CountVectorizer) (an : text -> list text)
    (docs : list text) (bin : bool) (d : text) :
  Sklearn.fit an bin docs = Returned v -> In d docs ->
  Numpy.nnz (Sklearn.transform_one v d) = 0%nat <-> an d = [].
Proof.
  intros Hfit Hd. destruct (fit_fields _ _ _ Hfit) as [Han _].
  rewrite <- Han. apply nnz_transform_one.
  exact (@fit_covers _ _ _ _ _ Hfit Hd).
Qed.

(** X15: what the Dice module does with one query, by the bigrams of its
    normalized text and by the corpus.  A query without a bigram (shorter
    than two characters once lowercased and its whitespace runs collapsed)
    is reported with no match; with a bigram but no reference, [argmax]
    raises [ValueError]; otherwise the reported reference is the first one
    whose coefficient is the largest, and the score is that coefficient. *)
Theorem dice_task_outcome (data_index match_index : list nat)
    (data_norm data_original match_norm match_original : list text)
    (st : Dice.state) (idx : nat) (orig norm : text) :
  Dice.prep_ (data_index, data_norm, data_original)
             (match_index, match_norm, match_original) = Returned st ->
  List.length data_original = List.length data_norm ->
  nth_error match_original idx = Some orig ->
  nth_error match_norm idx = Some norm ->
  let coefficients :=
    Dice.dice_coefficient (nth idx (Dice.match_ngrams_matrix st) [])
                          (Dice.data_ngrams_matrix st) in
  match Sklearn.char_analyzer Dice.n norm, data_norm with
  | [], _ => Dice.calculate_best_match st idx = Returned (no_match orig)
  | _ :: _, [] => Dice.calculate_best_match st idx = Raised empty_argmax
  | _ :: _, _ :: _ =>
      exists k s o,
        Dice.calculate_best_match st idx
        = Returned {| MATCH := orig; BEST_FOUND_MATCH := Some o;
                      TRUE_MATCH := None; BEST_MATCH := PyFloat s |}
        /\ nth_error data_original k = Some o
        /\ nth_error coefficients k = Some s
        /\ (forall y, In y coefficients -> (y <= s)%Q)
        /\ (forall j y, (j < k)%nat -> nth_error coefficients j = Some y ->
                        (y < s)%Q)
  end.
Proof.
  intros Hprep Hlen Ho Hn.
  apply dice_prep_state in Hprep as (v & Hfit & ->).
  cbv zeta. rewrite dice_calculate_shared.
  cbn [Dice.match_original_series Dice.match_ngrams_matrix
       Dice.data_ngrams_matrix Dice.data_original_series].
  assert (Hmv : nth_error (Sklearn.transform v match_norm) idx
                = Some (Sklearn.transform_one v norm))
    by (unfold Sklearn.transform; now apply map_nth_error).
  rewrite (@nth_error_nth Numpy.vector _ _ _ [] Hmv).
  assert (Hdl : List.length data_original
                = List.length (Sklearn.transform v data_norm))
    by (unfold Sklearn.transform; now rewrite length_map).
  destruct (@bigram_task_cases Dice.dice_coefficient match_original
              (Sklearn.transform v match_norm) (Sklearn.transform v data_norm)
              data_original idx orig _ length_dice_coefficient Hdl Ho Hmv)
    as (Hzero & Hraise & Hbest).
  assert (Hin : In norm (data_norm ++ match_norm))
    by (apply in_or_app; right; eapply nth_error_In; exact Hn).
  pose proof (@bigram_row_zero v _ _ _ norm Hfit Hin) as Hrow.
  cbv zeta.
  destruct (Sklearn.char_analyzer Dice.n norm) as [|t terms] eqn:Et.
  - apply Hzero. now apply Hrow.
  - assert (Hnz : Numpy.nnz (Sklearn.transform_one v norm) <> 0%nat)
      by (intros Hz; apply Hrow in Hz; discriminate Hz).
    destruct data_norm as [|d0 data_norm].
    + now apply Hraise.
    + apply Hbest; [exact Hnz|discriminate].
Qed.

Lemma dice_task_outcome_witness :
  exists st k s o,
    Dice.prep_ ([0; 1]%nat, [lit "markt 5"; lit "am markt"],
                [lit "Markt 5"; lit "Am Markt"])
               ([0%nat], [lit "am mark"], [lit "Am Mark"]) = Returned st
    /\ Dice.calculate_best_match st 0
       = Returned {| MATCH := lit "Am Mark"; BEST_FOUND_MATCH := Some o;
                     TRUE_MATCH := None; BEST_MATCH := PyFloat s |}
    /\ nth_error [lit "Markt 5"; lit "Am Markt"] k = Some o.
Proof.
  destruct (Dice.prep_ ([0; 1]%nat, [lit "markt 5"; lit "am markt"],
                        [lit "Markt 5"; lit "Am Markt"])
                       ([0%nat], [lit "am mark"], [lit "Am Mark"]))
    as [st|e] eqn:Hprep; [|vm_compute in Hprep; discriminate Hprep].
  pose proof (@dice_task_outcome _ _ _ _ _ _ st 0 (lit "Am Mark")
                (lit "am mark") Hprep eq_refl eq_refl eq_refl) as H.
  cbv zeta in H. revert H.
  destruct (Sklearn.char_analyzer Dice.n (lit "am mark")) as [|t terms] eqn:Et;
    [vm_compute in Et; discriminate Et|].
  intros (k & s & o & Hc & Hk & _).
  exists st, k, s, o. repeat split; trivial.
Defined.

(** X16: what the n-gram module does with one query: as the Dice module,
    with its own similarity. *)
Theorem ngram_task_outcome (data_index match_index : list nat)
    (data_norm data_original match_norm match_original : list text)
    (st : Ngram.state) (idx : nat) (orig norm : text) :
  Ngram.prep_ (data_index, data_norm, data_original)
              (match_index, match_norm, match_original) = Returned st ->
  List.length data_original = List.length data_norm ->
  nth_error match_original idx = Some orig ->
  nth_error match_norm idx = Some norm ->
  let similarities :=
    Ngram.ngram_similarity (nth idx (Ngram.match_ngrams_matrix st) [])
                           (Ngram.data_ngrams_matrix st) in
  match Sklearn.char_analyzer Ngram.n norm, data_norm with
  | [], _ => Ngram.calculate_best_match st idx = Returned (no_match orig)
  | _ :: _, [] => Ngram.calculate_best_match st idx = Raised empty_argmax
  | _ :: _, _ :: _ =>
      exists k s o,
        Ngram.calculate_best_match st idx
        = Returned {| MATCH := orig; BEST_FOUND_MATCH := Some o;
                      TRUE_MATCH := None; BEST_MATCH := PyFloat s |}
        /\ nth_error data_original k = Some o
        /\ nth_error similarities k = Some s
        /\ (forall y, In y similarities -> (y <= s)%Q)
        /\ (forall j y, (j < k)%nat -> nth_error similarities j = Some y ->
                        (y < s)%Q)
  end.
Proof.
  intros Hprep Hlen Ho Hn.
  apply ngram_prep_state in Hprep as (v & Hfit & ->).
  cbv zeta. rewrite ngram_calculate_shared.
  cbn [Ngram.match_original_series Ngram.match_ngrams_matrix
       Ngram.data_ngrams_matrix Ngram.data_original_series].
  assert (Hmv : nth_error (Sklearn.transform v match_norm) idx
                = Some (Sklearn.transform_one v norm))
    by (unfold Sklearn.transform; now apply map_nth_error).
  rewrite (@nth_error_nth Numpy.vector _ _ _ [] Hmv).
  assert (Hdl : List.length data_original
                = List.length (Sklearn.transform v data_norm))
    by (unfold Sklearn.transform; now rewrite length_map).
  destruct (@bigram_task_cases Ngram.ngram_similarity match_original
              (Sklearn.transform v match_norm) (Sklearn.transform v data_norm)
              data_original idx orig _ length_ngram_similarity Hdl Ho Hmv)
    as (Hzero & Hraise & Hbest).
  assert (Hin : In norm (data_norm ++ match_norm))
    by (apply in_or_app; right; eapply nth_error_In; exact Hn).
  pose proof (@bigram_row_zero v _ _ _ norm Hfit Hin) as Hrow.
  cbv zeta.
  destruct (Sklearn.char_analyzer Ngram.n norm) as [|t terms] eqn:Et.
  - apply Hzero. now apply Hrow.
  - assert (Hnz : Numpy.nnz (Sklearn.transform_one v norm) <> 0%nat)
      by (intros Hz; apply Hrow in Hz; discriminate Hz).
    destruct data_norm as [|d0 data_norm].
    + now apply Hraise.
    + apply Hbest; [exact Hnz|discriminate].
Qed.

Lemma ngram_task_outcome_witness :
  exists st,
    Ngram.prep_ ([], [], []) ([0; 1]%nat, [lit "am mark"; lit "a"],
                              [lit "Am Mark"; lit "A"]) = Returned st
    /\ Ngram.calculate_best_match st 0 = Raised empty_argmax
    /\ Ngram.calculate_best_match st 1 = Returned (no_match (lit "A")).
Proof.
  destruct (Ngram.prep_ ([], [], []) ([0; 1]%nat, [lit "am mark"; lit "a"],
                                      [lit "Am Mark"; lit "A"]))
    as [st|e] eqn:Hprep; [|vm_compute in Hprep; discriminate Hprep].
  pose proof (@ngram_task_outcome _ _ _ _ _ _ st 0 (lit "Am Mark")
                (lit "am mark") Hprep eq_refl eq_refl eq_refl) as H0.
  pose proof (@ngram_task_outcome _ _ _ _ _ _ st 1 (lit "A")
                (lit "a") Hprep eq_refl eq_refl eq_refl) as H1.
  cbv zeta in H0, H1. revert H0 H1.
  destruct (Sklearn.char_analyzer Ngram.n (lit "am mark")) as [|t terms] eqn:Et;
    [vm_compute in Et; discriminate Et|].
  destruct (Sklearn.char_analyzer Ngram.n (lit "a")) as [|t' terms'] eqn:Et';
    [|vm_compute in Et'; discriminate Et'].
  intros H0 H1. exists st. repeat split; trivial.
Defined.

(** The rows of a run in which every task returns. *)
Lemma rows_of_returning_tasks (name : string)
    (calc : nat -> outcome MatchResult) (match_col : list (option text))
    (completion : list nat) (threshold : Q) :
  Config.get Config.THRESHOLDS name = Some threshold ->
  match_col <> [] ->
  Permutation completion (seq 0 (List.length match_col)) ->
  (forall idx, (idx < List.length match_col)%nat ->
     exists r, calc idx = Returned r
               /\ MATCH r = nth idx (fillna match_col) ([] : text)) ->
  Executor.printed (Executor.perform_matching calc completion) = []
  /\ exists rows,
       classify name (Executor.results (Executor.perform_matching calc completion))
       = Returned rows
       /\ List.length rows = List.length match_col
       /\ map (fun row : row => MATCH (fst row)) rows
          = map (fun idx => nth idx (fillna match_col) ([] : text)) completion.
Proof.
  intros Hthr Hne Hperm Hret.
  assert (Hret' : forall idx, In idx completion ->
            exists r, calc idx = Returned r
                      /\ MATCH r = nth idx (fillna match_col) ([] : text)).
  { intros idx Hidx. apply (Permutation_in _ Hperm), in_seq in Hidx.
    apply Hret. lia. }
  assert (Hrun : Executor.perform_matching calc completion
                 = {| Executor.results := map (result_of calc) completion;
                      Executor.printed := [] |}).
  { apply tasks_all_return. intros idx Hidx.
    destruct (Hret' idx Hidx) as (r & -> & _). reflexivity. }
  assert (Hlen : List.length completion = List.length match_col)
    by (rewrite (Permutation_length Hperm); apply length_seq).
  rewrite Hrun. cbn [Executor.printed Executor.results].
  split; [reflexivity|].
  destruct completion as [|i0 completion].
  { destruct match_col; [contradiction|discriminate Hlen]. }
  remember (map (result_of calc) (i0 :: completion)) as df eqn:Edf.
  destruct df as [|r0 df]; [discriminate Edf|].
  unfold classify. rewrite Hthr.
  eexists. split; [reflexivity|]. rewrite Edf. split.
  - rewrite !length_map. exact Hlen.
  - rewrite map_map. cbn [fst]. rewrite map_map. apply map_ext_in.
    intros idx Hidx. destruct (Hret' idx Hidx) as (r & Hr & Hm).
    unfold result_of. now rewrite Hr.
Qed.

Lemma bigram_task_returns similarity mo mm dm dor idx :
  (forall m d, List.length (similarity m d) = List.length d) ->
  List.length dor = List.length dm ->
  dm <> [] ->
  List.length mm = List.length mo ->
  (idx < List.length mo)%nat ->
  exists r, bigram_task similarity mo mm dm dor idx = Returned r
            /\ MATCH r = nth idx mo ([] : text).
Proof.
  intros Hlen Hdor Hdm Hmm Hidx.
  pose proof (nth_error_nth' mo ([] : text) Hidx) as Ho.
  assert (Hidx' : (idx < List.length mm)%nat) by lia.
  pose proof (nth_error_nth' mm ([] : Numpy.vector) Hidx') as Hmv.
  destruct (@bigram_task_cases similarity mo mm dm dor idx _ _ Hlen Hdor Ho Hmv)
    as (Hzero & _ & Hbest).
  destruct (Nat.eq_dec (Numpy.nnz (nth idx mm [])) 0) as [Hz|Hnz].
  - eexists. split; [now apply Hzero|reflexivity].
  - destruct (Hbest Hnz Hdm) as (k & s & o & Hc & _).
    eexists. split; [exact Hc|reflexivity].
Qed.

(** X17: once [prep_] of the Dice or of the n-gram module has returned on a
    corpus that is not empty and the query set is not empty, no task raises
    and the table has one row for every query, in completion order. *)
Theorem bigram_modules_one_row_per_query (ALGORITHM : Main.Algorithm)
    (data_col match_col : list (option text)) (completion : list nat) :
  ALGORITHM = Main.dice \/ ALGORITHM = Main.ngram ->
  returned (Main.prep_ ALGORITHM (preprocessed data_col)
                       (preprocessed match_col)) = true ->
  data_col <> [] ->
  match_col <> [] ->
  Permutation completion (seq 0 (List.length match_col)) ->
  exists rows,
    Main.match_column ALGORITHM data_col match_col completion = Returned rows
    /\ List.length rows = List.length match_col
    /\ map (fun row : row => MATCH (fst row)) rows
       = map (fun idx => nth idx (fillna match_col) []) completion.
Proof.
  intros [->| ->] Hret Hd Hm Hperm; unfold Main.match_column;
    cbn [Main.prep_ Main.dice Main.ngram Main.perform_matching
         Main.export_results] in *.
  - destruct (Dice.prep_ (preprocessed data_col) (preprocessed match_col))
      as [st|] eqn:Hprep; [|discriminate Hret].
    cbn [bind]. rewrite !preprocessed_series in Hprep.
    apply dice_prep_state in Hprep as (v & Hfit & ->).
    unfold Dice.perform_matching, Dice.export_results.
    eapply (@rows_of_returning_tasks Dice.NAME _ match_col completion);
      [reflexivity|exact Hm|exact Hperm|].
    intros idx Hidx. rewrite dice_calculate_shared.
    cbn [Dice.match_original_series Dice.match_ngrams_matrix
         Dice.data_ngrams_matrix Dice.data_original_series].
    apply bigram_task_returns.
    + exact length_dice_coefficient.
    + unfold Sklearn.transform. now rewrite !length_map.
    + unfold Sklearn.transform, fillna. destruct data_col; [contradiction|].
      discriminate.
    + unfold Sklearn.transform. now rewrite !length_map.
    + now rewrite length_fillna.
  - destruct (Ngram.prep_ (preprocessed data_col) (preprocessed match_col))
      as [st|] eqn:Hprep; [|discriminate Hret].
    cbn [bind]. rewrite !preprocessed_series in Hprep.
    apply ngram_prep_state in Hprep as (v & Hfit & ->).
    unfold Ngram.perform_matching, Ngram.export_results.
    eapply (@rows_of_returning_tasks Ngram.NAME _ match_col completion);
      [reflexivity|exact Hm|exact Hperm|].
    intros idx Hidx. rewrite ngram_calculate_shared.
    cbn [Ngram.match_original_series Ngram.match_ngrams_matrix
         Ngram.data_ngrams_matrix Ngram.data_original_series].
    apply bigram_task_returns.
    + exact length_ngram_similarity.
    + unfold Sklearn.transform. now rewrite !length_map.
    + unfold Sklearn.transform, fillna. destruct data_col; [contradiction|].
      discriminate.
    + unfold Sklearn.transform. now rewrite !length_map.
    + now rewrite length_fillna.
Qed.

Lemma bigram_modules_one_row_per_query_witness :
  exists rows,
    Main.match_column Main.ngram
      [Some (lit "Markt 5"); None; Some (lit "Am Markt")]
      [Some (lit "Am Mark"); Some (lit "!")] [1; 0]%nat
    = Returned rows
    /\ List.length rows = 2%nat
    /\ map (fun row : row => MATCH (fst row)) rows = [lit "!"; lit "Am Mark"].
Proof.
  apply (@bigram_modules_one_row_per_query Main.ngram
           [Some (lit "Markt 5"); None; Some (lit "Am Markt")]
           [Some (lit "Am Mark"); Some (lit "!")] [1; 0]%nat).
  - now right.
  - vm_compute. reflexivity.
  - discriminate.
  - discriminate.
  - apply perm_swap.
Defined.

(** ** The containment module *)

Lemma select_first_hit (q : text) (originals : list text) :
  match Regex.select originals
          (Regex.or_mask
             (map (fun s2 => contains_ci s2 q) (map normalize_text originals))
             (map (fun d => contains (lower q) d)
                  (map lower (map normalize_text originals))))
  with
  | best :: _ => Some best
  | [] => None
  end = first_hit (contains_either q) originals.
Proof.
  induction originals as [|o originals IH]; [reflexivity|].
  cbn [map Regex.or_mask Regex.select first_hit].
  rewrite contains_lower. unfold contains_either at 1.
  destruct (contains_ci (normalize_text o) q || contains_ci q (normalize_text o));
    [reflexivity|exact IH].
Qed.

Lemma regex_calculate_spec (data_col match_col : list (option text))
    (st : Regex.state) (idx : nat) :
  Regex.prep_ (preprocessed data_col) (preprocessed match_col) = Returned st ->
  (idx < List.length match_col)%nat ->
  Regex.calculate_best_match st idx
  = Returned (regex_result data_col (nth idx (fillna match_col) ([] : text))).
Proof.
  intros Hprep Hidx. rewrite !preprocessed_series in Hprep.
  unfold Regex.prep_ in Hprep. injection Hprep as <-.
  assert (Hlt : (idx < List.length (fillna match_col))%nat)
    by now rewrite length_fillna.
  unfold Regex.calculate_best_match;
    cbn [Regex.match_original_series Regex.match_norm_series
         Regex.data_norm_series Regex.data_original_series].
  rewrite (iloc_nth_error _ _
             (nth_error_nth' (fillna match_col) ([] : text) Hlt)).
  rewrite (iloc_nth_error _ _
             (map_nth_error normalize_text _ _
                (nth_error_nth' (fillna match_col) ([] : text) Hlt))).
  cbn [bind]. rewrite regex_matching_contains_ci; cbn [bind].
  unfold Regex.reverse_regex_matching; cbn [Regex.data_norm_array_lower].
  pose proof (select_first_hit
                (normalize_text (nth idx (fillna match_col) ([] : text)))
                (fillna data_col)) as Hsel.
  unfold regex_result. cbv zeta.
  destruct (Regex.select _ _) as [|best rest]; rewrite <- Hsel; reflexivity.
Qed.

(** X18: the table of the containment module, for every corpus and every
    query set that is not empty.  No task raises; the row of a query names
    the first reference, in corpus order, whose normalized text contains the
    normalized query or is contained in it, up to case; the score is [True]
    and the row is accepted exactly when there is such a reference. *)
Theorem regex_table (data_col match_col : list (option text))
    (completion : list nat) :
  match_col <> [] ->
  Permutation completion (seq 0 (List.length match_col)) ->
  Main.match_column Main.regex data_col match_col completion
  = Returned
      (map (fun idx =>
              let r := regex_result data_col (nth idx (fillna match_col) []) in
              (r, is_some (BEST_FOUND_MATCH r)))
           completion).
Proof.
  intros Hne Hperm. unfold Main.match_column.
  cbn [Main.prep_ Main.regex Main.perform_matching Main.export_results].
  destruct (Regex.prep_ (preprocessed data_col) (preprocessed match_col))
    as [st|] eqn:Hprep; [|discriminate Hprep].
  cbn [bind]. unfold Regex.perform_matching.
  rewrite (@all_returned _ (Regex.calculate_best_match st)
             (fun idx => regex_result data_col
                           (nth idx (fillna match_col) ([] : text)))).
  2:{ intros idx Hidx. apply (Permutation_in _ Hperm), in_seq in Hidx.
      apply regex_calculate_spec; [exact Hprep|lia]. }
  cbn [Executor.results]. unfold Regex.export_results, classify.
  destruct completion as [|i0 completion].
  { apply Permutation_length in Hperm. rewrite length_seq in Hperm.
    destruct match_col; [contradiction|discriminate Hperm]. }
  remember (i0 :: completion) as order.
  destruct (map _ order) as [|r0 df] eqn:Edf; [subst order; discriminate Edf|].
  rewrite <- Edf. cbn [Config.get Config.THRESHOLDS Regex.NAME String.eqb
    Ascii.eqb Bool.eqb]. rewrite map_map. f_equal. apply map_ext.
  intros idx. cbv zeta. f_equal. unfold regex_result; cbn [BEST_MATCH
    BEST_FOUND_MATCH ge_threshold].
  now destruct (is_some _).
Qed.

Lemma regex_table_witness :
  Main.match_column Main.regex
    [Some (lit "Goethe Weg 1"); Some (lit "Markt")]
    [Some (lit "Am Markt 5"); Some (lit "Weg"); Some (lit "Ring")] [2; 0; 1]%nat
  = Returned
      [ ({| MATCH := lit "Ring"; BEST_FOUND_MATCH := None;
            TRUE_MATCH := None; BEST_MATCH := PyBool false |}, false);
        ({| MATCH := lit "Am Markt 5"; BEST_FOUND_MATCH := Some (lit "Markt");
            TRUE_MATCH := None; BEST_MATCH := PyBool true |}, true);
        ({| MATCH := lit "Weg"; BEST_FOUND_MATCH := Some (lit "Goethe Weg 1");
            TRUE_MATCH := None; BEST_MATCH := PyBool true |}, true) ].
Proof.
  rewrite (@regex_table [Some (lit "Goethe Weg 1"); Some (lit "Markt")]
             [Some (lit "Am Markt 5"); Some (lit "Weg"); Some (lit "Ring")]
             [2; 0; 1]%nat).
  - vm_compute. reflexivity.
  - discriminate.
  - cbn [List.length seq].
    eapply perm_trans; [apply perm_swap|apply perm_skip, perm_swap].
Defined.

Lemma startswith_ci_refl (s : text) : startswith_ci s s = true.
Proof.
  induction s as [|c s IH]; [reflexivity|].
  cbn [startswith_ci]. now rewrite Ascii.eqb_refl, IH.
Qed.

Lemma contains_ci_refl (s : text) : contains_ci s s = true.
Proof. destruct s; cbn [contains_ci]; now rewrite startswith_ci_refl. Qed.

Lemma first_hit_some (hit : text -> bool) (originals : list text) (o : text) :
  In o originals -> hit (normalize_text o) = true ->
  exists o', first_hit hit originals = Some o' /\ In o' originals
             /\ hit (normalize_text o') = true.
Proof.
  induction originals as [|x originals IH]; intros Hin Hhit; [destruct Hin|].
  cbn [first_hit]. destruct (hit (normalize_text x)) eqn:Hx.
  - exists x. repeat split; [now left|exact Hx].
  - destruct Hin as [->|Hin]; [congruence|].
    destruct (IH Hin Hhit) as (o' & Ho' & Hin' & Hh').
    exists o'. repeat split; [exact Ho'|now right|exact Hh'].
Qed.

(** X19: a query that has the same normalized text as some reference is
    always accepted by the containment module; the reference reported is
    one that contains the query or is contained in it, not always that
    one. *)
Theorem regex_accepts_listed_query (data_col match_col : list (option text))
    (st : Regex.state) (idx : nat) (reference : text) :
  Regex.prep_ (preprocessed data_col) (preprocessed match_col) = Returned st ->
  (idx < List.length match_col)%nat ->
  In reference (fillna data_col) ->
  normalize_text reference = normalize_text (nth idx (fillna match_col) []) ->
  exists r found,
    Regex.calculate_best_match st idx = Returned r
    /\ BEST_MATCH r = PyBool true
    /\ BEST_FOUND_MATCH r = Some found
    /\ In found (fillna data_col)
    /\ contains_either (normalize_text (nth idx (fillna match_col) []))
                       (normalize_text found) = true.
Proof.
  intros Hprep Hidx Hin Hsame.
  rewrite (regex_calculate_spec Hprep Hidx).
  set (q := normalize_text (nth idx (fillna match_col) ([] : text))) in *.
  destruct (@first_hit_some (contains_either q) (fillna data_col) reference Hin)
    as (found & Hf & Hfin & Hhit).
  { rewrite Hsame. unfold contains_either. now rewrite contains_ci_refl. }
  eexists; exists found. split; [reflexivity|].
  unfold regex_result; cbn [BEST_MATCH BEST_FOUND_MATCH]. fold q.
  rewrite Hf. repeat split; trivial.
Qed.

Lemma regex_accepts_listed_query_witness :
  exists st r,
    Regex.prep_ (preprocessed [Some (lit "Markt"); Some (lit "Am Markt 5")])
                (preprocessed [Some (lit "am markt 5!")]) = Returned st
    /\ Regex.calculate_best_match st 0 = Returned r
    /\ BEST_MATCH r = PyBool true
    /\ BEST_FOUND_MATCH r = Some (lit "Markt").
Proof.
  destruct (Regex.prep_
              (preprocessed [Some (lit "Markt"); Some (lit "Am Markt 5")])
              (preprocessed [Some (lit "am markt 5!")]))
    as [st|e] eqn:Hprep; [|discriminate Hprep].
  destruct (@regex_accepts_listed_query
              [Some (lit "Markt"); Some (lit "Am Markt 5")]
              [Some (lit "am markt 5!")] st 0 (lit "Am Markt 5") Hprep)
    as (r & found & Hc & Hs & Hf & _).
  - cbn. lia.
  - cbn. tauto.
  - vm_compute. reflexivity.
  - exists st, r. repeat split; trivial.
    injection Hprep as <-. vm_compute in Hc. injection Hc as <-. reflexivity.
Defined.

(** ** config/dotdict.py, utils/io.py, scripts/evaluation.py *)

Lemma lookup_none_iff {V} (d : DotDict.dict V) (name : string) :
  DotDict.lookup d name = None <-> ~ In name (DotDict.keys d).
Proof.
  induction d as [|[k v] d IH]; cbn [DotDict.lookup DotDict.keys map fst In].
  - tauto.
  - destruct (String.eqb k name) eqn:E.
    + apply String.eqb_eq in E. split; [discriminate|]. intros H.
      elim H. now left.
    + apply String.eqb_neq in E. fold (DotDict.keys d). tauto.
Qed.

Lemma lookup_setattr {V} (d : DotDict.dict V) (name other : string)
    (v : DotDict.value V) :
  DotDict.lookup (DotDict.setattr d name v) other
  = if String.eqb name other then Some v else DotDict.lookup d other.
Proof.
  induction d as [|[k w] d IH]; cbn [DotDict.setattr DotDict.lookup].
  - reflexivity.
  - destruct (String.eqb k name) eqn:E; cbn [DotDict.lookup].
    + apply String.eqb_eq in E. subst k.
      now destruct (String.eqb name other).
    + destruct (String.eqb k other) eqn:E'; [|exact IH].
      apply String.eqb_eq in E'. subst k. now rewrite String.eqb_sym, E.
Qed.

Lemma keys_setattr {V} (d : DotDict.dict V) (name : string)
    (v : DotDict.value V) :
  DotDict.keys (DotDict.setattr d name v)
  = (if in_dec string_dec name (DotDict.keys d) then DotDict.keys d
     else DotDict.keys d ++ [name]).
Proof.
  induction d as [|[k w] d IH];
    cbn [DotDict.setattr DotDict.keys map fst].
  - reflexivity.
  - fold (DotDict.keys d). destruct (String.eqb k name) eqn:E.
    + apply String.eqb_eq in E. subst k. cbn [DotDict.keys map fst].
      fold (DotDict.keys d).
      destruct (in_dec string_dec name (name :: DotDict.keys d)) as [_|H];
        [reflexivity|elim H; now left].
    + apply String.eqb_neq in E. cbn [DotDict.keys map fst].
      fold (DotDict.keys (DotDict.setattr d name v)). rewrite IH.
      destruct (in_dec string_dec name (DotDict.keys d)) as [Hin|Hout];
        destruct (in_dec string_dec name (k :: DotDict.keys d)) as [Hin'|Hout'];
        try reflexivity.
      * elim Hout'. now right.
      * destruct Hin' as [->|Hin']; [now elim E|contradiction].
Qed.

(** X20: attribute access on a [DotDict].  A name of the class ([items],
    [copy], [__len__], ...) always reads as the attribute of the class: an
    assignment to it is stored under the key but never read back.  Any other
    name reads as [dict.get]: the value just assigned to it, unchanged by an
    assignment to another name, and [None] exactly when it is no key or the
    stored value is [None] (never an error).  Assigning to a key keeps the
    order of the keys and a new name goes last. *)
Theorem dotdict_set_then_get (V : Type) (d : DotDict.dict V)
    (name other : string) (v : DotDict.value V) :
  DotDict.getattr (DotDict.setattr d name v) other
  = (if DotDict.class_attribute other then DotDict.ClassAttribute other
     else if String.eqb name other then DotDict.Item v
     else DotDict.getattr d other)
  /\ DotDict.lookup (DotDict.setattr d name v) name = Some v
  /\ (DotDict.class_attribute other = false ->
      (DotDict.getattr d other = DotDict.Item None
       <-> ~ In other (DotDict.keys d)
           \/ DotDict.lookup d other = Some None))
  /\ DotDict.keys (DotDict.setattr d name v)
     = (if in_dec string_dec name (DotDict.keys d) then DotDict.keys d
        else DotDict.keys d ++ [name]).
Proof.
  split; [|split; [|split]].
  - unfold DotDict.getattr, DotDict.get. rewrite lookup_setattr.
    destruct (DotDict.class_attribute other); [reflexivity|].
    now destruct (String.eqb name other).
  - rewrite lookup_setattr. now rewrite String.eqb_refl.
  - intros Hc. unfold DotDict.getattr, DotDict.get. rewrite Hc.
    rewrite <- lookup_none_iff.
    destruct (DotDict.lookup d other) as [[x|]|].
    + split; [discriminate|]. intros [H|H]; discriminate H.
    + split; [now right|reflexivity].
    + split; [now left|reflexivity].
  - apply keys_setattr.
Qed.

Lemma dotdict_set_then_get_witness :
  DotDict.getattr (DotDict.setattr dotdict_example "items" (Some (9 # 10)))
                  "items"
  = DotDict.ClassAttribute "items"
  /\ DotDict.lookup (DotDict.setattr dotdict_example "items" (Some (9 # 10)))
                    "items"
     = Some (Some (9 # 10))
  /\ DotDict.getattr (DotDict.setattr dotdict_example "regex" (Some (9 # 10)))
                     "regex"
     = DotDict.Item (Some (9 # 10))
  /\ (DotDict.getattr dotdict_example "dice" = DotDict.Item None
      <-> ~ In "dice"%string (DotDict.keys dotdict_example)
          \/ DotDict.lookup dotdict_example "dice" = Some None).
Proof.
  split; [|split; [|split]].
  - exact (proj1 (@dotdict_set_then_get Q dotdict_example "items" "items"
                    (Some (9 # 10)))).
  - exact (proj1 (proj2 (@dotdict_set_then_get Q dotdict_example "items"
                           "items" (Some (9 # 10))))).
  - exact (proj1 (@dotdict_set_then_get Q dotdict_example "regex" "regex"
                    (Some (9 # 10)))).
  - exact (proj1 (proj2 (proj2
             (@dotdict_set_then_get Q dotdict_example "items" "dice"
                (Some (9 # 10))))) eq_refl).
Defined.

(** X21: deleting an attribute of a [DotDict].  [del d.name] raises
    [KeyError] exactly when the name is no key, also for a name of the
    class; otherwise the key is gone, a name that is no name of the class
    reads as [None] afterwards (a name of the class still reads as the
    attribute of the class), every other name reads as before, and the
    remaining keys keep their order. *)
Theorem dotdict_delattr (V : Type) (d : DotDict.dict V) (name : string) :
  NoDup (DotDict.keys d) ->
  match DotDict.delattr d name with
  | Raised e => e = KeyError /\ ~ In name (DotDict.keys d)
  | Returned d' =>
      In name (DotDict.keys d)
      /\ ~ In name (DotDict.keys d')
      /\ DotDict.getattr d' name
         = (if DotDict.class_attribute name then DotDict.ClassAttribute name
            else DotDict.Item None)
      /\ (forall other, other <> name ->
            DotDict.getattr d' other = DotDict.getattr d other)
      /\ DotDict.keys d' = remove string_dec name (DotDict.keys d)
  end.
Proof.
  intros Hnd.
  enough (H : match DotDict.delattr d name with
              | Raised e => e = KeyError /\ ~ In name (DotDict.keys d)
              | Returned d' =>
                  In name (DotDict.keys d)
                  /\ DotDict.lookup d' name = None
                  /\ (forall other, other <> name ->
                        DotDict.lookup d' other = DotDict.lookup d other)
                  /\ DotDict.keys d' = remove string_dec name (DotDict.keys d)
              end).
  { destruct (DotDict.delattr d name) as [d'|e]; [|exact H].
    destruct H as (H1 & H2 & H3 & H4). split; [exact H1|].
    split; [now apply lookup_none_iff|]. split; [|split; [|exact H4]].
    - unfold DotDict.getattr, DotDict.get. now rewrite H2.
    - intros other Ho. unfold DotDict.getattr, DotDict.get.
      now rewrite (H3 other Ho). }
  induction d as [|[k v] d IH].
  - cbn. split; [reflexivity|tauto].
  - cbn [DotDict.keys map fst] in Hnd. fold (DotDict.keys d) in Hnd.
    inversion Hnd as [|? ? Hk Hnd']; subst.
    cbn [DotDict.delattr DotDict.lookup DotDict.keys map fst remove In].
    fold (DotDict.keys d).
    destruct (String.eqb k name) eqn:E.
    + apply String.eqb_eq in E. subst k.
      destruct (string_dec name name) as [_|H]; [|now elim H].
      split; [now left|]. split; [now apply lookup_none_iff|]. split.
      * intros other Ho. destruct (String.eqb name other) eqn:E';
          [apply String.eqb_eq in E'; now elim Ho|reflexivity].
      * symmetry. now apply notin_remove.
    + apply String.eqb_neq in E. specialize (IH Hnd').
      destruct (string_dec name k) as [->|_]; [now elim E|].
      destruct (DotDict.delattr d name) as [d'|e]; cbn [bind].
      * destruct IH as (H1 & H2 & H3 & H4). split; [now right|].
        cbn [DotDict.lookup DotDict.keys map fst]. fold (DotDict.keys d').
        apply String.eqb_neq in E. rewrite E. split; [exact H2|]. split.
        -- intros other Ho. destruct (String.eqb k other); [reflexivity|].
           now apply H3.
        -- now rewrite H4.
      * destruct IH as [He Hout]. split; [exact He|].
        intros [Hin|Hin]; [now elim E|contradiction].
Qed.

Lemma dotdict_delattr_witness :
  exists d',
    DotDict.delattr dotdict_example "items" = Returned d'
    /\ DotDict.keys d' = [ "regex"; "dice" ]%string
    /\ DotDict.getattr d' "items" = DotDict.ClassAttribute "items"
    /\ DotDict.getattr d' "regex" = DotDict.Item (Some (1 # 2))
    /\ DotDict.getattr d' "dice" = DotDict.Item None
    /\ DotDict.delattr d' "items" = Raised KeyError.
Proof.
  assert (Hnd : NoDup (DotDict.keys dotdict_example)).
  { assert (E : nodup string_dec (DotDict.keys dotdict_example)
                = DotDict.keys dotdict_example)
      by (vm_compute; reflexivity).
    rewrite <- E. apply NoDup_nodup. }
  pose proof (@dotdict_delattr Q dotdict_example "items" Hnd) as H.
  destruct (DotDict.delattr dotdict_example "items") as [d'|e] eqn:Hd;
    [|vm_compute in Hd; discriminate Hd].
  destruct H as (_ & _ & H2 & H3 & H4).
  exists d'. split; [reflexivity|]. split; [rewrite H4; reflexivity|].
  split; [exact H2|]. split; [|split].
  - rewrite H3 by discriminate. reflexivity.
  - rewrite H3 by discriminate. reflexivity.
  - injection Hd as <-. reflexivity.
Defined.

(** X22: the column names of the exported table and the ones the
    evaluation reads.  [export_data_for_validation] names the first column
    [MATCH], whatever it was, and prefixes every other column with the
    tag; on a frame without columns the assignment raises.  Each module
    passes the upper-case form of its [NAME] as the tag, so the exported
    table has the two columns the evaluation looks up for that name. *)
Theorem exported_columns_are_the_evaluated_ones :
  (forall algorithm columns,
     Io.export_columns algorithm columns
     = match columns with
       | [] => Raised (ValueError "Length mismatch")
       | _ :: rest =>
           Returned ("MATCH"%string
                     :: map (fun col => (algorithm ++ "_" ++ col)%string) rest)
       end)
  /\ Forall (fun '(name, tag) => tag = Evaluation.upper name) Io.EXPORT_TAGS
  /\ (forall name,
        exists columns,
          Io.export_columns (Evaluation.upper name) Io.RESULT_COLUMNS
          = Returned columns
          /\ In (Evaluation.y_true_col name) columns
          /\ In (Evaluation.y_pred_col name) columns).
Proof.
  split; [|split].
  - intros algorithm [|c rest]; [reflexivity|].
    unfold Io.export_columns. cbn [map tl List.length].
    rewrite length_map, Nat.eqb_refl. reflexivity.
  - unfold Io.EXPORT_TAGS. repeat constructor.
  - intros name. eexists. split; [reflexivity|].
    unfold Evaluation.y_true_col, Evaluation.y_pred_col.
    cbn [Io.RESULT_COLUMNS map tl In]. split.
    + right; right; left. reflexivity.
    + right; right; right; right; left. reflexivity.
Qed.

(* ================================================================== *)
(** * The pipeline of [main.py], module by module *)

(** ** What every module shares *)

Lemma source_module_loop (m : source_module) :
  In m SOURCE_MODULES ->
  (forall st completion,
     Main.perform_matching (algorithm m) st completion
     = Executor.perform_matching (task m st) completion)
  /\ (forall df,
        Main.export_results (algorithm m) df
        = classify (Main.NAME (algorithm m)) df)
  /\ exists threshold,
       Config.get Config.THRESHOLDS (Main.NAME (algorithm m)) = Some threshold
       /\ (0 <= threshold <= 1)%Q.
Proof.
  intros Hin. unfold SOURCE_MODULES in Hin.
  repeat (destruct Hin as [<-|Hin];
          [split; [reflexivity|split; [reflexivity|]];
           eexists; split; [reflexivity|split; discriminate]|]).
  destruct Hin.
Qed.

Lemma classify_classified (name : string) (threshold : Q)
    (df : list MatchResult) :
  Config.get Config.THRESHOLDS name = Some threshold ->
  classify name df
  = match df with
    | [] => Raised KeyError
    | _ :: _ => Returned (classified threshold df)
    end.
Proof. intros H. unfold classify. rewrite H. reflexivity. Qed.

(** The pipeline of [main.py] on a module whose [prep_] returned. *)
Lemma match_column_table (m : source_module)
    (data_col match_col : list (option text)) (completion : list nat) st :
  In m SOURCE_MODULES ->
  Main.prep_ (algorithm m) (preprocessed data_col) (preprocessed match_col)
  = Returned st ->
  Main.match_column (algorithm m) data_col match_col completion
  = classify (Main.NAME (algorithm m))
             (returned_of (task m st) completion).
Proof.
  intros Hin Hprep. destruct (source_module_loop Hin) as (Hloop & Hexp & _).
  unfold Main.match_column. rewrite Hprep; cbn [bind].
  rewrite Hloop, Hexp, perform_matching_unfold. reflexivity.
Qed.

Lemma returned_of_filter_map {A} (calc : nat -> outcome A) (f : nat -> A)
    (order : list nat) :
  (forall idx r, In idx order -> calc idx = Returned r -> f idx = r) ->
  returned_of calc order = map f (filter (task_returns calc) order).
Proof.
  induction order as [|idx order IH]; intros H; [reflexivity|].
  unfold returned_of, task_returns in *. cbn [flat_map filter].
  rewrite IH by (intros; eapply H; [now right|eassumption]).
  destruct (calc idx) as [r|e] eqn:E; cbn [returned app map]; [|reflexivity].
  f_equal. symmetry. apply (H idx r); [now left|exact E].
Qed.

Lemma returned_of_forall2 {A} (calc : nat -> outcome A)
    (P : nat -> A -> Prop) (order : list nat) :
  (forall idx r, In idx order -> calc idx = Returned r -> P idx r) ->
  Forall2 P (filter (task_returns calc) order) (returned_of calc order).
Proof.
  induction order as [|idx order IH]; intros H; [constructor|].
  unfold returned_of, task_returns in *. cbn [flat_map filter].
  assert (IH' := IH (fun i r Hi => H i r (or_intror Hi))).
  destruct (calc idx) as [r|e] eqn:E; cbn [returned app]; [|exact IH'].
  constructor; [|exact IH']. apply H; [now left|exact E].
Qed.

(** ** The shape of a result, module by module *)

Lemma levenshtein_reports (st : Levenshtein.state) (idx : nat) (r : MatchResult) :
  Levenshtein.calculate_best_match st idx = Returned r ->
  reports (Levenshtein.match_original_series st)
          (Levenshtein.data_original_series st) idx r.
Proof.
  unfold Levenshtein.calculate_best_match, reports.
  destruct (iloc (Levenshtein.match_original_series st) idx) as [mo|] eqn:Ho;
    [|discriminate].
  apply iloc_returned in Ho.
  destruct (iloc (Levenshtein.match_norm_series st) idx) as [mn|];
    [|discriminate].
  cbn [bind]. destruct (is_empty (strip mn)).
  { intros H; injection H as <-. cbn. repeat split; trivial. now left. }
  destruct (Rapidfuzz.extractOne _ _ _) as [[[c s] k]|].
  - destruct (iloc (Levenshtein.data_original_series st) k) as [o|] eqn:Hk;
      [|discriminate].
    apply iloc_returned in Hk. cbn [bind].
    intros H; injection H as <-. cbn. repeat split; trivial.
    + eapply nth_error_In; exact Hk.
    + discriminate.
  - intros H; injection H as <-. cbn. repeat split; trivial. now left.
Qed.

Lemma jaccard_reports (st : Jaccard.state) (idx : nat) (r : MatchResult) :
  Jaccard.calculate_best_match st idx = Returned r ->
  reports (Jaccard.match_original_series st)
          (Jaccard.data_original_series st) idx r.
Proof.
  unfold Jaccard.calculate_best_match, reports.
  destruct (iloc (Jaccard.match_original_series st) idx) as [mo|] eqn:Ho;
    [|discriminate].
  apply iloc_returned in Ho.
  destruct (iloc (Jaccard.match_norm_series st) idx) as [mn|];
    [|discriminate].
  cbn [bind]. destruct (is_empty (strip mn)).
  { intros H; injection H as <-. cbn. repeat split; trivial. now left. }
  destruct (Numpy.max _) as [s|]; [|discriminate]. cbn [bind].
  destruct (Numpy.argmax _) as [k|]; [|discriminate]. cbn [bind].
  destruct (iloc (Jaccard.data_original_series st) k) as [o|] eqn:Hk;
    [|discriminate].
  apply iloc_returned in Hk. cbn [bind].
  intros H; injection H as <-. cbn. repeat split; trivial.
  - eapply nth_error_In; exact Hk.
  - discriminate.
Qed.

Lemma bigram_task_reports similarity mo mm dm dor idx r :
  bigram_task similarity mo mm dm dor idx = Returned r ->
  reports mo dor idx r.
Proof.
  unfold bigram_task, reports.
  destruct (iloc mo idx) as [orig|] eqn:Ho; [|discriminate].
  apply iloc_returned in Ho.
  destruct (iloc mm idx) as [mv|]; [|discriminate].
  cbn [bind]. destruct (Numpy.nnz mv =? 0)%nat.
  { intros H; injection H as <-. cbn. repeat split; trivial. now left. }
  destruct (Numpy.argmax (similarity mv dm)) as [k|]; [|discriminate].
  cbn [bind].
  destruct (iloc (similarity mv dm) k) as [s|]; [|discriminate].
  cbn [bind]. destruct (iloc dor k) as [o|] eqn:Hk; [|discriminate].
  apply iloc_returned in Hk. cbn [bind].
  intros H; injection H as <-. cbn. repeat split; trivial.
  - eapply nth_error_In; exact Hk.
  - discriminate.
Qed.

Lemma select_incl {A} (series : list A) : forall mask a,
  In a (Regex.select series mask) -> In a series.
Proof.
  induction series as [|x series IH]; intros [|b mask] a H;
    try (now destruct H).
  cbn [Regex.select] in H. destruct b.
  - destruct H as [->|H]; [now left|right; eapply IH; exact H].
  - right; eapply IH; exact H.
Qed.

Lemma regex_reports (st : Regex.state) (idx : nat) (r : MatchResult) :
  Regex.calculate_best_match st idx = Returned r ->
  reports (Regex.match_original_series st)
          (Regex.data_original_series st) idx r.
Proof.
  unfold Regex.calculate_best_match, reports.
  destruct (iloc (Regex.match_original_series st) idx) as [mo|] eqn:Ho;
    [|discriminate].
  apply iloc_returned in Ho.
  destruct (iloc (Regex.match_norm_series st) idx) as [mn|];
    [|discriminate].
  cbn [bind]. rewrite regex_matching_contains_ci; cbn [bind].
  destruct (Regex.select _ _) as [|best rest] eqn:Hsel.
  - intros H; injection H as <-. cbn. repeat split; trivial. now right.
  - intros H; injection H as <-. cbn. repeat split; trivial.
    + eapply select_incl. rewrite Hsel. now left.
    + discriminate.
Qed.

(** The series a prepared module keeps. *)
Lemma source_module_reports (m : source_module)
    (data_col match_col : list (option text)) st (idx : nat)
    (r : MatchResult) :
  In m SOURCE_MODULES ->
  Main.prep_ (algorithm m) (preprocessed data_col) (preprocessed match_col)
  = Returned st ->
  task m st idx = Returned r ->
  reports (fillna match_col) (fillna data_col) idx r.
Proof.
  intros Hin. unfold SOURCE_MODULES in Hin.
  rewrite !preprocessed_series.
  destruct Hin as [<-|[<-|[<-|[<-|[<-|[]]]]]];
    cbn [algorithm task Main.prep_ Main.dice Main.jaccard Main.levenshtein
         Main.ngram Main.regex dice_module jaccard_module levenshtein_module
         ngram_module regex_module];
    intros Hprep Hcalc.
  - apply dice_prep_state in Hprep as (v & _ & ->).
    rewrite dice_calculate_shared in Hcalc.
    now apply bigram_task_reports in Hcalc.
  - apply jaccard_prep_state in Hprep as (v & _ & ->).
    now apply jaccard_reports in Hcalc.
  - unfold Levenshtein.prep_ in Hprep. injection Hprep as <-.
    now apply levenshtein_reports in Hcalc.
  - apply ngram_prep_state in Hprep as (v & _ & ->).
    rewrite ngram_calculate_shared in Hcalc.
    now apply bigram_task_reports in Hcalc.
  - unfold Regex.prep_ in Hprep. injection Hprep as <-.
    now apply regex_reports in Hcalc.
Qed.

(** ** The result table of [main.py] *)

Lemma seq_nodup_lt (n : nat) (completion : list nat) :
  Permutation completion (seq 0 n) ->
  NoDup completion /\ forall idx, In idx completion <-> (idx < n)%nat.
Proof.
  intros Hperm. split.
  - apply (Permutation_NoDup (Permutation_sym Hperm)), seq_NoDup.
  - intros idx. split; intros H.
    + apply (Permutation_in _ Hperm), in_seq in H. lia.
    + apply (Permutation_in _ (Permutation_sym Hperm)), in_seq. lia.
Qed.

Lemma classified_permutation (threshold : Q) (a b : list MatchResult) :
  Permutation a b -> Permutation (classified threshold a) (classified threshold b).
Proof. apply Permutation_map. Qed.

(** C3, as the code has it: [perform_matching] appends the results as the
    tasks finish and [main.py] builds the frame from that list as it is.
    For each of the five modules, the rows of the table are those of the
    queries whose task returned, in the order in which the tasks finished:
    a rearrangement of the rows of the run whose tasks finish in submission
    order.  The query index is never used to put them back. *)
Theorem table_rows_follow_completion (m : source_module)
    (data_col match_col : list (option text)) (completion : list nat)
    (st : Main.state (algorithm m)) :
  In m SOURCE_MODULES ->
  Main.prep_ (algorithm m) (preprocessed data_col) (preprocessed match_col)
  = Returned st ->
  Permutation completion (seq 0 (List.length match_col)) ->
  let finished := filter (task_returns (task m st)) completion in
  let query := fun idx => nth idx (fillna match_col) ([] : text) in
  Executor.results (Main.perform_matching (algorithm m) st completion)
  = returned_of (task m st) completion
  /\ map MATCH (returned_of (task m st) completion) = map query finished
  /\ Main.match_column (algorithm m) data_col match_col completion
     = classify (Main.NAME (algorithm m)) (returned_of (task m st) completion)
  /\ forall rows,
       Main.match_column (algorithm m) data_col match_col completion
       = Returned rows ->
       map fst rows = returned_of (task m st) completion
       /\ map (fun row : row => MATCH (fst row)) rows = map query finished
       /\ exists rows0,
            Main.match_column (algorithm m) data_col match_col
              (seq 0 (List.length match_col))
            = Returned rows0
            /\ Permutation rows rows0.
Proof.
  intros Hin Hprep Hperm finished query.
  destruct (source_module_loop Hin) as (Hloop & Hexp & thr & Hthr & _).
  assert (Hmatch : map MATCH (returned_of (task m st) completion)
                   = map query finished).
  { subst finished query.
    rewrite (@returned_of_filter_map _ (task m st)
               (fun idx => match task m st idx with
                           | Returned r => r
                           | Raised _ => no_match []
                           end) completion).
    2:{ intros idx r _ Hr. now rewrite Hr. }
    rewrite map_map. apply map_ext_in. intros idx Hidx.
    apply filter_In in Hidx as [_ Hok]. unfold task_returns in Hok.
    destruct (task m st idx) as [r|e] eqn:Hr; [|discriminate Hok].
    destruct (@source_module_reports m data_col match_col st idx r Hin Hprep Hr)
      as (Hq & _).
    symmetry. now apply nth_error_nth. }
  split; [rewrite Hloop; now rewrite perform_matching_unfold|].
  split; [exact Hmatch|].
  rewrite !(fun c => @match_column_table m data_col match_col c st Hin Hprep).
  split; [reflexivity|].
  intros rows Hrows. rewrite !(fun df => @classify_classified _ _ df Hthr) in *.
  assert (Hp : Permutation (returned_of (task m st) completion)
                 (returned_of (task m st) (seq 0 (List.length match_col))))
    by (unfold returned_of; now apply Permutation_flat_map).
  destruct (returned_of (task m st) completion) as [|r0 rs] eqn:Eres;
    [discriminate Hrows|].
  assert (Erows : rows = classified thr (r0 :: rs)) by congruence.
  subst rows.
  split; [unfold classified; apply map_fst_pair|].
  split.
  { rewrite <- Hmatch. unfold classified. now rewrite map_map. }
  destruct (returned_of (task m st) (seq 0 (List.length match_col)))
    as [|r1 rs1] eqn:Eres0.
  { apply Permutation_sym, Permutation_nil in Hp. discriminate Hp. }
  eexists. split; [reflexivity|]. now apply classified_permutation.
Qed.

Lemma table_rows_follow_completion_witness :
  exists st,
    Levenshtein.prep_ (preprocessed [Some (lit "a")])
                      (preprocessed [Some (lit "a"); Some (lit "b")])
    = Returned st
    /\ map MATCH (returned_of (Levenshtein.calculate_best_match st) [1; 0]%nat)
       = [lit "b"; lit "a"]
    /\ Main.match_column Main.levenshtein [Some (lit "a")]
         [Some (lit "a"); Some (lit "b")] [1; 0]%nat
       = classify Levenshtein.NAME
           (returned_of (Levenshtein.calculate_best_match st) [1; 0]%nat).
Proof.
  destruct (Levenshtein.prep_ (preprocessed [Some (lit "a")])
              (preprocessed [Some (lit "a"); Some (lit "b")]))
    as [st|e] eqn:Hprep; [|discriminate Hprep].
  assert (Hin : In levenshtein_module SOURCE_MODULES)
    by (right; right; left; reflexivity).
  assert (Hperm : Permutation [1; 0]%nat
                    (seq 0 (List.length [Some (lit "a"); Some (lit "b")])))
    by apply perm_swap.
  destruct (@table_rows_follow_completion levenshtein_module
              [Some (lit "a")] [Some (lit "a"); Some (lit "b")] [1; 0]%nat
              st Hin Hprep Hperm) as (_ & Hm & Ht & _).
  exists st. split; [reflexivity|]. split; [|exact Ht].
  cbn [task levenshtein_module] in Hm. rewrite Hm.
  injection Hprep as <-. vm_compute. reflexivity.
Defined.

(** C8, as the code has it, for each of the five modules.  A task that
    raises is printed with its index and left out, and the loop goes on:
    the printed indices are the failing queries.  When at least one query
    is left, the table has one row for each query that did not fail, the
    query-set row count minus the number of failures, and each row carries
    the original text of its own query. *)
Theorem perform_matching_isolates_failures (m : source_module)
    (data_col match_col : list (option text)) (completion : list nat)
    (st : Main.state (algorithm m)) :
  In m SOURCE_MODULES ->
  Main.prep_ (algorithm m) (preprocessed data_col) (preprocessed match_col)
  = Returned st ->
  Permutation completion (seq 0 (List.length match_col)) ->
  let run := Main.perform_matching (algorithm m) st completion in
  let failures :=
    filter (task_raises (task m st)) (seq 0 (List.length match_col)) in
  Permutation (map fst (Executor.printed run)) failures
  /\ (forall idx e, In (idx, e) (Executor.printed run) ->
                    task m st idx = Raised e)
  /\ List.length (Executor.results run)
     = (List.length match_col - List.length failures)%nat
  /\ ((List.length failures < List.length match_col)%nat ->
      exists rows succeeded,
        Main.match_column (algorithm m) data_col match_col completion
        = Returned rows
        /\ map fst rows = Executor.results run
        /\ List.length rows
           = (List.length match_col - List.length failures)%nat
        /\ NoDup succeeded
        /\ (forall idx,
              In idx succeeded
              <-> (idx < List.length match_col)%nat
                  /\ task_returns (task m st) idx = true)
        /\ Forall2 (fun idx (row : row) =>
                      task m st idx = Returned (fst row)
                      /\ reports (fillna match_col) (fillna data_col) idx
                                 (fst row))
                   succeeded rows).
Proof.
  intros Hin Hprep Hperm run failures.
  destruct (source_module_loop Hin) as (Hloop & Hexp & thr & Hthr & _).
  destruct (@loop_isolates_failures _ (task m st) _ _
              (seq_NoDup (List.length match_col) 0) Hperm)
    as (H1 & H2 & H3 & _).
  cbv zeta in H1, H2, H3. subst run. rewrite Hloop.
  rewrite length_seq in H3.
  split; [exact H1|]. split; [exact H2|]. split; [exact H3|].
  intros Hsome. fold failures in H3.
  rewrite (@match_column_table m data_col match_col completion st Hin Hprep).
  rewrite (@classify_classified _ _ _ Hthr).
  rewrite perform_matching_unfold in *. cbn [Executor.results] in *.
  destruct (returned_of (task m st) completion) as [|r0 rs] eqn:Eres.
  { cbn [List.length] in H3. lia. }
  rewrite <- Eres in *.
  exists (classified thr (returned_of (task m st) completion)),
         (filter (task_returns (task m st)) completion).
  destruct (@seq_nodup_lt _ _ Hperm) as [Hnd Hlt].
  split; [reflexivity|]. split; [unfold classified; apply map_fst_pair|].
  split; [unfold classified; now rewrite length_map|].
  split; [now apply NoDup_filter|]. split.
  - intros idx. rewrite filter_In, Hlt. tauto.
  - unfold classified.
    assert (HF : Forall2 (fun idx r =>
                            task m st idx = Returned r
                            /\ reports (fillna match_col) (fillna data_col)
                                       idx r)
                   (filter (task_returns (task m st)) completion)
                   (returned_of (task m st) completion)).
    { apply returned_of_forall2. intros idx r _ Hr. split; [exact Hr|].
      exact (@source_module_reports m data_col match_col st idx r Hin Hprep Hr). }
    clear - HF. induction HF as [|idx r idxs rs' Hh _ IH]; [constructor|].
    cbn [map]. constructor; [exact Hh|exact IH].
Qed.

(** With no reference row the [argmax] of the first query raises; the loop
    prints it, keeps the result of the second query, and the table has the
    one row. *)
Lemma perform_matching_isolates_failures_witness :
  Executor.printed (Dice.perform_matching dice_state_without_corpus [1; 0]%nat)
  = [(0%nat, empty_argmax)]
  /\ exists rows,
       Main.match_column Main.dice [] [Some (lit "ab"); Some []] [1; 0]%nat
       = Returned rows
       /\ map fst rows = [no_match []]
       /\ List.length rows = (2 - 1)%nat.
Proof.
  assert (Hin : In dice_module SOURCE_MODULES) by (left; reflexivity).
  assert (Hperm : Permutation [1; 0]%nat
                    (seq 0 (List.length [Some (lit "ab"); Some ([] : text)])))
    by apply perm_swap.
  destruct (@perform_matching_isolates_failures dice_module
              [] [Some (lit "ab"); Some []] [1; 0]%nat
              dice_state_without_corpus Hin dice_prep_without_corpus Hperm)
    as (_ & _ & _ & Htable).
  split; [vm_compute; reflexivity|].
  destruct Htable as (rows & _ & Hrows & Hres & Hlen & _);
    [vm_compute; apply le_n|].
  exists rows. split; [exact Hrows|]. split.
  - rewrite Hres. vm_compute. reflexivity.
  - rewrite Hlen. vm_compute. reflexivity.
Defined.

(** C8, as stated, fails: when the only query fails no result is left, the
    frame has no column and adding the binary column raises; no table of
    1 - 1 = 0 rows is produced. *)
Lemma no_table_when_every_task_fails :
  Dice.prep_ (preprocessed []) (preprocessed [Some (lit "ab")])
  = Returned {| Dice.match_ngrams_matrix := [[1%Z]];
                Dice.match_original_series := [lit "ab"];
                Dice.data_ngrams_matrix := [];
                Dice.data_original_series := [];
                Dice.indices := [0%nat] |}
  /\ Executor.printed
       (Dice.perform_matching
          {| Dice.match_ngrams_matrix := [[1%Z]];
             Dice.match_original_series := [lit "ab"];
             Dice.data_ngrams_matrix := [];
             Dice.data_original_series := [];
             Dice.indices := [0%nat] |} [0%nat])
     = [(0%nat, empty_argmax)]
  /\ Main.match_column Main.dice [] [Some (lit "ab")] [0%nat] = Raised KeyError
  /\ ~ exists rows,
         Main.match_column Main.dice [] [Some (lit "ab")] [0%nat]
         = Returned rows
         /\ List.length rows = (1 - 1)%nat.
Proof.
  split; [vm_compute; reflexivity|]. split; [vm_compute; reflexivity|].
  assert (H : Main.match_column Main.dice [] [Some (lit "ab")] [0%nat]
              = Raised KeyError) by (vm_compute; reflexivity).
  split; [exact H|]. intros (rows & Hrows & _). rewrite H in Hrows.
  discriminate Hrows.
Qed.

(** ** Empty input at prepare time *)

Lemma build_vocabulary_no_term (an : text -> list text) (docs : list text) :
  (forall d, In d docs -> an d = []) ->
  Sklearn.build_vocabulary an docs = [].
Proof.
  intros H. unfold Sklearn.build_vocabulary.
  replace (List.concat (map an docs)) with ([] : list text); [reflexivity|].
  induction docs as [|d docs IH]; [reflexivity|].
  cbn [map List.concat]. rewrite (H d) by now left.
  cbn [app]. apply IH. intros; apply H; now right.
Qed.

Lemma bigram_task_without_corpus similarity mo mm dor idx orig mv :
  (forall m d, List.length (similarity m d) = List.length d) ->
  dor = [] ->
  nth_error mo idx = Some orig ->
  nth_error mm idx = Some mv ->
  bigram_task similarity mo mm [] dor idx
  = if (Numpy.nnz mv =? 0)%nat then Returned (no_match orig)
    else Raised empty_argmax.
Proof.
  intros Hlen -> Ho Hmv.
  destruct (@bigram_task_cases similarity mo mm [] [] idx orig mv Hlen
              eq_refl Ho Hmv) as (Hzero & Hraise & _).
  destruct (Numpy.nnz mv =? 0)%nat eqn:E.
  - apply Hzero. now apply Nat.eqb_eq.
  - apply Hraise; [now apply Nat.eqb_neq|reflexivity].
Qed.

Lemma nnz_bigram_row (v : Sklearn.CountVectorizer) (n : nat)
    (docs : list text) (d : text) :
  Sklearn.fit (Sklearn.char_analyzer n) false docs = Returned v ->
  In d docs ->
  (Numpy.nnz (Sklearn.transform_one v d) =? 0)%nat
  = match Sklearn.char_analyzer n d with [] => true | _ :: _ => false end.
Proof.
  intros Hfit Hd.
  pose proof (@bigram_row_zero v _ _ _ d Hfit Hd) as Hrow.
  destruct (Sklearn.char_analyzer n d) as [|t ts] eqn:E.
  - apply Nat.eqb_eq. now apply Hrow.
  - apply Nat.eqb_neq. intros Hz. apply Hrow in Hz. discriminate Hz.
Qed.

(** C4 on the code.  With an empty reference corpus the Jaccard [prep_]
    raises: the vectorizer's [fit] finds no term, and the run of [main.py]
    ends there.  The Dice and the n-gram [prep_] raise the same way when no
    query has a bigram; otherwise they return, and the task of every query
    that has a bigram raises in [argmax] and the query is left out.  The
    edit-distance and the containment module, on the same input, report
    every query with no match.  With an empty query set a prepare that
    returns is followed by a search that submits no task; the frame of the
    empty result list has no score column. *)
Theorem empty_input_at_prepare
    (match_col : list (option text)) (completion : list nat) :
  Permutation completion (seq 0 (List.length match_col)) ->
  let query := fun idx => nth idx (fillna match_col) ([] : text) in
  let bigram_outcome := fun idx =>
    match Sklearn.char_analyzer 2 (normalize_text (query idx)) with
    | [] => Returned (no_match (query idx))
    | _ :: _ => Raised empty_argmax
    end in
  Jaccard.prep_ (preprocessed []) (preprocessed match_col)
  = Raised empty_vocabulary
  /\ Main.match_column Main.jaccard [] match_col completion
     = Raised empty_vocabulary
  /\ ((forall idx, Sklearn.char_analyzer 2 (normalize_text (query idx)) = []) ->
      Dice.prep_ (preprocessed []) (preprocessed match_col)
      = Raised empty_vocabulary
      /\ Ngram.prep_ (preprocessed []) (preprocessed match_col)
         = Raised empty_vocabulary)
  /\ (forall st idx,
        Dice.prep_ (preprocessed []) (preprocessed match_col) = Returned st ->
        (idx < List.length match_col)%nat ->
        Dice.calculate_best_match st idx = bigram_outcome idx)
  /\ (forall st idx,
        Ngram.prep_ (preprocessed []) (preprocessed match_col) = Returned st ->
        (idx < List.length match_col)%nat ->
        Ngram.calculate_best_match st idx = bigram_outcome idx)
  /\ (exists st,
        Levenshtein.prep_ (preprocessed []) (preprocessed match_col)
        = Returned st
        /\ Levenshtein.perform_matching st completion
           = {| Executor.results :=
                  map (fun idx => no_match (query idx)) completion;
                Executor.printed := [] |})
  /\ (exists st,
        Regex.prep_ (preprocessed []) (preprocessed match_col) = Returned st
        /\ Regex.perform_matching st completion
           = {| Executor.results :=
                  map (fun idx => {| MATCH := query idx;
                                     BEST_FOUND_MATCH := None;
                                     TRUE_MATCH := None;
                                     BEST_MATCH := PyBool false |})
                      completion;
                Executor.printed := [] |})
  /\ (forall (m : source_module) data_col st,
        In m SOURCE_MODULES ->
        Main.prep_ (algorithm m) (preprocessed data_col) (preprocessed [])
        = Returned st ->
        Main.perform_matching (algorithm m) st []
        = {| Executor.results := []; Executor.printed := [] |}
        /\ Main.match_column (algorithm m) data_col [] [] = Raised KeyError).
Proof.
  intros Hperm query bigram_outcome.
  assert (Hrange : forall idx, In idx completion ->
                     (idx < List.length (fillna match_col))%nat).
  { intros idx Hidx. apply (Permutation_in _ Hperm), in_seq in Hidx.
    rewrite length_fillna. lia. }
  assert (Hnorm : forall idx, (idx < List.length match_col)%nat ->
            nth_error (map normalize_text (fillna match_col)) idx
            = Some (normalize_text (query idx))).
  { intros idx Hidx. apply map_nth_error, nth_error_nth'.
    now rewrite length_fillna. }
  assert (Horig : forall idx, (idx < List.length match_col)%nat ->
            nth_error (fillna match_col) idx = Some (query idx)).
  { intros idx Hidx. apply nth_error_nth'. now rewrite length_fillna. }
  split; [reflexivity|]. split; [reflexivity|]. split; [|split; [|split]].
  - intros Hnone.
    assert (Hvoc : Sklearn.build_vocabulary (Sklearn.char_analyzer 2)
                     (map normalize_text (fillna match_col)) = []).
    { apply build_vocabulary_no_term. intros d Hd.
      apply In_nth_error in Hd as (idx & Hd).
      assert (Hidx : (idx < List.length match_col)%nat).
      { rewrite <- length_fillna, <- (length_map normalize_text).
        apply nth_error_Some. congruence. }
      rewrite (Hnorm idx Hidx) in Hd. injection Hd as <-. apply Hnone. }
    rewrite !preprocessed_series.
    unfold Dice.prep_, Ngram.prep_, Sklearn.fit, Dice.n, Ngram.n.
    cbn [fillna map app]. rewrite Hvoc. split; reflexivity.
  - intros st idx Hprep Hidx. rewrite !preprocessed_series in Hprep.
    apply dice_prep_state in Hprep as (v & Hfit & ->).
    rewrite dice_calculate_shared.
    cbn [Dice.match_original_series Dice.match_ngrams_matrix
         Dice.data_ngrams_matrix Dice.data_original_series
         Sklearn.transform fillna map].
    unfold Sklearn.transform.
    etransitivity;
      [exact (@bigram_task_without_corpus Dice.dice_coefficient _ _ _ idx
                (query idx)
                (Sklearn.transform_one v (normalize_text (query idx)))
                length_dice_coefficient eq_refl (Horig idx Hidx)
                (map_nth_error _ _ _ (Hnorm idx Hidx)))|].
    rewrite (@nnz_bigram_row v Dice.n _ _ Hfit).
    + unfold bigram_outcome, Dice.n.
      now destruct (Sklearn.char_analyzer 2 (normalize_text (query idx))).
    + cbn [fillna map app]. eapply nth_error_In. exact (Hnorm idx Hidx).
  - intros st idx Hprep Hidx. rewrite !preprocessed_series in Hprep.
    apply ngram_prep_state in Hprep as (v & Hfit & ->).
    rewrite ngram_calculate_shared.
    cbn [Ngram.match_original_series Ngram.match_ngrams_matrix
         Ngram.data_ngrams_matrix Ngram.data_original_series
         Sklearn.transform fillna map].
    unfold Sklearn.transform.
    etransitivity;
      [exact (@bigram_task_without_corpus Ngram.ngram_similarity _ _ _ idx
                (query idx)
                (Sklearn.transform_one v (normalize_text (query idx)))
                length_ngram_similarity eq_refl (Horig idx Hidx)
                (map_nth_error _ _ _ (Hnorm idx Hidx)))|].
    rewrite (@nnz_bigram_row v Ngram.n _ _ Hfit).
    + unfold bigram_outcome, Ngram.n.
      now destruct (Sklearn.char_analyzer 2 (normalize_text (query idx))).
    + cbn [fillna map app]. eapply nth_error_In. exact (Hnorm idx Hidx).
  - split; [|split].
    + eexists; split; [reflexivity|].
      apply all_returned. intros idx Hidx. specialize (Hrange idx Hidx).
      eapply levenshtein_empty_corpus; cbn [Levenshtein.data_norm_series
        Levenshtein.match_original_series Levenshtein.match_norm_series].
      * reflexivity.
      * apply (nth_error_nth' _ ([] : text) Hrange).
      * apply map_nth_error. apply (nth_error_nth' _ ([] : text) Hrange).
    + destruct (Regex.prep_ (preprocessed []) (preprocessed match_col))
        as [st|] eqn:Hprep; [|discriminate Hprep].
      exists st. split; [reflexivity|].
      apply all_returned. intros idx Hidx. specialize (Hrange idx Hidx).
      rewrite length_fillna in Hrange.
      now rewrite (regex_calculate_spec Hprep Hrange).
    + intros m data_col st Hin Hprep.
      destruct (source_module_loop Hin) as (Hloop & _).
      split; [now rewrite Hloop|].
      now rewrite (@match_column_table m data_col [] [] st Hin Hprep).
Qed.

Lemma empty_input_at_prepare_witness :
  Jaccard.prep_ (preprocessed []) (preprocessed [Some (lit "Am Markt"); None])
  = Raised empty_vocabulary
  /\ Main.match_column Main.jaccard [] [Some (lit "Am Markt"); None] [1; 0]%nat
     = Raised empty_vocabulary
  /\ Executor.results
       (Main.perform_matching Main.dice dice_state_without_corpus [1; 0]%nat)
     = [no_match []]
  /\ Main.match_column Main.levenshtein [] [Some (lit "Am Markt"); None]
       [1; 0]%nat
     = Returned [(no_match [], false); (no_match (lit "Am Markt"), false)]
  /\ Main.match_column Main.regex [] [Some (lit "Am Markt")] [0%nat]
     = Returned [({| MATCH := lit "Am Markt"; BEST_FOUND_MATCH := None;
                     TRUE_MATCH := None; BEST_MATCH := PyBool false |}, false)].
Proof.
  assert (Hperm : Permutation [1; 0]%nat
                    (seq 0 (List.length [Some (lit "Am Markt"); None])))
    by apply perm_swap.
  destruct (@empty_input_at_prepare [Some (lit "Am Markt"); None] [1; 0]%nat
              Hperm) as (Hj & Hjm & _).
  split; [exact Hj|]. split; [exact Hjm|].
  repeat split; vm_compute; reflexivity.
Defined.

(** ** The cosine of two vectors *)

Section CosineFacts.
Import Rdefinitions RIneq R_sqr R_sqrt Lra.
Local Open Scope R_scope.
















End CosineFacts.

(** ** The weighted-term cosine module and the contract of the six *)

Section TfidfFacts.
Import Rdefinitions RIneq R_sqr R_sqrt Lra.
Variable terms : text -> list text.
Variable idf : list text -> text -> R.
Variable fl : R -> Q.
Hypothesis idf_positive : forall docs t, (0 < idf docs t)%R.
Hypothesis fl_monotone : forall x y : R, (x <= y)%R -> (fl x <= fl y)%Q.
Hypothesis fl_zero : fl 0%R = 0%Q.
Hypothesis fl_one : fl 1%R = 1%Q.












End TfidfFacts.

(** ** C9 *)

Section Contract.
Import Rdefinitions RIneq R_sqr R_sqrt Lra.
Variable terms : text -> list text.
Variable idf : list text -> text -> R.
Variable fl : R -> Q.
Hypothesis idf_positive : forall docs t, (0 < idf docs t)%R.
Hypothesis fl_monotone : forall x y : R, (x <= y)%R -> (fl x <= fl y)%Q.
Hypothesis fl_zero : fl 0%R = 0%Q.
Hypothesis fl_one : fl 1%R = 1%Q.


End Contract.

Section Instance.
Import Rdefinitions RIneq Lra.





End Instance.

